(** * Webtapu extractor: a shallow embedding of the document-to-record
    pipeline and the properties checked against it.

    The development follows the Python sources:
    - [watermark_remover.py]  : [re_tf], [re_tj], [re_TJ], [scrub_stream];
    - [text_processor.py]     : [clean], [upper], [capitalize], the splitters;
    - [table_extractor.py]    : [fix_continuation];
    - [data_extractor.py]     : [extract_general_info],
                                [extract_mulkiyete_ait_serh_beyan],
                                [extract_aciklama];
    - [pdf_processor.py]      : [process_single_pdf], [process_multiple_pdfs],
                                [process_pdf_files];
    - [app.py]                : [emit_job_event], [process_job],
                                [event_stream].

    Text is a list of code points ([N]); a [bytes] value is a list of
    code points below 256.  Exceptions are values of [exn] carried by
    [result]. *)

From Stdlib Require Import String Ascii List Bool Arith NArith ZArith Lia.
From Stdlib Require Import Floats.
Import ListNotations.

Set Implicit Arguments.

(** ** Python values shared by all modules *)

Definition text := list N.

(** Code points of a string literal of this file (UTF-8, one to three
    bytes per code point). *)
Fixpoint utf8_decode (l : list N) : text :=
  match l with
  | [] => []
  | a :: l1 =>
      if (a <? 128)%N then a :: utf8_decode l1
      else if (a <? 224)%N then
        match l1 with
        | b :: l2 => ((a - 192) * 64 + (b - 128))%N :: utf8_decode l2
        | [] => [a]
        end
      else
        match l1 with
        | b :: c :: l3 =>
            ((a - 224) * 4096 + (b - 128) * 64 + (c - 128))%N :: utf8_decode l3
        | _ => a :: utf8_decode l1
        end
  end.

Definition txt (s : string) : text :=
  utf8_decode (map N_of_ascii (list_ascii_of_string s)).

Inductive exn : Type :=
| IndexError
| KeyError
| ValueError.

Inductive result (A : Type) : Type :=
| Ok (a : A)
| Raise (e : exn).
Arguments Ok {A} a.
Arguments Raise {A} e.

Definition bind {A B} (x : result A) (f : A -> result B) : result B :=
  match x with
  | Ok a => f a
  | Raise e => Raise e
  end.

Notation "x <- c ;; k" := (bind c (fun x => k))
  (at level 61, c at next level, right associativity).

(** [buf[a:b]] for [0 <= a] and [0 <= b]. *)
Definition slice {A} (l : list A) (a b : nat) : list A :=
  firstn (b - a) (skipn a l).

Definition text_eqb (a b : text) : bool :=
  if list_eq_dec N.eq_dec a b then true else false.

(** ** The regular expressions of [re], as a backtracking matcher *)

Module Re.

Inductive regex : Type :=
| Eps
| Bol                                   (* ^  *)
| Cls (p : N -> bool)                   (* one character of a class *)
| Cat (r1 r2 : regex)
| Alt (r1 r2 : regex)                   (* r1|r2, r1 tried first *)
| Star (greedy : bool) (r : regex)      (* r* and r*? *)
| Grp (i : nat) (r : regex).            (* capturing group number i *)

Record st : Type := St {
  pos : nat;
  rest : list N;
  caps : list (nat * (nat * nat))
}.

Definition orelse {A} (x y : option A) : option A :=
  match x with
  | Some a => Some a
  | None => y
  end.

(** [run r s k]: match [r] at state [s], then continue with [k]; the
    first success in the order Python's engine explores is returned.
    An iteration of a star that consumes nothing is not repeated. *)
Fixpoint run {A} (r : regex) (s : st) (k : st -> option A) : option A :=
  match r with
  | Eps => k s
  | Bol => if pos s =? 0 then k s else None
  | Cls p =>
      match rest s with
      | c :: t => if p c then k (St (S (pos s)) t (caps s)) else None
      | [] => None
      end
  | Cat r1 r2 => run r1 s (fun s1 => run r2 s1 k)
  | Alt r1 r2 => orelse (run r1 s k) (run r2 s k)
  | Star g r1 =>
      (fix loop (n : nat) (s0 : st) : option A :=
         match n with
         | 0 => k s0
         | S n' =>
             if g then
               orelse
                 (run r1 s0 (fun s1 =>
                    if pos s0 <? pos s1 then loop n' s1 else None))
                 (k s0)
             else
               orelse
                 (k s0)
                 (run r1 s0 (fun s1 =>
                    if pos s0 <? pos s1 then loop n' s1 else None))
         end) (length (rest s)) s
  | Grp i r1 =>
      run r1 s (fun s1 => k (St (pos s1) (rest s1) ((i, (pos s, pos s1)) :: caps s1)))
  end.

Record mtch : Type := Mtch {
  m_start : nat;
  m_end : nat;
  m_caps : list (nat * (nat * nat))
}.

Definition match_at (r : regex) (p : nat) (suffix : list N) : option mtch :=
  run r (St p suffix []) (fun s => Some (Mtch p (pos s) (caps s))).

Fixpoint search_from (r : regex) (p : nat) (suffix : list N) : option mtch :=
  match match_at r p suffix with
  | Some m => Some m
  | None =>
      match suffix with
      | [] => None
      | _ :: t => search_from r (S p) t
      end
  end.

(** [pattern.search(buf, p)], for [p] within the text. *)
Definition search (r : regex) (buf : list N) (p : nat) : option mtch :=
  if p <=? length buf then search_from r p (skipn p buf) else None.

Fixpoint finditer_from (fuel : nat) (r : regex) (buf : list N) (p : nat)
  : list mtch :=
  match fuel with
  | 0 => []
  | S fuel' =>
      match search r buf p with
      | None => []
      | Some m =>
          m :: finditer_from fuel' r buf
                 (if m_end m =? m_start m then S (m_end m) else m_end m)
      end
  end.

(** [pattern.finditer(buf)]: successive leftmost matches, none
    overlapping the one before; the search resumes one character
    further after an empty match. *)
Definition finditer (r : regex) (buf : list N) : list mtch :=
  finditer_from (S (length buf)) r buf 0.

Fixpoint lookup_cap (i : nat) (c : list (nat * (nat * nat)))
  : option (nat * nat) :=
  match c with
  | [] => None
  | (j, se) :: c' => if i =? j then Some se else lookup_cap i c'
  end.

(** [m.group(i)], [None] for a group that took no part in the match. *)
Definition group (buf : list N) (m : mtch) (i : nat) : option (list N) :=
  match lookup_cap i (m_caps m) with
  | Some (a, b) => Some (slice buf a b)
  | None => None
  end.

(** [pattern.sub(repl, s)], the replacement computed from the match. *)
Fixpoint sub_loop (repl : mtch -> list N) (s : list N) (ms : list mtch)
  (p : nat) : list N :=
  match ms with
  | [] => skipn p s
  | m :: ms' => slice s p (m_start m) ++ repl m ++ sub_loop repl s ms' (m_end m)
  end.

Definition sub (r : regex) (repl : mtch -> list N) (s : list N) : list N :=
  sub_loop repl s (finditer r s) 0.

(** [m.group(0)] *)
Definition matched (s : list N) (m : mtch) : list N :=
  slice s (m_start m) (m_end m).

(** Derived forms *)
Definition chr (c : N) : regex := Cls (N.eqb c).
Definition plus (g : bool) (r : regex) : regex := Cat r (Star g r).
Definition opt (r : regex) : regex := Alt r Eps.
Fixpoint times (n : nat) (r : regex) : regex :=
  match n with
  | 0 => Eps
  | S n' => Cat r (times n' r)
  end.
Fixpoint lit (s : list N) : regex :=
  match s with
  | [] => Eps
  | c :: s' => Cat (chr c) (lit s')
  end.
Fixpoint seq (rs : list regex) : regex :=
  match rs with
  | [] => Eps
  | [r] => r
  | r :: rs' => Cat r (seq rs')
  end.

(** What a greedy star over one class computes: the longest run is
    tried first, then one character is given back at a time. *)
Fixpoint greedy_cls {A} (p : N -> bool) (k : st -> option A)
  (ps : nat) (rs : list N) (cs : list (nat * (nat * nat))) : option A :=
  match rs with
  | c :: t =>
      if p c then orelse (greedy_cls p k (S ps) t cs) (k (St ps rs cs))
      else k (St ps rs cs)
  | [] => k (St ps [] cs)
  end.

(** A lower bound on the length of any match. *)
Fixpoint min_len (r : regex) : nat :=
  match r with
  | Eps | Bol | Star _ _ => 0
  | Cls _ => 1
  | Cat r1 r2 => min_len r1 + min_len r2
  | Alt r1 r2 => Nat.min (min_len r1) (min_len r2)
  | Grp _ r1 => min_len r1
  end.

End Re.


(** ** [float(...)] on a decimal numeral, and the tolerance test *)

Module PyFloat.

Definition round_half_even (num den : Z) : Z :=
  let q := (num / den)%Z in
  let r := (num mod den)%Z in
  if (2 * r <? den)%Z then q
  else if (den <? 2 * r)%Z then (q + 1)%Z
  else if Z.even q then q else (q + 1)%Z.

(** The binary64 value nearest to [num / den] (ties to even), for
    [0 <= num] and [0 < den]: the exponent [e] of the quotient is found
    first, then the quotient is rounded to 53 bits (fewer for a
    subnormal result). *)
Definition of_ratio (num den : Z) : float :=
  if (num =? 0)%Z then 0%float
  else
    let e0 := (Z.log2 num - Z.log2 den)%Z in
    let e :=
      if (den * 2 ^ Z.max 0 e0 <=? num * 2 ^ Z.max 0 (- e0))%Z
      then e0 else (e0 - 1)%Z in
    let s := (Z.max e (-1022) - 52)%Z in
    let q := round_half_even (num * 2 ^ Z.max 0 (- s)) (den * 2 ^ Z.max 0 s) in
    Z.ldexp (PrimFloat.of_uint63 (Uint63.of_Z q)) s.

Definition is_digit (c : N) : bool := ((48 <=? c) && (c <=? 57))%N.

Fixpoint digits_value (acc : Z) (l : list N) : Z :=
  match l with
  | [] => acc
  | c :: l' => digits_value (10 * acc + Z.of_N (c - 48)) l'
  end.

Fixpoint take_digits (l : list N) : list N * list N :=
  match l with
  | c :: l' =>
      if is_digit c then let (d, r) := take_digits l' in (c :: d, r)
      else ([], l)
  | [] => ([], [])
  end.

(** [float(s)] for a numeral of the shape [[+-]?\d+(?:\.\d+)?], the only
    shape group 1 of [re_tf] can take; [None] stands for the
    [ValueError] of any other text. *)
Definition parse (s : list N) : option float :=
  let (neg, body) :=
    match s with
    | 43%N :: b => (false, b)
    | 45%N :: b => (true, b)
    | _ => (false, s)
    end in
  let (ip, r) := take_digits body in
  match ip with
  | [] => None
  | _ =>
      let mag :=
        match r with
        | [] => Some (of_ratio (digits_value 0 ip) 1)
        | 46%N :: r' =>
            let (fp, r'') := take_digits r' in
            match fp, r'' with
            | _ :: _, [] =>
                Some (of_ratio (digits_value 0 (ip ++ fp))
                               (10 ^ Z.of_nat (length fp)))
            | _, _ => None
            end
        | _ => None
        end in
      match mag with
      | Some x => Some (if neg then PrimFloat.opp x else x)
      | None => None
      end
  end.

End PyFloat.

(** ** watermark_remover.py *)

Module Watermark.
Import Re.

Record WatermarkRemover : Type := {
  target_size : float;
  tolerance : float
}.

(** [WatermarkRemover()] : [target_size = 108.9], [tolerance = 0.05]. *)
Definition watermark_remover : WatermarkRemover :=
  {| target_size := 0x1.b39999999999ap+6%float;
     tolerance := 0x1.999999999999ap-5%float |}.

(** [\s] and [\d] of a bytes pattern are the ASCII classes. *)
Definition is_ws (c : N) : bool :=
  ((c =? 32) || (c =? 9) || (c =? 10) || (c =? 13) || (c =? 12) || (c =? 11))%N.
Definition non_ws (c : N) : bool := negb (is_ws c).
Definition is_digit (c : N) : bool := ((48 <=? c) && (c <=? 57))%N.
Definition is_sign (c : N) : bool := ((c =? 43) || (c =? 45))%N.
Definition any (_ : N) : bool := true.
Definition not_nl (c : N) : bool := negb (c =? 10)%N.
Definition not_rparen (c : N) : bool := negb (c =? 41)%N.

(** [rb"/[^\s]+?\s+([+-]?\d+(?:\.\d+)?)\s+Tf"] *)
Definition re_tf : regex :=
  seq [ chr 47;
        plus false (Cls non_ws);
        plus true (Cls is_ws);
        Grp 1 (seq [ opt (Cls is_sign);
                     plus true (Cls is_digit);
                     opt (Cat (chr 46) (plus true (Cls is_digit))) ]);
        plus true (Cls is_ws);
        lit (txt "Tf") ].

(** [rb"\((?:\\.|[^\)])*\)\s*Tj"] *)
Definition re_tj : regex :=
  seq [ chr 40;
        Star true (Alt (Cat (chr 92) (Cls not_nl)) (Cls not_rparen));
        chr 41;
        Star true (Cls is_ws);
        lit (txt "Tj") ].

(** [rb"\[.*?\]\s*TJ"] with [re.S] *)
Definition re_TJ : regex :=
  seq [ chr 91;
        Star false (Cls any);
        chr 93;
        Star true (Cls is_ws);
        lit (txt "TJ") ].

(** [current_size is not None and
     abs(current_size - self.target_size) <= self.tolerance] *)
Definition size_matches (w : WatermarkRemover) (current_size : option float)
  : bool :=
  match current_size with
  | Some x =>
      PrimFloat.leb (PrimFloat.abs (PrimFloat.sub x (target_size w))) (tolerance w)
  | None => false
  end.

Definition blank (chunk : list N) : list N :=
  sub re_TJ (fun _ => txt "[] TJ") (sub re_tj (fun _ => txt "() Tj") chunk).

(** [float(m.group(1))], [None] when it raises. *)
Definition size_of (buf : list N) (m : mtch) : option float :=
  match group buf m 1 with
  | Some g => PyFloat.parse g
  | None => None
  end.

(** One iteration of the [for m in self.re_tf.finditer(buf)] loop on the
    state [(out, pos, current_size)]. *)
Definition scrub_step (w : WatermarkRemover) (buf : list N)
  (state : list N * nat * option float) (m : mtch)
  : list N * nat * option float :=
  let '(out, pos, _) := state in
  let out := out ++ slice buf pos (m_start m) in
  let out := out ++ slice buf (m_start m) (m_end m) in
  let current_size := size_of buf m in
  let pos := m_end m in
  let nxt := search re_tf buf pos in
  let chunk_end :=
    match nxt with
    | Some n => m_start n
    | None => length buf
    end in
  let chunk := slice buf pos chunk_end in
  let chunk := if size_matches w current_size then blank chunk else chunk in
  (out ++ chunk, chunk_end, current_size).

Definition scrub_stream (w : WatermarkRemover) (buf : list N) : list N :=
  let '(out, pos, current_size) :=
    fold_left (scrub_step w buf) (finditer re_tf buf) ([], 0, None) in
  if pos <? length buf then
    let tail := skipn pos buf in
    let tail := if size_matches w current_size then blank tail else tail in
    out ++ tail
  else out.

(** The segments of a buffer: the bytes before the first size-setting
    operator, then for each operator its own bytes, its operand and the
    chunk that runs to the next operator or to the end. *)
Record segment : Type := Segment {
  operator : list N;
  operand : option float;
  chunk : list N
}.

Definition segment_of (buf : list N) (m : mtch) : segment :=
  Segment (slice buf (m_start m) (m_end m))
          (size_of buf m)
          (slice buf (m_end m)
             match search re_tf buf (m_end m) with
             | Some n => m_start n
             | None => length buf
             end).

Definition prefix_of (buf : list N) : list N :=
  match search re_tf buf 0 with
  | Some m => slice buf 0 (m_start m)
  | None => buf
  end.

Definition segments (buf : list N) : list segment :=
  map (segment_of buf) (finditer re_tf buf).

(** What a segment contributes to the input, and to the output. *)
Definition keep_segment (sg : segment) : list N := operator sg ++ chunk sg.

Definition scrub_segment (w : WatermarkRemover) (sg : segment) : list N :=
  operator sg
  ++ (if size_matches w (operand sg) then blank (chunk sg) else chunk sg).

(** The bytes between [pos] and the first of the matches [ms]. *)
Definition gap_before (buf : list N) (pos : nat) (ms : list mtch) : list N :=
  match ms with
  | [] => []
  | m :: _ => slice buf pos (m_start m)
  end.

(** The start of the next size-setting operator at or after [p], the
    end of the buffer when there is none. *)
Definition next_start (buf : list N) (p : nat) : nat :=
  match search re_tf buf p with
  | Some n => m_start n
  | None => length buf
  end.

End Watermark.


(** ** Cells of a DataFrame, and Python's string methods *)

(** What a cell of an object column holds: a string, [None], or the
    float NaN (pandas' missing value). *)
Inductive cell : Type :=
| CNone
| CNaN
| CStr (s : text).

(** [str(x)] *)
Definition py_str (x : cell) : text :=
  match x with
  | CNone => txt "None"
  | CNaN => txt "nan"
  | CStr s => s
  end.

(** [pd.isna(x)] *)
Definition isna (x : cell) : bool :=
  match x with
  | CNone | CNaN => true
  | CStr _ => false
  end.

Definition of_option (o : option text) : cell :=
  match o with
  | Some s => CStr s
  | None => CNone
  end.

Module Str.

(** [str.isspace] of one code point: the characters [str.split()] and
    [str.strip()] treat as whitespace, and [\s] of a str pattern. *)
Definition is_space (c : N) : bool :=
  (((9 <=? c) && (c <=? 13)) || ((28 <=? c) && (c <=? 32))
   || (c =? 133) || (c =? 160) || (c =? 5760)
   || ((8192 <=? c) && (c <=? 8202))
   || (c =? 8232) || (c =? 8233) || (c =? 8239) || (c =? 8287)
   || (c =? 12288))%N.

Definition non_space (c : N) : bool := negb (is_space c).

(** A word: a non-empty run of characters none of which is whitespace. *)
Definition is_word (w : text) : Prop := w <> [] /\ forallb non_space w = true.

(** ASCII decimal digits; [\d] and [str.isdigit] also accept the decimal
    digits of other scripts, which this model leaves out. *)
Definition is_decimal (c : N) : bool := ((48 <=? c) && (c <=? 57))%N.

(** [s.replace(c, '')] for a one-character [c] *)
Definition remove_char (c : N) (s : text) : text :=
  filter (fun x => negb (x =? c)%N) s.

(** [s.split()]: the maximal runs of non-whitespace characters; [cur]
    is the run being read. *)
Fixpoint split_ws (cur : text) (s : text) : list text :=
  match s with
  | [] => match cur with [] => [] | _ => [cur] end
  | c :: s' =>
      if is_space c then
        match cur with
        | [] => split_ws [] s'
        | _ => cur :: split_ws [] s'
        end
      else split_ws (cur ++ [c]) s'
  end.

Definition split (s : text) : list text := split_ws [] s.

(** [s.split(sep)] for a one-character [sep]: empty fields are kept. *)
Fixpoint split_on_aux (sep : N) (cur : text) (s : text) : list text :=
  match s with
  | [] => [cur]
  | c :: s' =>
      if (c =? sep)%N then cur :: split_on_aux sep [] s'
      else split_on_aux sep (cur ++ [c]) s'
  end.

Definition split_on (sep : N) (s : text) : list text := split_on_aux sep [] s.

(** [sep.join(parts)] *)
Fixpoint join (sep : text) (parts : list text) : text :=
  match parts with
  | [] => []
  | [p] => p
  | p :: ps => p ++ sep ++ join sep ps
  end.

Fixpoint lstrip (s : text) : text :=
  match s with
  | c :: s' => if is_space c then lstrip s' else s
  | [] => []
  end.

Definition rstrip (s : text) : text := rev (lstrip (rev s)).

(** [s.strip()] *)
Definition strip (s : text) : text := rstrip (lstrip s).

(** [s.isdigit()] *)
Definition isdigit (s : text) : bool :=
  match s with
  | [] => false
  | _ => forallb is_decimal s
  end.

(** [needle in s] *)
Fixpoint starts_with (needle s : text) : bool :=
  match needle, s with
  | [], _ => true
  | a :: n', b :: s' => (a =? b)%N && starts_with n' s'
  | _ :: _, [] => false
  end.

Fixpoint contains (needle s : text) : bool :=
  starts_with needle s ||
  match s with
  | [] => false
  | _ :: s' => contains needle s'
  end.

End Str.

(** ** The ICU case mappings under [Locale("TR")]

    [UnicodeString.toUpper], [toLower] and [toTitle] belong to the ICU
    library.  The mappings below cover the Basic Latin letters and the
    letters of the Turkish alphabet, with the dotted and dotless I folded
    the Turkish way; every other code point is left as it is.  [toTitle]
    cuts the text into words the way the default word rules do for
    letters, digits, the underscore and the characters that may stand
    between two letters or two digits, puts the first letter or digit of
    each word in title case and the rest of the word in lower case. *)

Module Icu.

Definition lower_cp (c : N) : N :=
  (if c =? 73 then 305                                  (* I -> dotless i *)
   else if c =? 304 then 105                            (* dotted I -> i *)
   else if (65 <=? c) && (c <=? 90) then c + 32
   else if (c =? 199) || (c =? 214) || (c =? 220)
           || (c =? 194) || (c =? 206) || (c =? 219) then c + 32
   else if (c =? 286) || (c =? 350) then c + 1
   else c)%N.

Definition upper_cp (c : N) : N :=
  (if c =? 105 then 304                                 (* i -> dotted I *)
   else if c =? 305 then 73                             (* dotless i -> I *)
   else if (97 <=? c) && (c <=? 122) then c - 32
   else if (c =? 231) || (c =? 246) || (c =? 252)
           || (c =? 226) || (c =? 238) || (c =? 251) then c - 32
   else if (c =? 287) || (c =? 351) then c - 1
   else c)%N.

Definition is_letter (c : N) : bool :=
  negb ((lower_cp c =? c) && (upper_cp c =? c))%N.
Definition is_digit (c : N) : bool := ((48 <=? c) && (c <=? 57))%N.
Definition is_word (c : N) : bool := (is_letter c || is_digit c || (c =? 95)%N).
(** [:], [.], ['] and the middle dot may stand between two letters;
    [.], ['], [,] and [;] between two digits. *)
Definition mid_letter (c : N) : bool :=
  ((c =? 58) || (c =? 46) || (c =? 39) || (c =? 183))%N.
Definition mid_num (c : N) : bool :=
  ((c =? 46) || (c =? 39) || (c =? 44) || (c =? 59))%N.

Definition next_is (p : N -> bool) (s : text) : bool :=
  match s with
  | c :: _ => p c
  | [] => false
  end.

(** [prev]: the character before, when it belongs to the current word;
    [titled]: the word already has its title-case position. *)
Fixpoint title_go (prev : option N) (titled : bool) (s : text) : text :=
  match s with
  | [] => []
  | c :: s' =>
      let joins :=
        match prev with
        | Some p =>
            is_word c
            || (mid_letter c && is_letter p && next_is is_letter s')
            || (mid_num c && is_digit p && next_is is_digit s')
        | None => false
        end in
      if joins || is_word c then
        let titled0 := if joins then titled else false in
        if titled0 then lower_cp c :: title_go (Some c) true s'
        else if is_letter c || is_digit c then
          upper_cp c :: title_go (Some c) true s'
        else c :: title_go (Some c) false s'
      else c :: title_go None false s'
  end.

Definition toUpper (s : text) : text := map upper_cp s.
Definition toLower (s : text) : text := map lower_cp s.
Definition toTitle (s : text) : text := title_go None false s.

End Icu.

(** ** text_processor.py *)

Module TextProcessor.

(** [clean(value)] *)
Definition clean (value : cell) : option text :=
  match value with
  | CNone => None
  | _ =>
      let value := Str.remove_char 10 (py_str value) in
      let parts := Str.split value in
      if 0 <? length parts
      then Some (Str.strip (Str.join (txt " ") (Str.split value)))
      else None
  end.

Definition upper (t : cell) : option text :=
  match t with
  | CNone => None
  | _ => Some (Icu.toUpper (py_str t))
  end.

Definition lower (t : cell) : option text :=
  match t with
  | CNone => None
  | _ => Some (Icu.toLower (py_str t))
  end.

Definition capitalize (t : cell) : option text :=
  match t with
  | CNone => None
  | _ => Some (Icu.toTitle (py_str t))
  end.

Definition clean_text (s : text) : option text := clean (CStr s).

(** [values = [self.clean(part) for part in str(value).split('/')]] *)
Definition extract_ada_parsel (value : text) : option text * option text :=
  let values := map clean_text (Str.split_on 47 value) in
  match values with
  | a :: b :: _ => (a, b)
  | _ => (None, None)
  end.

(** [re.sub(r"(\d+)\.(\S)", r"\1. \2", kat)] *)
Definition re_kat : Re.regex :=
  Re.seq [ Re.Grp 1 (Re.plus true (Re.Cls Str.is_decimal));
           Re.chr 46;
           Re.Grp 2 (Re.Cls (fun c => negb (Str.is_space c))) ].

Definition group_or_empty (s : text) (m : Re.mtch) (i : nat) : text :=
  match Re.group s m i with
  | Some g => g
  | None => []
  end.

Definition fix_kat (kat : text) : text :=
  let kat :=
    Re.sub re_kat
      (fun m => group_or_empty kat m 1 ++ txt ". " ++ group_or_empty kat m 2)
      kat in
  Str.join (txt " ")
    (map (fun word => py_str (of_option (capitalize (CStr word))))
         (Str.split kat)).

Definition extract_blok_kat_giris_bbno (value : text)
  : option text * option text * option text * option text :=
  let parts := map clean_text (Str.split_on 47 value) in
  match parts with
  | blok :: kat :: giris :: bbno :: _ =>
      let kat :=
        match kat with
        | Some k => if negb (Str.isdigit k) then Some (fix_kat k) else Some k
        | None => None
        end in
      (blok, kat, giris, bbno)
  | _ => (None, None, None, None)
  end.

Definition extract_il_ilce (value : text) : option text * option text :=
  let parts := map clean_text (Str.split_on 47 value) in
  let parts := map (fun p => capitalize (of_option p)) parts in
  match parts with
  | a :: b :: _ => (a, b)
  | _ => (None, None)
  end.

End TextProcessor.


(** ** DataFrames

    A frame is its number of columns and its rows in index order; every
    row of a frame has as many cells as the frame has columns
    ([wf_frame]). *)

Record DataFrame : Type := Frame {
  ncols : nat;
  rows : list (list cell)
}.

Definition wf_frame (df : DataFrame) : Prop :=
  Forall (fun r => length r = ncols df) (rows df).

(** [pd.DataFrame()] *)
Definition empty_frame : DataFrame := Frame 0 [].

(** [df.empty] *)
Definition frame_empty (df : DataFrame) : bool :=
  (ncols df =? 0) || (length (rows df) =? 0).

(** [df.iloc[r, c]] *)
Definition iloc (df : DataFrame) (r c : nat) : result cell :=
  match nth_error (rows df) r with
  | Some row =>
      match nth_error row c with
      | Some x => Ok x
      | None => Raise IndexError
      end
  | None => Raise IndexError
  end.

(** ** table_extractor.py *)

Module TableExtractor.
Import TextProcessor.

(** [str(p) + ' ' + str(r) if str(r).strip() != '' else str(p)] *)
Definition merge_cell (p r : cell) : cell :=
  if negb (text_eqb (Str.strip (py_str r)) [])
  then CStr (py_str p ++ txt " " ++ py_str r)
  else CStr (py_str p).

(** The body of the loop over [df.iterrows()], on [fixed_rows]. *)
Definition fix_step (fixed_rows : list (list cell)) (row : list cell)
  : result (list (list cell)) :=
  match row with
  | [] => Raise KeyError                           (* row[0] *)
  | c0 :: _ =>
      match clean c0 with
      | None =>
          match fixed_rows with
          | [] => Raise IndexError                 (* fixed_rows[-1] *)
          | _ :: _ =>
              let prev_row := last fixed_rows [] in
              let merged := map (fun pr => merge_cell (fst pr) (snd pr))
                                (combine prev_row row) in
              Ok (removelast fixed_rows ++ [merged])
          end
      | Some _ => Ok (fixed_rows ++ [row])
      end
  end.

Fixpoint fix_loop (fixed_rows : list (list cell)) (todo : list (list cell))
  : result (list (list cell)) :=
  match todo with
  | [] => Ok fixed_rows
  | row :: todo' =>
      fixed_rows' <- fix_step fixed_rows row ;;
      fix_loop fixed_rows' todo'
  end.

(** A row that starts an output row: it has a first cell, and that cell
    does not normalise to empty. *)
Definition starts_row (row : list cell) : Prop :=
  match row with
  | c :: _ => clean c <> None
  | [] => False
  end.

Definition fix_continuation (df : DataFrame) : result DataFrame :=
  fixed_rows <- fix_loop [] (rows df) ;;
  Ok (Frame (ncols df) fixed_rows).

End TableExtractor.

(** ** data_extractor.py *)

Module DataExtractor.
Import TextProcessor.

Record GeneralInfo : Type := {
  tasinmaz_kimlik_no : Z;
  il : option text;
  ilce : option text;
  kurum_adi : option text;
  mahalle : option text;
  ada : option text;
  parsel : option text;
  bagimsiz_bolum_nitelik : option text;
  blok : option text;
  kat : option text;
  giris : option text;
  bbno : option text
}.

(** The digits of [int(s)], where one underscore may stand between two
    digits. *)
Fixpoint int_digits (acc : Z) (after_digit : bool) (s : text) : result Z :=
  match s with
  | [] => if after_digit then Ok acc else Raise ValueError
  | c :: s' =>
      if Str.is_decimal c
      then int_digits (10 * acc + Z.of_N (c - 48)) true s'
      else if (c =? 95)%N && after_digit then int_digits acc false s'
      else Raise ValueError
  end.

(** [int(s)] for a string in base ten (ASCII digits). *)
Definition py_int (s : text) : result Z :=
  match Str.strip s with
  | 45%N :: b => z <- int_digits 0 false b ;; Ok (- z)%Z
  | 43%N :: b => int_digits 0 false b
  | b => int_digits 0 false b
  end.

(** [extract_general_info(dfs)]; [None] is the empty dict [{}]. *)
Definition extract_general_info (dfs : list DataFrame) : option GeneralInfo :=
  match dfs with
  | col_1 :: col_2 :: _ =>
      let attempt : result GeneralInfo :=
        c11 <- iloc col_1 1 1 ;;
        tasinmaz_kimlik_no <- py_int (py_str c11) ;;
        c21 <- iloc col_1 2 1 ;;
        let '(il, ilce) := extract_il_ilce (py_str c21) in
        d51 <- iloc col_2 5 1 ;;
        let '(blok, kat, giris, bbno) :=
          extract_blok_kat_giris_bbno (py_str d51) in
        c31 <- iloc col_1 3 1 ;;
        let kurum_adi := clean (CStr (py_str c31)) in
        c41 <- iloc col_1 4 1 ;;
        let mahalle := capitalize (CStr (py_str c41)) in
        d01 <- iloc col_2 0 1 ;;
        let '(ada, parsel) := extract_ada_parsel (py_str d01) in
        d21 <- iloc col_2 2 1 ;;
        let bagimsiz_bolum_nitelik :=
          capitalize (of_option (clean (CStr (py_str d21)))) in
        Ok {| tasinmaz_kimlik_no := tasinmaz_kimlik_no;
              il := il; ilce := ilce; kurum_adi := kurum_adi;
              mahalle := mahalle; ada := ada; parsel := parsel;
              bagimsiz_bolum_nitelik := bagimsiz_bolum_nitelik;
              blok := blok; kat := kat; giris := giris; bbno := bbno |} in
      match attempt with
      | Ok info => Some info
      | Raise _ => None
      end
  | _ => None
  end.

(** [df.iloc[0, 0] == ''] *)
Definition is_empty_string (x : cell) : bool :=
  match x with
  | CStr [] => true
  | _ => false
  end.

(** [df.drop(df.index[0]).reset_index(drop=True)] *)
Definition drop_first (df : DataFrame) : result DataFrame :=
  match rows df with
  | [] => Raise IndexError
  | _ :: rs => Ok (Frame (ncols df) rs)
  end.

(** [extract_mulkiyete_ait_serh_beyan(dfs)]; the six column names it
    sets are, in order, s/b/i, aciklama, kisitli_malik_ad_soyad,
    malik/lehtar, tesis_kurum/tarih/yevmiye, tarkin_sebebi/yevmiye. *)
Definition extract_mulkiyete_ait_serh_beyan (dfs : list DataFrame)
  : result DataFrame :=
  let dfs_ := filter (fun df => ncols df =? 6) dfs in
  match dfs_ with
  | [] => Ok empty_frame
  | _ :: _ =>
      let df := Frame 6 (concat (map rows dfs_)) in
      c00 <- iloc df 0 0 ;;
      df <- (if isna c00 || is_empty_string c00 then drop_first df else Ok df) ;;
      df <- TableExtractor.fix_continuation df ;;
      drop_first df
  end.

Definition date_token : Re.regex :=
  Re.Alt
    (Re.seq [ Re.times 2 (Re.Cls Str.is_decimal); Re.chr 47;
              Re.times 2 (Re.Cls Str.is_decimal); Re.chr 47;
              Re.times 4 (Re.Cls Str.is_decimal) ])
    (Re.lit (txt "BİLA")).

Definition is_hex (c : N) : bool :=
  (((65 <=? c) && (c <=? 70)) || ((97 <=? c) && (c <=? 102))
   || ((48 <=? c) && (c <=? 57)))%N.

Definition fileno_token : Re.regex :=
  let d := Re.plus true (Re.Cls Str.is_decimal) in
  Re.Alt (Re.seq [d; Re.chr 47; d])
    (Re.Alt (Re.seq [d; Re.chr 45; d])
       (Re.Alt d (Re.times 32 (Re.Cls is_hex)))).

(** [(\d{2}\/\d{2}\/\d{4}|BİLA) TARİH (\d+\/\d+|\d+-\d+|\d+|[A-Fa-f0-9]{32})] *)
Definition r_tarih_fileno : Re.regex :=
  Re.seq [ Re.Grp 1 date_token; Re.lit (txt " TARİH "); Re.Grp 2 fileno_token ].

(** [: (.*(\d{2}\/\d{2}\/\d{4}|BİLA) TARİH (...))] *)
Definition r_aciklama_relevant : Re.regex :=
  Re.seq [ Re.lit (txt ": ");
           Re.Grp 1 (Re.seq [ Re.Star true (Re.Cls (fun c => negb (c =? 10)%N));
                              Re.Grp 2 date_token; Re.lit (txt " TARİH ");
                              Re.Grp 3 fileno_token ]) ].

Definition not_colon_paren (c : N) : bool := negb ((c =? 58) || (c =? 40))%N.

(** [^([^:(]+)\s*:] *)
Definition r_haciz_type : Re.regex :=
  Re.seq [ Re.Bol;
           Re.Grp 1 (Re.plus true (Re.Cls not_colon_paren));
           Re.Star true (Re.Cls Str.is_space);
           Re.chr 58 ].

(** The longest prefix of a text that holds neither a colon nor an
    opening parenthesis, and what follows it. *)
Fixpoint leading_run (s : text) : text * text :=
  match s with
  | c :: s' =>
      if not_colon_paren c
      then let (r, t) := leading_run s' in (c :: r, t)
      else ([], s)
  | [] => ([], [])
  end.

(** The characters before the first colon of a text. *)
Fixpoint before_first_colon (s : text) : text :=
  match s with
  | c :: s' => if (c =? 58)%N then [] else c :: before_first_colon s'
  | [] => []
  end.

(** One element of [series.str.extract(pattern)], column [i - 1]: group
    [i] of the first match, NaN without a match or on a missing value. *)
Definition str_extract (r : Re.regex) (i : nat) (x : cell) : cell :=
  match x with
  | CStr s =>
      match Re.search r s 0 with
      | Some m =>
          match Re.group s m i with
          | Some g => CStr g
          | None => CNaN
          end
      | None => CNaN
      end
  | _ => CNaN
  end.

(** [.fillna('')] *)
Definition fillna_empty (x : cell) : cell := if isna x then CStr [] else x.

Definition notna (x : cell) : bool := negb (isna x).

(** The [haciz_type] series of [extract_aciklama]. *)
Definition haciz_type_of (aciklama : cell) : cell :=
  of_option (capitalize (of_option
    (clean (fillna_empty (str_extract r_haciz_type 1 aciklama))))).

Record Aciklama : Type := {
  haciz_type : cell;
  aciklama_ext : cell;
  aciklama_date : cell;
  aciklama_fileno : cell
}.

(** The four fields of one row inside the mask, and outside it. *)
Definition fields_of (x : cell) : Aciklama :=
  let h := haciz_type_of x in
  if notna h then
    {| haciz_type := h;
       aciklama_ext := str_extract r_aciklama_relevant 1 x;
       aciklama_date := str_extract r_tarih_fileno 1 x;
       aciklama_fileno := str_extract r_tarih_fileno 2 x |}
  else
    {| haciz_type := h; aciklama_ext := CNaN;
       aciklama_date := CNaN; aciklama_fileno := CNaN |}.

(** [extract_aciklama(df)] on the column [df["aciklama"]].  With a row
    in the mask the three extracted columns are joined to [haciz_type]
    on the index, rows outside the mask getting NaN; with an empty mask
    the concatenation has three columns and naming four raises
    [ValueError]. *)
Definition extract_aciklama (aciklama : list cell) : result (list Aciklama) :=
  let haciz_type := map haciz_type_of aciklama in
  let mask := map notna haciz_type in
  if existsb (fun b => b) mask then
    Ok (map fields_of aciklama)
  else Raise ValueError.

(** The continuations of [r_haciz_type]: after the whole pattern, after
    the whitespace, and after the group. *)
Definition haciz_k0 (s : Re.st) : option Re.mtch :=
  Some (Re.Mtch 0 (Re.pos s) (Re.caps s)).
Definition haciz_kc (s : Re.st) : option Re.mtch :=
  Re.run (Re.chr 58) s haciz_k0.
Definition haciz_kg (s : Re.st) : option Re.mtch :=
  Re.run (Re.Cat (Re.Star true (Re.Cls Str.is_space)) (Re.chr 58))
    (Re.St (Re.pos s) (Re.rest s) ((1, (0, Re.pos s)) :: Re.caps s)) haciz_k0.

Definition no_colon_after_run (rs : text) : Prop :=
  match snd (leading_run rs) with
  | 58%N :: _ => False
  | _ => True
  end.

End DataExtractor.


(** ** pdf_processor.py and app.py *)

Module Pipeline.
Import TextProcessor DataExtractor.

(** A document as the pipeline sees it: its file name and the tables
    [table_extractor.extract_tables] returns for it once the watermark
    has been removed (or for the original file when that failed); the
    list is empty when the extraction itself failed. *)
Record Document : Type := {
  doc_name : text;
  doc_tables : list DataFrame
}.

(** One row of [df_final]. *)
Record Record_ : Type := {
  source_file : text;
  masb : list cell;
  aciklama : Aciklama;
  tarih : cell;
  yevmiye : cell;
  icra_dairesi : cell;
  general : GeneralInfo
}.

Inductive status : Type := Processed | Failed.

Inductive event : Type :=
| EvQueued
| EvStart (total : nat)
| EvProgress (current total : nat) (st : status) (file : text)
| EvComplete (processed failures : nat)
| EvError (message : text)
| EvOutputReady
| EvFinished.

Inductive output_format : Type :=
| Excel
| Csv
| OtherFormat.

Section Processor.

(** [extract_date_yevmiye] and [extract_icra_dairesi] on the column
    they read: pattern extraction, [pd.to_datetime] and the rewriting of
    office names.  Either may raise; each returns one value per row. *)
Variable extract_date_yevmiye : list cell -> result (list (cell * cell)).
Variable extract_icra_dairesi : list cell -> result (list cell).

(** [df.map(text_processor.clean)] then [df.map(text_processor.upper)] *)
Definition clean_upper (x : cell) : cell :=
  of_option (upper (of_option (clean x))).

Definition column (i : nat) (rs : list (list cell)) : list cell :=
  map (fun r => nth i r CNaN) rs.

Definition assemble (name : text) (info : GeneralInfo)
  (rs : list (list cell)) (a : list Aciklama) (d : list (cell * cell))
  (i : list cell) : list Record_ :=
  map (fun x =>
         match x with
         | (r, a1, d1, i1) =>
             {| source_file := name; masb := r; aciklama := a1;
                tarih := fst d1; yevmiye := snd d1; icra_dairesi := i1;
                general := info |}
         end)
      (combine (combine (combine rs a) d) i).

(** The body of the [try] of [process_single_pdf]. *)
Definition process_single_pdf_body (d : Document)
  : result (option (list Record_)) :=
  let file_dfs := doc_tables d in
  match file_dfs with
  | [] => Ok None
  | _ :: _ =>
      match extract_general_info file_dfs with
      | None => Ok None
      | Some general_info =>
          df_masb <- extract_mulkiyete_ait_serh_beyan file_dfs ;;
          if frame_empty df_masb then Ok None
          else
            let rs := map (map clean_upper) (rows df_masb) in
            df_aciklama <- extract_aciklama (column 1 rs) ;;
            df_date_yevmiye <- extract_date_yevmiye (column 4 rs) ;;
            df_icra_dairesi <-
              extract_icra_dairesi (map aciklama_ext df_aciklama) ;;
            Ok (Some (assemble (doc_name d) general_info rs df_aciklama
                        df_date_yevmiye df_icra_dairesi))
      end
  end.

(** [process_single_pdf(pdf_path)]: [None] on any failure. *)
Definition process_single_pdf (d : Document) : option (list Record_) :=
  match process_single_pdf_body d with
  | Ok r => r
  | Raise _ => None
  end.

(** The records a document contributes: those of a frame that is
    neither [None] nor empty. *)
Definition usable (d : Document) : option (list Record_) :=
  match process_single_pdf d with
  | Some ((_ :: _) as recs) => Some recs
  | _ => None
  end.

Definition batch_frames (pdfs : list Document) : list (list Record_) :=
  flat_map (fun d => match usable d with Some recs => [recs] | None => [] end)
           pdfs.

Definition batch_failures (pdfs : list Document) : nat :=
  length (filter (fun d => match usable d with Some _ => false | None => true end)
                 pdfs).

Definition emit (callback : bool) (e : event) : list event :=
  if callback then [e] else [].

Record LoopState : Type := {
  frames : list (list Record_);
  failures : nat;
  emitted : list event
}.

(** One iteration of the loop of [process_multiple_pdfs]; [index]
    counts from 1. *)
Definition loop_step (callback : bool) (total : nat) (s : LoopState)
  (index : nat) (pdf : Document) : LoopState :=
  let df := process_single_pdf pdf in
  let '(frames1, failures1, st) :=
    match df with
    | Some ((_ :: _) as recs) => (frames s ++ [recs], failures s, Processed)
    | _ => (frames s, S (failures s), Failed)
    end in
  {| frames := frames1; failures := failures1;
     emitted := emitted s
                ++ emit callback (EvProgress index total st (doc_name pdf)) |}.

Fixpoint loop (callback : bool) (total : nat) (s : LoopState) (index : nat)
  (pdfs : list Document) : LoopState :=
  match pdfs with
  | [] => s
  | pdf :: pdfs' =>
      loop callback total (loop_step callback total s index pdf) (S index) pdfs'
  end.

(** [process_multiple_pdfs]: the combined frame, the failure count and
    the events passed to the callback. *)
Definition process_multiple_pdfs (callback : bool) (pdf_paths : list Document)
  : list Record_ * nat * list event :=
  let total := length pdf_paths in
  let s0 := {| frames := []; failures := 0;
               emitted := emit callback (EvStart total) |} in
  let s := loop callback total s0 1 pdf_paths in
  match frames s with
  | [] =>
      ([], failures s,
       emitted s ++ emit callback (EvError (txt "No dataframes produced from any PDF")))
  | _ :: _ =>
      (concat (frames s), failures s,
       emitted s ++ emit callback (EvComplete (length (frames s)) (failures s)))
  end.

(** [process_pdf_files]: whether it reports success, its message, and the
    events passed to the callback.  [write_ok] is the outcome of writing
    the output file in [generate_excel] or [generate_csv].  A message
    that embeds a count or a name is given by its fixed part. *)
Definition process_pdf_files (pdf_files : list Document) (fmt : output_format)
  (write_ok : bool) (callback : bool) : bool * text * list event :=
  let '(df, _, ev) := process_multiple_pdfs callback pdf_files in
  match df with
  | [] =>
      (false, txt "No data extracted from PDFs",
       ev ++ emit callback (EvError (txt "No data extracted from PDFs")))
  | _ :: _ =>
      match fmt with
      | OtherFormat =>
          (false, txt "Unsupported output format",
           ev ++ emit callback (EvError (txt "Unsupported output format")))
      | _ =>
          if write_ok then
            (true, txt "Successfully processed", ev ++ emit callback EvOutputReady)
          else
            (false, txt "Failed to generate output file",
             ev ++ emit callback (EvError (txt "Failed to generate output file")))
      end
  end.

(** The job registry entry of [app.py]. *)
Inductive job_status : Type :=
| Queued
| Processing
| Finalizing
| Completed
| Errored.

Record Job : Type := {
  job_state : job_status;
  job_processed : nat;
  job_error : option text;
  queue : list event
}.

(** [create_job] *)
Definition create_job : Job :=
  {| job_state := Queued; job_processed := 0; job_error := None; queue := [] |}.

(** [emit_job_event]: update the metadata, then [job["queue"].put(event)]. *)
Definition emit_job_event (job : Job) (e : event) : Job :=
  let '(st, processed, err) :=
    match e with
    | EvProgress current _ _ _ => (Processing, current, job_error job)
    | EvComplete _ _ => (Finalizing, job_processed job, job_error job)
    | EvError message => (Errored, job_processed job, Some message)
    | EvOutputReady | EvFinished => (Completed, job_processed job, job_error job)
    | _ => (job_state job, job_processed job, job_error job)
    end in
  {| job_state := st; job_processed := processed; job_error := err;
     queue := queue job ++ [e] |}.

(** [process_job]: the worker of one job. *)
Definition process_job (job : Job) (pdf_paths : list Document)
  (fmt : output_format) (write_ok : bool) : Job :=
  let '(success, message, ev) := process_pdf_files pdf_paths fmt write_ok true in
  let job := fold_left emit_job_event ev job in
  if success then
    let job := {| job_state := Completed; job_processed := job_processed job;
                  job_error := job_error job; queue := queue job |} in
    emit_job_event job EvFinished
  else emit_job_event job (EvError message).

(** [api_process]: the job is created, the queued event is emitted and
    the worker runs. *)
Definition run_job (pdf_paths : list Document) (fmt : output_format)
  (write_ok : bool) : Job :=
  process_job (emit_job_event create_job EvQueued) pdf_paths fmt write_ok.

End Processor.

(** What the two extractors return on a column none of whose cells
    matches their patterns: no date and no journal number, no office. *)
Definition date_yevmiye_absent (col : list cell) : result (list (cell * cell)) :=
  Ok (map (fun _ => (CNaN, CNaN)) col).
Definition icra_dairesi_absent (col : list cell) : result (list cell) :=
  Ok (map (fun _ => CNone) col).

(** The ways a single document fails. *)
Definition per_document_failure (d : Document) : Prop :=
  length (doc_tables d) < 2
  \/ extract_general_info (doc_tables d) = None
  \/ (exists col_1 col_2 others c e,
        doc_tables d = col_1 :: col_2 :: others
        /\ iloc col_1 1 1 = Ok c /\ py_int (py_str c) = Raise e)
  \/ filter (fun df => ncols df =? 6) (doc_tables d) = []
  \/ (exists df, extract_mulkiyete_ait_serh_beyan (doc_tables d) = Ok df
                 /\ frame_empty df = true)
  \/ (exists e, extract_mulkiyete_ait_serh_beyan (doc_tables d) = Raise e).

Definition terminal (e : event) : bool :=
  match e with
  | EvFinished | EvError _ => true
  | _ => false
  end.

Definition progress_only (evs : list event) : Prop :=
  Forall (fun e => match e with EvProgress _ _ _ _ => True | _ => False end) evs.

(** The shape of the queue of a job: events that are not terminal, then
    one finished event or two or three error events (three when
    [all_failed]); [event_stream] stops after the first of them. *)
Definition queue_shape (q : list event) (all_failed : Prop)
  (stream : list event) : Prop :=
  exists body tail,
    q = body ++ tail
    /\ Forall (fun e => match e with EvFinished | EvError _ => False | _ => True end)
              body
    /\ (tail = [EvFinished]
        \/ (exists a b, tail = [EvError a; EvError b])
        \/ (exists a b c, tail = [EvError a; EvError b; EvError c]))
    /\ stream = body ++ firstn 1 tail
    /\ (all_failed -> exists a b c, tail = [EvError a; EvError b; EvError c]).

(** What [event_stream] yields from a queue: every event up to and
    including the first finished or error event. *)
Fixpoint event_stream (q : list event) : list event :=
  match q with
  | [] => []
  | e :: q' => if terminal e then [e] else e :: event_stream q'
  end.

End Pipeline.


(** ** Sample documents *)

Module Sample.
Import Pipeline.

Definition s (x : string) : cell := CStr (txt x).

(** A cell holding the empty string. *)
Definition e : cell := CStr [].

(** The first header table: identity number, province/district,
    institution, neighbourhood, each in the second column. *)
Definition header_1 (kimlik : string) : DataFrame :=
  Frame 2 [ [s "Zemin Tipi"; s "KatIrtifaki"];
            [s "Tasinmaz Kimlik No"; s kimlik];
            [s "Il/Ilce"; s "ANKARA/CANKAYA"];
            [s "Kurum Adi"; s "Cankaya  TM"];
            [s "Mahalle/Koy Adi"; s "KIZILAY MAH" ] ].

Definition header_2 : DataFrame :=
  Frame 2 [ [s "Ada/Parsel"; s "1024/7"];
            [s "AT Yuzolcum"; s "250"];
            [s "Bagimsiz Bolum Nitelik"; s "MESKEN"];
            [s "Bagimsiz Bolum Brut"; e];
            [s "Bagimsiz Bolum Net"; e];
            [s "Blok/Kat/Giris/BBNo"; s "A/2.KAT/1/12"] ].

Definition restrictions : DataFrame :=
  Frame 6 [ [e; s "MULKIYETE AIT SERH BEYAN"; e; e; e; e];
            [s "S/B/I"; s "Aciklama"; s "Kisitli Malik"; s "Malik/Lehtar";
             s "Tesis Kurum Tarih-Yevmiye"; s "Terkin Sebebi"];
            [s "Serh"; s "haciz: Ankara 1. icra dairesinin 01/01/2020 tarih 123/45";
             e; e; s "Cankaya - 02-01-2020 10:00 - 77"; e];
            [e; s "sayili yazisi"; e; e; e; e];
            [s "Beyan"; s "yonetim plani"; e; e; s "Cankaya - 03-01-2020 - 80";
             e] ].

Definition good : Document :=
  {| doc_name := txt "tapu1.pdf";
     doc_tables := [header_1 "12345"; header_2; restrictions] |}.

(** A document whose identity number is not an integer. *)
Definition bad_identity : Document :=
  {| doc_name := txt "tapu2.pdf";
     doc_tables := [header_1 "12A45"; header_2; restrictions] |}.

(** A document from which no table could be extracted. *)
Definition no_tables : Document :=
  {| doc_name := txt "tapu3.pdf"; doc_tables := [] |}.

End Sample.

(** ** The rest of watermark_remover.py: the loop over content streams *)

Module WatermarkDriver.
Import Watermark.





End WatermarkDriver.

(** ** More of table_extractor.py and data_extractor.py *)

Module More.
Import TextProcessor.

(** The rows that start an output row of [fix_continuation], as a test. *)
Definition starts_rowb (row : list cell) : bool :=
  match row with
  | c :: _ => match clean c with Some _ => true | None => false end
  | [] => false
  end.

(** [s.split(needle)[0]]: the text before the first occurrence of
    [needle], the whole text without one. *)
Fixpoint before_first (needle s : text) : text :=
  if Str.starts_with needle s then []
  else match s with
       | [] => []
       | c :: s' => c :: before_first needle s'
       end.

(** [get_icra_dairesi(value)] *)
Definition get_icra_dairesi (value : cell) : option text :=
  if negb (isna value) && Str.contains (txt "NİN") (py_str value)
  then Some (Str.strip (before_first (txt "NİN") (py_str value)))
  else None.

End More.

(** ** More of pdf_processor.py and app.py *)

Module App.
Import Pipeline.

(** [c.lower()] on the Basic Latin letters; no other character has a
    lower-case form made of the letters of [pdf]. *)
Definition ascii_lower (c : N) : N :=
  if ((65 <=? c) && (c <=? 90))%N then (c + 32)%N else c.

(** [s.rsplit(sep, 1)[1]] when [sep] occurs in [s]: the text after its
    last occurrence. *)
Fixpoint after_last (sep : N) (s : text) : text :=
  match s with
  | [] => []
  | c :: s' =>
      if existsb (N.eqb sep) s' then after_last sep s'
      else if (c =? sep)%N then s' else s
  end.

(** [allowed_file(filename)] with [ALLOWED_EXTENSIONS = {'pdf'}] *)
Definition allowed_file (filename : text) : bool :=
  existsb (N.eqb 46) filename
  && text_eqb (map ascii_lower (after_last 46 filename)) (txt "pdf").

(** The order of the statuses of a job; completed and error are final. *)
Definition status_rank (s : job_status) : nat :=
  match s with
  | Queued => 0
  | Processing => 1
  | Finalizing => 2
  | Completed => 3
  | Errored => 3
  end.

Definition status_eqb (a b : job_status) : bool :=
  match a, b with
  | Queued, Queued | Processing, Processing | Finalizing, Finalizing
  | Completed, Completed | Errored, Errored => true
  | _, _ => false
  end.

(** A status stays, or moves forward from a status that is not final. *)
Definition forward (a b : job_status) : bool :=
  status_eqb a b || (status_rank a <? status_rank b).

(** The statuses a job goes through while the events [evs] are emitted. *)
Fixpoint statuses_along (job : Job) (evs : list event) : list job_status :=
  match evs with
  | [] => []
  | e :: evs' =>
      job_state (emit_job_event job e)
      :: statuses_along (emit_job_event job e) evs'
  end.

Fixpoint all_forward (a : job_status) (l : list job_status) : bool :=
  match l with
  | [] => true
  | b :: l' => forward a b && all_forward b l'
  end.

Section Batch.

Variable extract_date_yevmiye : list cell -> result (list (cell * cell)).
Variable extract_icra_dairesi : list cell -> result (list cell).

(** The progress events of a batch, [index] being the number of the
    first document. *)
Fixpoint progress_events (total index : nat) (pdfs : list Document)
  : list event :=
  match pdfs with
  | [] => []
  | pdf :: pdfs' =>
      EvProgress index total
        (match usable extract_date_yevmiye extract_icra_dairesi pdf with
         | Some _ => Processed
         | None => Failed
         end)
        (doc_name pdf)
      :: progress_events total (S index) pdfs'
  end.

(** The events that close the queue of a job. *)
Definition closing_events (pdfs : list Document) (fmt : output_format)
  (write_ok : bool) : list event :=
  match batch_frames extract_date_yevmiye extract_icra_dairesi pdfs with
  | [] =>
      [ EvError (txt "No dataframes produced from any PDF");
        EvError (txt "No data extracted from PDFs");
        EvError (txt "No data extracted from PDFs") ]
  | fs =>
      EvComplete (length fs)
        (batch_failures extract_date_yevmiye extract_icra_dairesi pdfs)
      :: match fmt with
         | OtherFormat =>
             [ EvError (txt "Unsupported output format");
               EvError (txt "Unsupported output format") ]
         | _ =>
             if write_ok then [EvOutputReady; EvFinished]
             else [ EvError (txt "Failed to generate output file");
                    EvError (txt "Failed to generate output file") ]
         end
  end.

(** Whether the job ends with an output file. *)
Definition succeeds (pdfs : list Document) (fmt : output_format)
  (write_ok : bool) : bool :=
  match batch_frames extract_date_yevmiye extract_icra_dairesi pdfs, fmt with
  | [], _ => false
  | _, OtherFormat => false
  | _, _ => write_ok
  end.

End Batch.

End App.

(** * Properties *)

(** ** Slices *)

Lemma slice_same A (l : list A) (a : nat) : slice l a a = [].
Proof. unfold slice. now rewrite Nat.sub_diag. Qed.

Lemma slice_full A (l : list A) : slice l 0 (length l) = l.
Proof. unfold slice. simpl. rewrite Nat.sub_0_r. apply firstn_all. Qed.

Lemma slice_to_end A (l : list A) (a : nat) :
  slice l a (length l) = skipn a l.
Proof.
  unfold slice. apply firstn_all2. rewrite length_skipn. lia.
Qed.

Lemma firstn_plus A (n m : nat) :
  forall l : list A, firstn (n + m) l = firstn n l ++ firstn m (skipn n l).
Proof.
  induction n as [|n IH]; intros l; simpl; [reflexivity|].
  destruct l as [|x l]; simpl.
  - now rewrite firstn_nil.
  - now rewrite IH.
Qed.

Lemma skipn_plus A (n m : nat) :
  forall l : list A, skipn n (skipn m l) = skipn (m + n) l.
Proof.
  induction m as [|m IH]; intros l; simpl; [reflexivity|].
  destruct l as [|x l]; simpl.
  - now rewrite skipn_nil.
  - apply IH.
Qed.

Lemma slice_app A (l : list A) (a b c : nat) :
  a <= b -> b <= c -> slice l a b ++ slice l b c = slice l a c.
Proof.
  intros Hab Hbc. unfold slice.
  replace (c - a) with ((b - a) + (c - b)) by lia.
  rewrite firstn_plus. f_equal.
  rewrite skipn_plus. now replace (a + (b - a)) with b by lia.
Qed.

(** ** The matcher: a match never moves backwards, and ends inside the
    text *)

Lemma run_progress A (r : Re.regex) :
  forall (s : Re.st) (k : Re.st -> option A) (a : A),
    Re.run r s k = Some a ->
    exists s', k s' = Some a
               /\ Re.pos s + Re.min_len r <= Re.pos s'
               /\ Re.pos s' + length (Re.rest s') = Re.pos s + length (Re.rest s).
Proof.
  induction r as [| |p|r1 IH1 r2 IH2|r1 IH1 r2 IH2|g r1 IH1|i r1 IH1];
    intros s k a H; simpl in H.
  - exists s. simpl. repeat split; auto; lia.
  - destruct (Re.pos s =? 0); [|discriminate].
    exists s. simpl. repeat split; auto; lia.
  - destruct s as [ps rs cs]; simpl in *.
    destruct rs as [|c t]; [discriminate|].
    destruct (p c); [|discriminate].
    eexists; split; [exact H|]. simpl. lia.
  - apply IH1 in H. destruct H as (s1 & H & Hp1 & Hl1).
    apply IH2 in H. destruct H as (s2 & H & Hp2 & Hl2).
    exists s2. simpl. repeat split; auto; lia.
  - unfold Re.orelse in H.
    destruct (Re.run r1 s k) as [a1|] eqn:E1.
    + inversion H; subst a1. apply IH1 in E1.
      destruct E1 as (s1 & Hk & Hp & Hl). exists s1. simpl.
      repeat split; auto; lia.
    + apply IH2 in H. destruct H as (s1 & Hk & Hp & Hl). exists s1. simpl.
      repeat split; auto; lia.
  - simpl. rewrite Nat.add_0_r.
    set (n := length (Re.rest s)) in H. clearbody n.
    revert s H. induction n as [|n IHn]; intros s H.
    + exists s. split; [exact H | lia].
    + assert (Hmore :
        Re.run r1 s
          (fun s1 =>
             if Re.pos s <? Re.pos s1
             then (fix loop (n0 : nat) (s0 : Re.st) {struct n0} : option A :=
                     match n0 with
                     | 0 => k s0
                     | S n' =>
                         if g
                         then Re.orelse
                                (Re.run r1 s0 (fun s2 =>
                                   if Re.pos s0 <? Re.pos s2 then loop n' s2 else None))
                                (k s0)
                         else Re.orelse (k s0)
                                (Re.run r1 s0 (fun s2 =>
                                   if Re.pos s0 <? Re.pos s2 then loop n' s2 else None))
                     end) n s1
             else None) = Some a ->
        exists s', k s' = Some a /\ Re.pos s <= Re.pos s'
                   /\ Re.pos s' + length (Re.rest s') = Re.pos s + length (Re.rest s)).
      { intros Hr. apply IH1 in Hr. destruct Hr as (s1 & Hr & Hp1 & Hl1).
        destruct (Re.pos s <? Re.pos s1); [|discriminate].
        apply IHn in Hr. destruct Hr as (s2 & Hk & Hp2 & Hl2).
        exists s2. repeat split; auto; lia. }
      destruct g; unfold Re.orelse in H.
      * match type of H with
        | match ?X with _ => _ end = _ => destruct X as [a1|] eqn:E1
        end.
        -- inversion H; subst a1. apply Hmore. exact E1.
        -- exists s. split; [exact H | lia].
      * destruct (k s) as [a1|] eqn:E1.
        -- inversion H; subst a1. exists s. split; [exact E1 | lia].
        -- apply Hmore. exact H.
  - apply IH1 in H. destruct H as (s1 & Hk & Hp & Hl).
    eexists; split; [exact Hk|]. simpl. lia.
Qed.

Lemma match_at_bounds (r : Re.regex) (p : nat) (suffix : list N) (m : Re.mtch) :
  Re.match_at r p suffix = Some m ->
  Re.m_start m = p
  /\ p + Re.min_len r <= Re.m_end m
  /\ Re.m_end m <= p + length suffix.
Proof.
  unfold Re.match_at. intros H. apply run_progress in H.
  destruct H as (s' & Hk & Hp & Hl). inversion Hk; subst m. simpl in *. lia.
Qed.

Lemma search_from_bounds (r : Re.regex) (suffix : list N) :
  forall (p : nat) (m : Re.mtch),
    Re.search_from r p suffix = Some m ->
    p <= Re.m_start m
    /\ Re.m_start m + Re.min_len r <= Re.m_end m
    /\ Re.m_end m <= p + length suffix.
Proof.
  induction suffix as [|c t IH]; intros p m H; simpl in H.
  - destruct (Re.match_at r p []) as [m0|] eqn:E; [|discriminate].
    inversion H; subst m0. apply match_at_bounds in E. simpl in E. lia.
  - destruct (Re.match_at r p (c :: t)) as [m0|] eqn:E.
    + inversion H; subst m0. apply match_at_bounds in E. simpl in *. lia.
    + apply IH in H. simpl. lia.
Qed.

Lemma search_bounds (r : Re.regex) (buf : list N) (p : nat) (m : Re.mtch) :
  Re.search r buf p = Some m ->
  p <= Re.m_start m
  /\ Re.m_start m + Re.min_len r <= Re.m_end m
  /\ Re.m_end m <= length buf.
Proof.
  unfold Re.search. intros H.
  destruct (p <=? length buf) eqn:Hp; [|discriminate].
  apply Nat.leb_le in Hp. apply search_from_bounds in H.
  rewrite length_skipn in H. lia.
Qed.

Lemma search_from_is_match (r : Re.regex) (suffix : list N) :
  forall (p : nat) (m : Re.mtch),
    Re.search_from r p suffix = Some m ->
    Re.match_at r (Re.m_start m) (skipn (Re.m_start m - p) suffix) = Some m.
Proof.
  induction suffix as [|c t IH]; intros p m H; simpl in H.
  - destruct (Re.match_at r p []) as [m0|] eqn:E; [|discriminate].
    inversion H; subst m0. destruct (match_at_bounds _ _ _ E) as (Hs & _).
    rewrite Hs, Nat.sub_diag. exact E.
  - destruct (Re.match_at r p (c :: t)) as [m0|] eqn:E.
    + inversion H; subst m0. destruct (match_at_bounds _ _ _ E) as (Hs & _).
      rewrite Hs, Nat.sub_diag. exact E.
    + pose proof (search_from_bounds _ _ _ H) as (Hp & _).
      apply IH in H.
      replace (Re.m_start m - p) with (S (Re.m_start m - S p)) by lia.
      exact H.
Qed.

Lemma search_is_match (r : Re.regex) (buf : list N) (p : nat) (m : Re.mtch) :
  Re.search r buf p = Some m ->
  Re.match_at r (Re.m_start m) (skipn (Re.m_start m) buf) = Some m.
Proof.
  intros H. pose proof (search_bounds _ _ _ H) as (Hp & _).
  unfold Re.search in H. destruct (p <=? length buf); [|discriminate].
  apply search_from_is_match in H. rewrite skipn_plus in H.
  now replace (p + (Re.m_start m - p)) with (Re.m_start m) in H by lia.
Qed.

Lemma finditer_from_matches (r : Re.regex) (s : list N) (fuel : nat) :
  forall p,
    Forall (fun m => Re.match_at r (Re.m_start m) (skipn (Re.m_start m) s) = Some m)
           (Re.finditer_from fuel r s p).
Proof.
  induction fuel as [|fuel IH]; intros p; simpl; [constructor|].
  destruct (Re.search r s p) as [m|] eqn:E; [|constructor].
  constructor; [eapply search_is_match; eauto | apply IH].
Qed.

(** Putting every match back in its place gives the text back: the
    matches of [finditer] lie in the text in order, without overlap. *)
Lemma sub_loop_matched (r : Re.regex) (s : list N) (fuel : nat) :
  forall p q,
    q <= p ->
    Re.sub_loop (Re.matched s) s (Re.finditer_from fuel r s p) q = skipn q s.
Proof.
  induction fuel as [|fuel IH]; intros p q Hq; simpl; [reflexivity|].
  destruct (Re.search r s p) as [m|] eqn:E; simpl; [|reflexivity].
  pose proof (search_bounds _ _ _ E) as (H1 & H2 & H3).
  rewrite IH by (destruct (Re.m_end m =? Re.m_start m); lia).
  unfold Re.matched. rewrite <- (slice_to_end s (Re.m_end m)).
  rewrite (slice_app s) by lia. rewrite (slice_app s) by lia.
  apply slice_to_end.
Qed.

(** ** The scrubber works segment by segment *)

Lemma re_tf_min_len : Re.min_len Watermark.re_tf = 7.
Proof. reflexivity. Qed.

Lemma re_tf_search_bounds (buf : list N) (p : nat) (m : Re.mtch) :
  Re.search Watermark.re_tf buf p = Some m ->
  p <= Re.m_start m /\ Re.m_start m < Re.m_end m /\ Re.m_end m <= length buf.
Proof.
  intros H. apply search_bounds in H. rewrite re_tf_min_len in H. lia.
Qed.

Lemma re_tf_finditer_step (buf : list N) (fuel p : nat) (m : Re.mtch) :
  Re.search Watermark.re_tf buf p = Some m ->
  Re.finditer_from (S fuel) Watermark.re_tf buf p
  = m :: Re.finditer_from fuel Watermark.re_tf buf (Re.m_end m).
Proof.
  intros H. simpl. rewrite H.
  apply re_tf_search_bounds in H.
  destruct (Re.m_end m =? Re.m_start m) eqn:E; [|reflexivity].
  apply Nat.eqb_eq in E. lia.
Qed.

Lemma gap_at_next_start (buf : list N) (fuel p : nat) :
  Watermark.gap_before buf (Watermark.next_start buf p)
    (Re.finditer_from fuel Watermark.re_tf buf p) = [].
Proof.
  destruct fuel as [|fuel]; simpl; [reflexivity|].
  unfold Watermark.next_start.
  destruct (Re.search Watermark.re_tf buf p) as [m|]; simpl; [|reflexivity].
  apply slice_same.
Qed.

Lemma scrub_step_eq (w : Watermark.WatermarkRemover) (buf : list N)
  (out : list N) (pos : nat) (cur : option float) (m : Re.mtch) :
  Watermark.scrub_step w buf (out, pos, cur) m
  = (out ++ slice buf pos (Re.m_start m)
         ++ Watermark.scrub_segment w (Watermark.segment_of buf m),
     Watermark.next_start buf (Re.m_end m),
     Watermark.size_of buf m).
Proof.
  unfold Watermark.scrub_step, Watermark.scrub_segment, Watermark.segment_of,
    Watermark.next_start.
  simpl. now rewrite <- !app_assoc.
Qed.

Lemma scrub_fold (w : Watermark.WatermarkRemover) (buf : list N) (fuel : nat) :
  forall p out pos cur,
    length buf < fuel + p ->
    let ms := Re.finditer_from fuel Watermark.re_tf buf p in
    let res := fold_left (Watermark.scrub_step w buf) ms (out, pos, cur) in
    fst (fst res)
    = out ++ Watermark.gap_before buf pos ms
          ++ flat_map (Watermark.scrub_segment w) (map (Watermark.segment_of buf) ms)
    /\ snd (fst res) = match ms with [] => pos | _ :: _ => length buf end
    /\ (ms = [] -> snd res = cur).
Proof.
  induction fuel as [|fuel IH]; intros p out pos cur Hfuel; cbv zeta.
  - simpl. rewrite app_nil_r. auto.
  - destruct (Re.search Watermark.re_tf buf p) as [m|] eqn:E.
    + rewrite (re_tf_finditer_step _ fuel _ E).
      pose proof (re_tf_search_bounds _ _ E) as (H1 & H2 & H3).
      cbn [fold_left map flat_map Watermark.gap_before].
      rewrite scrub_step_eq.
      match goal with
      | |- context [fold_left _ _ (?o, ?q, ?c)] =>
          specialize (IH (Re.m_end m) o q c)
      end.
      cbv zeta in IH. destruct IH as (IHa & IHb & IHc); [lia|].
      rewrite gap_at_next_start in IHa. simpl in IHa.
      split; [|split].
      * rewrite IHa. now rewrite <- !app_assoc.
      * rewrite IHb.
        destruct fuel as [|fuel]; [lia|].
        simpl. unfold Watermark.next_start.
        destruct (Re.search Watermark.re_tf buf (Re.m_end m)); reflexivity.
      * discriminate.
    + simpl. rewrite E. simpl. rewrite app_nil_r. auto.
Qed.

Lemma segments_tile_from (buf : list N) (fuel : nat) :
  forall p,
    length buf < fuel + p ->
    flat_map Watermark.keep_segment
      (map (Watermark.segment_of buf) (Re.finditer_from fuel Watermark.re_tf buf p))
    = slice buf (Watermark.next_start buf p) (length buf).
Proof.
  induction fuel as [|fuel IH]; intros p Hfuel.
  - simpl. unfold Watermark.next_start.
    destruct (Re.search Watermark.re_tf buf p) as [m|] eqn:E.
    + apply re_tf_search_bounds in E. lia.
    + now rewrite slice_same.
  - destruct (Re.search Watermark.re_tf buf p) as [m|] eqn:E.
    + rewrite (re_tf_finditer_step _ fuel _ E).
      pose proof (re_tf_search_bounds _ _ E) as (H1 & H2 & H3).
      cbn [map flat_map]. rewrite IH by lia.
      unfold Watermark.keep_segment, Watermark.segment_of. simpl.
      fold (Watermark.next_start buf (Re.m_end m)).
      assert (Hn : Re.m_end m <= Watermark.next_start buf (Re.m_end m)
                   /\ Watermark.next_start buf (Re.m_end m) <= length buf).
      { unfold Watermark.next_start.
        destruct (Re.search Watermark.re_tf buf (Re.m_end m)) as [n|] eqn:En.
        - apply re_tf_search_bounds in En. lia.
        - lia. }
      rewrite <- app_assoc.
      rewrite (slice_app buf) by lia. rewrite (slice_app buf) by lia.
      unfold Watermark.next_start at 1. rewrite E. reflexivity.
    + simpl. rewrite E. simpl. unfold Watermark.next_start. rewrite E.
      now rewrite slice_same.
Qed.

(** The output is the bytes before the first size-setting operator
    followed by what each segment contributes. *)
Lemma scrub_stream_segments (w : Watermark.WatermarkRemover) (buf : list N) :
  Watermark.scrub_stream w buf
  = Watermark.prefix_of buf
    ++ flat_map (Watermark.scrub_segment w) (Watermark.segments buf).
Proof.
  unfold Watermark.scrub_stream, Watermark.segments, Re.finditer.
  pose proof (scrub_fold w buf (S (length buf)) 0 [] 0 None) as H.
  cbv zeta in H. destruct H as (Ha & Hb & Hc); [lia|].
  unfold Watermark.prefix_of.
  destruct (Re.search Watermark.re_tf buf 0) as [m|] eqn:E.
  - rewrite (re_tf_finditer_step _ (length buf) _ E) in *.
    destruct (fold_left (Watermark.scrub_step w buf) _ _) as [[out pos] cur].
    cbn [fst snd Watermark.gap_before app] in Ha, Hb.
    subst pos out. now rewrite Nat.ltb_irrefl.
  - assert (Hnil : Re.finditer_from (S (length buf)) Watermark.re_tf buf 0 = []).
    { simpl. now rewrite E. }
    rewrite Hnil in *.
    destruct (fold_left (Watermark.scrub_step w buf) _ _) as [[out pos] cur].
    cbn [fst snd Watermark.gap_before app map flat_map] in Ha, Hb, Hc.
    subst pos out. rewrite (Hc eq_refl). simpl. rewrite app_nil_r.
    destruct buf; reflexivity.
Qed.

(** The segments and the prefix make up the whole buffer. *)
Lemma segments_tile (buf : list N) :
  buf = Watermark.prefix_of buf
        ++ flat_map Watermark.keep_segment (Watermark.segments buf).
Proof.
  unfold Watermark.segments, Re.finditer.
  rewrite segments_tile_from by lia.
  unfold Watermark.prefix_of, Watermark.next_start.
  destruct (Re.search Watermark.re_tf buf 0) as [m|] eqn:E.
  - apply re_tf_search_bounds in E.
    rewrite (slice_app buf) by lia. now rewrite slice_full.
  - now rewrite slice_same, app_nil_r.
Qed.

(** A segment whose size does not match is copied as it is. *)
Lemma scrub_segment_keeps (w : Watermark.WatermarkRemover) (sg : Watermark.segment) :
  Watermark.size_matches w (Watermark.operand sg) = false ->
  Watermark.scrub_segment w sg = Watermark.keep_segment sg.
Proof.
  intros H. unfold Watermark.scrub_segment, Watermark.keep_segment.
  now rewrite H.
Qed.

(** The tolerance test is the one of binary64 arithmetic: around the
    default target an operand of 108.95 passes it and one of 108.85
    does not. *)
Lemma tolerance_test_in_binary64 :
  Watermark.size_matches Watermark.watermark_remover (PyFloat.parse (txt "108.9")) = true
  /\ Watermark.size_matches Watermark.watermark_remover (PyFloat.parse (txt "108.95")) = true
  /\ Watermark.size_matches Watermark.watermark_remover (PyFloat.parse (txt "108.85")) = false
  /\ Watermark.size_matches Watermark.watermark_remover (PyFloat.parse (txt "12")) = false.
Proof. repeat split; vm_compute; reflexivity. Qed.

(** C1, on the code.  In a segment whose size matches, the array
    pattern [re_TJ] starts at the first opening bracket of the chunk
    and runs to the first closing bracket that [TJ] follows, where the
    single-string pattern [re_tj] stays inside one string.  With a
    dash-array setting before the array-form operator the match starts
    at the bracket of the dash array, and the setting is removed with
    the text; the same bytes before a single-string operator are kept,
    and so are bytes without a bracket before an array-form operator.
    In the last buffer a dashed line drawn between two text objects is
    removed whole. *)
Theorem array_pattern_takes_in_other_operators :
  let scrub := Watermark.scrub_stream Watermark.watermark_remover in
  option_map (fun m => (Re.m_start m, Re.m_end m))
    (Re.search Watermark.re_TJ (txt " [3 2] 0 d [(W)] TJ") 0)
  = Some (1, 19)
  /\ scrub (txt "/F1 108.9 Tf [3 2] 0 d [(W)] TJ") = txt "/F1 108.9 Tf [] TJ"
  /\ scrub (txt "/F1 108.9 Tf [3 2] 0 d (W) Tj")
     = txt "/F1 108.9 Tf [3 2] 0 d () Tj"
  /\ scrub (txt "/F1 108.9 Tf 1 0 0 1 5 5 Tm [(W)] TJ")
     = txt "/F1 108.9 Tf 1 0 0 1 5 5 Tm [] TJ"
  /\ scrub (txt "BT /F1 108.9 Tf (a) Tj ET [3 2] 0 d 0 0 m 9 9 l S BT [(W)] TJ ET")
     = txt "BT /F1 108.9 Tf () Tj ET [] TJ ET".
Proof.
  cbv zeta. repeat split; vm_compute; reflexivity.
Qed.

(** The output of [scrub_stream], segment by segment: the bytes before
    the first size-setting operator, then for each segment its operator
    followed by its chunk; in a segment whose operand passes the
    tolerance test the chunk is rewritten by replacing each match of
    [re_tj] with [() Tj] and then each match of [re_TJ] in the result
    with [[] TJ].  Each rewriting changes the text inside the matches
    only: putting the matched bytes back in place of the replacements
    gives the text it was applied to. *)
Theorem scrub_stream_blanks_pattern_matches
  (w : Watermark.WatermarkRemover) (buf : list N) :
  Watermark.scrub_stream w buf
  = Watermark.prefix_of buf
    ++ flat_map (Watermark.scrub_segment w) (Watermark.segments buf)
  /\ buf = Watermark.prefix_of buf
           ++ flat_map Watermark.keep_segment (Watermark.segments buf)
  /\ forall sg,
       In sg (Watermark.segments buf) ->
       Watermark.size_matches w (Watermark.operand sg) = true ->
       let c := Watermark.chunk sg in
       let ms1 := Re.finditer Watermark.re_tj c in
       let mid := Re.sub_loop (fun _ => txt "() Tj") c ms1 0 in
       let ms2 := Re.finditer Watermark.re_TJ mid in
       Watermark.scrub_segment w sg
       = Watermark.operator sg ++ Re.sub_loop (fun _ => txt "[] TJ") mid ms2 0
       /\ Re.sub_loop (Re.matched c) c ms1 0 = c
       /\ Re.sub_loop (Re.matched mid) mid ms2 0 = mid
       /\ Forall (fun m => Re.match_at Watermark.re_tj (Re.m_start m)
                             (skipn (Re.m_start m) c) = Some m) ms1
       /\ Forall (fun m => Re.match_at Watermark.re_TJ (Re.m_start m)
                             (skipn (Re.m_start m) mid) = Some m) ms2.
Proof.
  split; [apply scrub_stream_segments|].
  split; [apply segments_tile|].
  intros sg _ Hsize. cbv zeta.
  split; [|split; [|split; [|split]]].
  - unfold Watermark.scrub_segment. rewrite Hsize. reflexivity.
  - unfold Re.finditer. now rewrite sub_loop_matched.
  - unfold Re.finditer. now rewrite sub_loop_matched.
  - apply finditer_from_matches.
  - apply finditer_from_matches.
Qed.

Lemma scrub_stream_blanks_pattern_matches_witness :
  let buf := txt "q /F1 108.9 Tf (abc) Tj 1 0 0 1 5 5 Tm [(a)-3(b)] TJ" in
  let sg := hd (Watermark.Segment [] None []) (Watermark.segments buf) in
  In sg (Watermark.segments buf)
  /\ Watermark.size_matches Watermark.watermark_remover (Watermark.operand sg) = true
  /\ Watermark.scrub_segment Watermark.watermark_remover sg
     = txt "/F1 108.9 Tf () Tj 1 0 0 1 5 5 Tm [] TJ".
Proof.
  cbv zeta.
  set (buf := txt "q /F1 108.9 Tf (abc) Tj 1 0 0 1 5 5 Tm [(a)-3(b)] TJ").
  set (sg := hd (Watermark.Segment [] None []) (Watermark.segments buf)).
  assert (Hin : In sg (Watermark.segments buf)) by (vm_compute; left; reflexivity).
  assert (Hsz : Watermark.size_matches Watermark.watermark_remover
                  (Watermark.operand sg) = true) by (vm_compute; reflexivity).
  split; [exact Hin|]. split; [exact Hsz|].
  destruct (scrub_stream_blanks_pattern_matches Watermark.watermark_remover buf)
    as (_ & _ & H).
  destruct (H sg Hin Hsz) as (Hout & _).
  rewrite Hout. vm_compute. reflexivity.
Defined.

(** C2.  When no size-setting operator of the buffer has an operand
    that passes the tolerance test, the output equals the input.  In
    every buffer the bytes before the first size-setting operator come
    first in the output, and a segment whose size does not match is
    copied as it is. *)
Theorem scrub_stream_identity_without_matching_size
  (w : Watermark.WatermarkRemover) (buf : list N) :
  ((forall m, In m (Re.finditer Watermark.re_tf buf) ->
              Watermark.size_matches w (Watermark.size_of buf m) = false) ->
   Watermark.scrub_stream w buf = buf)
  /\ Watermark.scrub_stream w buf
     = Watermark.prefix_of buf
       ++ flat_map (Watermark.scrub_segment w) (Watermark.segments buf)
  /\ buf = Watermark.prefix_of buf
           ++ flat_map Watermark.keep_segment (Watermark.segments buf)
  /\ (forall sg, Watermark.size_matches w (Watermark.operand sg) = false ->
                 Watermark.scrub_segment w sg = Watermark.keep_segment sg).
Proof.
  split; [|split; [apply scrub_stream_segments|split;
                   [apply segments_tile|apply scrub_segment_keeps]]].
  intros H. rewrite scrub_stream_segments. rewrite (segments_tile buf) at 3.
  f_equal. unfold Watermark.segments.
  induction (Re.finditer Watermark.re_tf buf) as [|m ms IH]; [reflexivity|].
  cbn [map flat_map]. rewrite IH by (intros m' Hm'; apply H; now right).
  f_equal. apply scrub_segment_keeps. simpl. apply H. now left.
Qed.

Lemma scrub_stream_identity_without_matching_size_witness :
  let buf := txt "BT /F2 12 Tf (keep) Tj [(a)] TJ ET /F3 9.5 Tf (too) Tj" in
  (forall m, In m (Re.finditer Watermark.re_tf buf) ->
             Watermark.size_matches Watermark.watermark_remover
               (Watermark.size_of buf m) = false)
  /\ Watermark.scrub_stream Watermark.watermark_remover buf = buf.
Proof.
  cbv zeta.
  set (buf := txt "BT /F2 12 Tf (keep) Tj [(a)] TJ ET /F3 9.5 Tf (too) Tj").
  assert (H : forall m, In m (Re.finditer Watermark.re_tf buf) ->
                        Watermark.size_matches Watermark.watermark_remover
                          (Watermark.size_of buf m) = false).
  { intros m Hm. vm_compute in Hm.
    destruct Hm as [Hm|[Hm|[]]]; subst m; vm_compute; reflexivity. }
  split; [exact H|].
  exact (proj1 (scrub_stream_identity_without_matching_size
                  Watermark.watermark_remover buf) H).
Defined.

(** ** Whitespace splitting and [clean] *)

Lemma split_ws_nil (s : text) :
  forall cur, Str.split_ws cur s = [] <-> cur = [] /\ forallb Str.is_space s = true.
Proof.
  induction s as [|c s IH]; intros cur; simpl.
  - destruct cur; split; intros H; try discriminate; auto.
    destruct H; discriminate.
  - destruct (Str.is_space c) eqn:Ec; simpl.
    + destruct cur as [|x cur].
      * rewrite IH. tauto.
      * split; [discriminate|]. intros [H _]; discriminate.
    + rewrite IH. split; [intros [H _]|intros [_ H]]; [|discriminate].
      destruct cur; discriminate.
Qed.

Lemma split_ws_words (s : text) :
  forall cur,
    forallb Str.non_space cur = true ->
    Forall Str.is_word (Str.split_ws cur s).
Proof.
  induction s as [|c s IH]; intros cur Hcur; simpl.
  - destruct cur as [|x cur]; constructor; [|constructor].
    split; [discriminate|exact Hcur].
  - destruct (Str.is_space c) eqn:Ec.
    + destruct cur as [|x cur]; [apply IH; reflexivity|].
      constructor; [split; [discriminate|exact Hcur]|apply IH; reflexivity].
    + apply IH. rewrite forallb_app, Hcur. simpl.
      unfold Str.non_space. now rewrite Ec.
Qed.

Lemma split_ws_concat (s : text) :
  forall cur,
    concat (Str.split_ws cur s) = cur ++ filter Str.non_space s.
Proof.
  induction s as [|c s IH]; intros cur; simpl.
  - destruct cur; simpl; now rewrite ?app_nil_r.
  - unfold Str.non_space at 1. destruct (Str.is_space c) eqn:Ec; simpl.
    + destruct cur as [|x cur]; simpl; rewrite IH; reflexivity.
    + rewrite IH, <- app_assoc. reflexivity.
Qed.

Lemma remove_newline_spaces (s : text) :
  forallb Str.is_space (Str.remove_char 10 s) = forallb Str.is_space s.
Proof.
  induction s as [|c s IH]; simpl; [reflexivity|].
  destruct (c =? 10)%N eqn:E; simpl.
  - apply N.eqb_eq in E. subst c. exact IH.
  - now rewrite IH.
Qed.

Lemma remove_newline_ink (s : text) :
  filter Str.non_space (Str.remove_char 10 s) = filter Str.non_space s.
Proof.
  induction s as [|c s IH]; simpl; [reflexivity|].
  destruct (c =? 10)%N eqn:E; simpl.
  - apply N.eqb_eq in E. subst c. exact IH.
  - now rewrite IH.
Qed.

Lemma lstrip_ink (t : text) :
  match t with c :: _ => Str.is_space c = false | [] => True end ->
  Str.lstrip t = t.
Proof.
  destruct t as [|c t]; simpl; [reflexivity|]. now intros ->.
Qed.

Lemma word_head (w : text) :
  Str.is_word w -> exists c t, w = c :: t /\ Str.is_space c = false.
Proof.
  intros [Hne Hall]. destruct w as [|c t]; [contradiction|].
  exists c, t. split; [reflexivity|].
  simpl in Hall. apply andb_true_iff in Hall. destruct Hall as [Hc _].
  unfold Str.non_space in Hc. now destruct (Str.is_space c).
Qed.

Lemma word_last (w : text) :
  Str.is_word w -> exists t c, w = t ++ [c] /\ Str.is_space c = false.
Proof.
  intros [Hne Hall]. destruct (exists_last Hne) as (t & c & ->).
  exists t, c. split; [reflexivity|].
  rewrite forallb_app in Hall. apply andb_true_iff in Hall.
  destruct Hall as [_ Hc]. simpl in Hc. unfold Str.non_space in Hc.
  now destruct (Str.is_space c).
Qed.

Lemma join_head (sep : text) (ws : list text) :
  Forall Str.is_word ws -> ws <> [] ->
  exists c t, Str.join sep ws = c :: t /\ Str.is_space c = false.
Proof.
  intros Hw Hne. destruct ws as [|w ws]; [contradiction|].
  inversion Hw as [|? ? Hw1 Hw2]; subst.
  destruct (word_head Hw1) as (c & t & -> & Hc).
  destruct ws; simpl; eauto.
Qed.

Lemma join_last (sep : text) (ws : list text) :
  Forall Str.is_word ws -> ws <> [] ->
  exists t c, Str.join sep ws = t ++ [c] /\ Str.is_space c = false.
Proof.
  induction ws as [|w ws IH]; intros Hw Hne; [contradiction|].
  inversion Hw as [|? ? Hw1 Hw2]; subst.
  destruct ws as [|w' ws].
  - simpl. now apply word_last.
  - destruct (IH Hw2) as (t & c & E & Hc); [discriminate|].
    exists (w ++ sep ++ t), c. split; [|exact Hc].
    change (Str.join sep (w :: w' :: ws)) with (w ++ sep ++ Str.join sep (w' :: ws)).
    rewrite E. now rewrite <- !app_assoc.
Qed.

Lemma strip_join_words (sep : text) (ws : list text) :
  Forall Str.is_word ws -> ws <> [] ->
  Str.strip (Str.join sep ws) = Str.join sep ws.
Proof.
  intros Hw Hne. unfold Str.strip.
  destruct (join_head sep Hw Hne) as (c & t & E & Hc).
  rewrite lstrip_ink by (rewrite E; exact Hc).
  destruct (join_last sep Hw Hne) as (t' & c' & E' & Hc').
  rewrite E'. unfold Str.rstrip. rewrite rev_app_distr. simpl.
  rewrite Hc'. change (c' :: rev t') with (rev [c'] ++ rev t').
  rewrite <- rev_app_distr. apply rev_involutive.
Qed.

Lemma join_space_ink (ws : list text) :
  Forall Str.is_word ws ->
  filter Str.non_space (Str.join (txt " ") ws) = concat ws.
Proof.
  induction ws as [|w ws IH]; intros Hw; [reflexivity|].
  inversion Hw as [|? ? Hw1 Hw2]; subst.
  assert (Hf : filter Str.non_space w = w).
  { destruct Hw1 as [_ Hall]. clear -Hall.
    induction w as [|c w IHw]; [reflexivity|].
    simpl in *. apply andb_true_iff in Hall. destruct Hall as [Hc Hall].
    rewrite Hc. now rewrite IHw. }
  destruct ws as [|w' ws].
  - simpl. now rewrite app_nil_r.
  - change (Str.join (txt " ") (w :: w' :: ws))
      with (w ++ txt " " ++ Str.join (txt " ") (w' :: ws)).
    rewrite !filter_app, Hf, IH by exact Hw2. reflexivity.
Qed.

(** [clean] of a string is [None] exactly when every character of the
    string is whitespace. *)
Lemma clean_none_iff (s : text) :
  TextProcessor.clean (CStr s) = None <-> forallb Str.is_space s = true.
Proof.
  unfold TextProcessor.clean, Str.split. simpl py_str.
  rewrite <- remove_newline_spaces.
  destruct (Str.split_ws [] (Str.remove_char 10 s)) as [|w ws] eqn:E.
  - simpl. apply split_ws_nil in E. tauto.
  - simpl. split; [discriminate|]. intros H.
    assert (Hn : Str.split_ws [] (Str.remove_char 10 s) = [])
      by (apply split_ws_nil; auto).
    rewrite E in Hn. discriminate.
Qed.

(** A result of [clean] is the words of the string, newlines deleted,
    with one space between two words. *)
Lemma clean_some (s t : text) :
  TextProcessor.clean (CStr s) = Some t ->
  let ws := Str.split (Str.remove_char 10 s) in
  t = Str.join (txt " ") ws
  /\ ws <> []
  /\ Forall Str.is_word ws
  /\ concat ws = filter Str.non_space s.
Proof.
  unfold TextProcessor.clean, Str.split. simpl py_str. cbv zeta.
  pose proof (@split_ws_words (Str.remove_char 10 s) [] eq_refl) as Hw.
  pose proof (split_ws_concat (Str.remove_char 10 s) []) as Hc.
  rewrite remove_newline_ink in Hc. simpl in Hc.
  destruct (Str.split_ws [] (Str.remove_char 10 s)) as [|w ws] eqn:E;
    [discriminate|].
  simpl length. cbn [Nat.ltb Nat.leb].
  rewrite strip_join_words by (auto; discriminate).
  intros H. inversion H as [Ht].
  repeat split; auto. discriminate.
Qed.

Lemma join_nil_iff (sep : text) (ws : list text) :
  Forall Str.is_word ws -> (Str.join sep ws = [] <-> ws = []).
Proof.
  intros Hw. split; [|intros ->; reflexivity].
  intros H. destruct ws as [|w ws]; [reflexivity|].
  destruct (join_head sep Hw) as (c & t & E & _); [discriminate|].
  rewrite E in H. discriminate.
Qed.

(** C8.  [clean] deletes the newlines, joins the words of the text with
    single spaces (so runs of whitespace collapse and both edges are
    trimmed) and returns [None] exactly when nothing is left, that is
    when every character is whitespace; the three examples hold; and
    [None] is what makes [fix_continuation] merge a row into the one
    before, any other result starting a new row. *)
Theorem clean_normalizes :
  TextProcessor.clean (CStr (txt " a " ++ [10%N] ++ txt " b ")) = Some (txt "a b")
  /\ TextProcessor.clean (CStr []) = None
  /\ TextProcessor.clean (CStr (txt "   ")) = None
  /\ (forall s,
        (TextProcessor.clean (CStr s) = None
         <-> Str.join (txt " ") (Str.split (Str.remove_char 10 s)) = [])
        /\ (TextProcessor.clean (CStr s) = None
            <-> forallb Str.is_space s = true))
  /\ (forall s t,
        TextProcessor.clean (CStr s) = Some t ->
        let ws := Str.split (Str.remove_char 10 s) in
        t = Str.join (txt " ") ws
        /\ ws <> []
        /\ Forall Str.is_word ws
        /\ concat ws = filter Str.non_space s)
  /\ (forall fixed_rows c0 cs,
        TextProcessor.clean c0 = None ->
        TableExtractor.fix_step fixed_rows (c0 :: cs)
        = match fixed_rows with
          | [] => Raise IndexError
          | _ :: _ =>
              Ok (removelast fixed_rows
                  ++ [map (fun pr => TableExtractor.merge_cell (fst pr) (snd pr))
                          (combine (last fixed_rows []) (c0 :: cs))])
          end)
  /\ (forall fixed_rows c0 cs t,
        TextProcessor.clean c0 = Some t ->
        TableExtractor.fix_step fixed_rows (c0 :: cs)
        = Ok (fixed_rows ++ [c0 :: cs])).
Proof.
  split; [vm_compute; reflexivity|].
  split; [vm_compute; reflexivity|].
  split; [vm_compute; reflexivity|].
  split; [|split; [exact clean_some|split]].
  - intros s. split; [|apply clean_none_iff].
    rewrite clean_none_iff, <- remove_newline_spaces.
    rewrite join_nil_iff by (apply split_ws_words; reflexivity).
    unfold Str.split. rewrite split_ws_nil. tauto.
  - intros fixed_rows c0 cs H. unfold TableExtractor.fix_step. rewrite H.
    destruct fixed_rows; reflexivity.
  - intros fixed_rows c0 cs t H. unfold TableExtractor.fix_step. now rewrite H.
Qed.

Lemma clean_normalizes_witness :
  TextProcessor.clean (CStr (txt "  x" ++ [10%N] ++ txt "y   z ")) = Some (txt "xy z")
  /\ Str.split (Str.remove_char 10 (txt "  x" ++ [10%N] ++ txt "y   z "))
     = [txt "xy"; txt "z"]
  /\ txt "xy z" = Str.join (txt " ") [txt "xy"; txt "z"]
  /\ TextProcessor.clean (CStr (txt " ")) = None
  /\ TableExtractor.fix_step [[CStr (txt "1"); CStr (txt "a")]]
       [CStr (txt " "); CStr (txt "b")]
     = Ok [[CStr (txt "1"); CStr (txt "a b")]]
  /\ TableExtractor.fix_step [[CStr (txt "1"); CStr (txt "a")]]
       [CStr (txt "  x" ++ [10%N] ++ txt "y   z "); CStr (txt "b")]
     = Ok [[CStr (txt "1"); CStr (txt "a")];
           [CStr (txt "  x" ++ [10%N] ++ txt "y   z "); CStr (txt "b")]].
Proof.
  destruct clean_normalizes as (_ & _ & _ & _ & Hsome & Hnone & Hnew).
  assert (Hc : TextProcessor.clean (CStr (txt "  x" ++ [10%N] ++ txt "y   z "))
               = Some (txt "xy z")) by (vm_compute; reflexivity).
  assert (Hb : TextProcessor.clean (CStr (txt " ")) = None)
    by (vm_compute; reflexivity).
  split; [exact Hc|]. split; [vm_compute; reflexivity|].
  split; [exact (proj1 (Hsome _ _ Hc))|]. split; [exact Hb|].
  split.
  - rewrite (Hnone [[CStr (txt "1"); CStr (txt "a")]] _ [CStr (txt "b")] Hb).
    vm_compute. reflexivity.
  - exact (Hnew [[CStr (txt "1"); CStr (txt "a")]] _ [CStr (txt "b")] _ Hc).
Defined.

(** ** Stitching *)

Lemma clean_py_str (p : cell) :
  TextProcessor.clean p <> None ->
  forallb Str.is_space (py_str p) = false.
Proof.
  destruct p as [| |s]; intros H.
  - now contradiction H.
  - reflexivity.
  - simpl. destruct (forallb Str.is_space s) eqn:E; [|reflexivity].
    apply clean_none_iff in E. contradiction.
Qed.

Lemma merge_cell_starts (p r : cell) :
  TextProcessor.clean p <> None ->
  TextProcessor.clean (TableExtractor.merge_cell p r) <> None.
Proof.
  intros Hp. apply clean_py_str in Hp.
  unfold TableExtractor.merge_cell.
  destruct (negb (text_eqb (Str.strip (py_str r)) [])); intros H;
    apply clean_none_iff in H.
  - rewrite forallb_app, Hp in H. discriminate.
  - rewrite Hp in H. discriminate.
Qed.

Lemma Forall_removelast A (P : A -> Prop) (l : list A) :
  Forall P l -> Forall P (removelast l).
Proof.
  induction l as [|x l IH]; intros H; [constructor|].
  inversion H; subst. destruct l; [constructor|].
  change (removelast (x :: a :: l)) with (x :: removelast (a :: l)).
  constructor; auto.
Qed.

Lemma Forall_last A (P : A -> Prop) (l : list A) (d : A) :
  Forall P l -> l <> [] -> P (last l d).
Proof.
  induction l as [|x l IH]; intros H Hne; [contradiction|].
  inversion H; subst. destruct l; [assumption|].
  change (last (x :: a :: l) d) with (last (a :: l) d).
  apply IH; [assumption|discriminate].
Qed.

Lemma fix_step_starts (fixed_rows : list (list cell)) (row : list cell)
  (res : list (list cell)) :
  Forall TableExtractor.starts_row fixed_rows ->
  TableExtractor.fix_step fixed_rows row = Ok res ->
  Forall TableExtractor.starts_row res.
Proof.
  intros Hf H. unfold TableExtractor.fix_step in H.
  destruct row as [|c0 cs]; [discriminate|].
  destruct (TextProcessor.clean c0) as [t|] eqn:Ec.
  - inversion H; subst. apply Forall_app. split; [assumption|].
    constructor; [|constructor]. simpl. now rewrite Ec.
  - destruct fixed_rows as [|f fs] eqn:Ef; [discriminate|].
    rewrite <- Ef in *. inversion H; subst res.
    apply Forall_app. split; [now apply Forall_removelast|].
    constructor; [|constructor].
    assert (Hl : TableExtractor.starts_row (last fixed_rows []))
      by (apply Forall_last; [assumption|rewrite Ef; discriminate]).
    destruct (last fixed_rows []) as [|p ps]; [contradiction|].
    simpl. now apply merge_cell_starts.
Qed.

Lemma fix_loop_starts (todo : list (list cell)) :
  forall fixed_rows res,
    Forall TableExtractor.starts_row fixed_rows ->
    TableExtractor.fix_loop fixed_rows todo = Ok res ->
    Forall TableExtractor.starts_row res.
Proof.
  induction todo as [|row todo IH]; intros fixed_rows res Hf H; simpl in H.
  - now inversion H; subst.
  - destruct (TableExtractor.fix_step fixed_rows row) as [f'|e] eqn:Es;
      [|discriminate].
    simpl in H. eapply IH; [|exact H]. eapply fix_step_starts; eauto.
Qed.

Lemma fix_loop_fixed_point (todo : list (list cell)) :
  forall fixed_rows,
    Forall TableExtractor.starts_row todo ->
    TableExtractor.fix_loop fixed_rows todo = Ok (fixed_rows ++ todo).
Proof.
  induction todo as [|row todo IH]; intros fixed_rows H; simpl.
  - now rewrite app_nil_r.
  - inversion H as [|? ? Hr Ht]; subst.
    destruct row as [|c0 cs]; [contradiction|]. simpl in Hr.
    unfold TableExtractor.fix_step.
    destruct (TextProcessor.clean c0); [|contradiction].
    simpl. rewrite IH by assumption. now rewrite <- app_assoc.
Qed.

(** C4.  Whenever [fix_continuation] returns a table, no row of that
    table has a first cell that normalises to empty, and applying
    [fix_continuation] to it returns it unchanged. *)
Theorem fix_continuation_idempotent (df out : DataFrame) :
  TableExtractor.fix_continuation df = Ok out ->
  Forall TableExtractor.starts_row (rows out)
  /\ TableExtractor.fix_continuation out = Ok out.
Proof.
  unfold TableExtractor.fix_continuation. intros H.
  destruct (TableExtractor.fix_loop [] (rows df)) as [res|e] eqn:E;
    [|discriminate].
  simpl in H. inversion H; subst out. simpl.
  assert (Hs : Forall TableExtractor.starts_row res)
    by (eapply fix_loop_starts; [constructor|exact E]).
  split; [exact Hs|].
  now rewrite (fix_loop_fixed_point [] Hs).
Qed.

Lemma fix_continuation_idempotent_witness :
  let df := Frame 2 [ [CStr (txt "1"); CStr (txt "HACIZ")];
                      [CStr (txt " "); CStr (txt "devam")];
                      [CNone; CStr []];
                      [CStr (txt "2"); CNaN] ] in
  let out := Frame 2 [ [CStr (txt "1 None"); CStr (txt "HACIZ devam")];
                       [CStr (txt "2"); CNaN] ] in
  TableExtractor.fix_continuation df = Ok out
  /\ TableExtractor.fix_continuation out = Ok out.
Proof.
  cbv zeta.
  assert (H : TableExtractor.fix_continuation
                (Frame 2 [ [CStr (txt "1"); CStr (txt "HACIZ")];
                           [CStr (txt " "); CStr (txt "devam")];
                           [CNone; CStr []];
                           [CStr (txt "2"); CNaN] ])
              = Ok (Frame 2 [ [CStr (txt "1 None"); CStr (txt "HACIZ devam")];
                              [CStr (txt "2"); CNaN] ]))
    by (vm_compute; reflexivity).
  split; [exact H|exact (proj2 (@fix_continuation_idempotent _ _ H))].
Defined.

Lemma fix_loop_total (todo : list (list cell)) :
  forall fixed_rows,
    fixed_rows <> [] ->
    Forall (fun r => r <> []) todo ->
    exists res, TableExtractor.fix_loop fixed_rows todo = Ok res.
Proof.
  induction todo as [|row todo IH]; intros fixed_rows Hne Hrows; simpl.
  - eauto.
  - inversion Hrows as [|? ? Hr Ht]; subst.
    destruct row as [|c0 cs]; [contradiction|].
    unfold TableExtractor.fix_step.
    destruct (TextProcessor.clean c0).
    + simpl. apply IH; [|assumption]. now destruct fixed_rows.
    + destruct fixed_rows as [|f fs]; [contradiction|].
      simpl bind. apply IH; [|assumption].
      intros H. apply app_eq_nil in H. destruct H; discriminate.
Qed.

Lemma concat_nonempty_source A (ls : list (list A)) :
  concat ls <> [] -> ls <> [].
Proof. intros H ->. now apply H. Qed.

(** C10.  [fix_continuation] raises [IndexError] on every table whose
    first row has a first cell that normalises to empty; on a table
    whose first row has a first cell that does not, it returns a table.
    The guard of [extract_mulkiyete_ait_serh_beyan] lets a first cell
    made of whitespace through, so the call raises there. *)
Theorem fix_continuation_partial :
  (forall df c cs rest,
     rows df = (c :: cs) :: rest ->
     TextProcessor.clean c = None ->
     TableExtractor.fix_continuation df = Raise IndexError)
  /\ (forall df c cs rest,
        wf_frame df ->
        rows df = (c :: cs) :: rest ->
        TextProcessor.clean c <> None ->
        exists out, TableExtractor.fix_continuation df = Ok out)
  /\ (forall dfs s cs rest,
        concat (map rows (filter (fun df => ncols df =? 6) dfs))
        = (CStr s :: cs) :: rest ->
        s <> [] ->
        TextProcessor.clean (CStr s) = None ->
        DataExtractor.extract_mulkiyete_ait_serh_beyan dfs = Raise IndexError).
Proof.
  split; [|split].
  - intros df c cs rest Hrows Hc. unfold TableExtractor.fix_continuation.
    rewrite Hrows. simpl. now rewrite Hc.
  - intros df c cs rest Hwf Hrows Hc. unfold TableExtractor.fix_continuation.
    unfold wf_frame in Hwf. rewrite Hrows in *. simpl.
    destruct (TextProcessor.clean c) as [t|] eqn:Ec; [|contradiction].
    simpl.
    inversion Hwf as [|? ? Hlen Hrest]; subst.
    destruct (@fix_loop_total rest [c :: cs]) as (res & Hres); [discriminate| |].
    + eapply Forall_impl; [|exact Hrest]. simpl.
      intros r Hr ->. rewrite <- Hlen in Hr. discriminate.
    + rewrite Hres. simpl. eauto.
  - intros dfs s cs rest Hrows Hs Hc.
    unfold DataExtractor.extract_mulkiyete_ait_serh_beyan.
    destruct (filter (fun df => ncols df =? 6) dfs) as [|d ds] eqn:Ef;
      [discriminate|].
    rewrite Hrows. unfold iloc.
    cbn [rows nth_error bind isna orb].
    assert (He : DataExtractor.is_empty_string (CStr s) = false)
      by (destruct s; [contradiction|reflexivity]).
    rewrite He. cbn [bind].
    unfold TableExtractor.fix_continuation.
    cbn [rows TableExtractor.fix_loop TableExtractor.fix_step bind].
    now rewrite Hc.
Qed.

Lemma fix_continuation_partial_witness :
  TableExtractor.fix_continuation
    (Frame 2 [[CStr (txt "  "); CStr (txt "x")]; [CStr (txt "1"); CStr (txt "y")]])
  = Raise IndexError
  /\ (exists out,
        TableExtractor.fix_continuation
          (Frame 2 [[CStr (txt "1"); CStr (txt "y")]; [CStr (txt "  "); CStr (txt "x")]])
        = Ok out)
  /\ DataExtractor.extract_mulkiyete_ait_serh_beyan
       [Frame 6 [[CStr (txt "  "); CStr (txt "a"); CStr (txt "b"); CStr (txt "c");
                  CStr (txt "d"); CStr (txt "e")]]]
     = Raise IndexError.
Proof.
  destruct fix_continuation_partial as (H1 & H2 & H3).
  split; [|split].
  - eapply H1; [reflexivity|vm_compute; reflexivity].
  - eapply H2; [|reflexivity|vm_compute; discriminate].
    repeat constructor.
  - eapply H3; [reflexivity|discriminate|vm_compute; reflexivity].
Defined.

(** C3, on the code.  A table of six columns whose first row has a
    first cell of two spaces: the cell normalises to empty, yet the row
    is not dropped and the stitching raises [IndexError].  With the
    empty string in the same place the row is dropped, the stitching
    goes through and the rows after the heading row are returned. *)
Theorem blank_first_cell_is_not_dropped :
  let row0 c := [CStr c; CStr (txt "x"); CStr []; CStr []; CStr []; CStr []] in
  let heading := [CStr (txt "S/B/I"); CStr (txt "Aciklama"); CStr (txt "Malik");
                  CStr (txt "Lehtar"); CStr (txt "Tesis"); CStr (txt "Terkin")] in
  let r1 := [CStr (txt "Beyan"); CStr (txt "HACIZ :"); CStr []; CStr [];
             CStr (txt "Ankara"); CStr []] in
  let r2 := [CStr []; CStr (txt "devam"); CStr []; CStr []; CStr []; CStr []] in
  let merged := [CStr (txt "Beyan"); CStr (txt "HACIZ : devam"); CStr []; CStr [];
                 CStr (txt "Ankara"); CStr []] in
  TextProcessor.clean (CStr (txt "  ")) = None
  /\ DataExtractor.extract_mulkiyete_ait_serh_beyan
       [Frame 6 [row0 (txt "  "); heading; r1; r2]]
     = Raise IndexError
  /\ DataExtractor.extract_mulkiyete_ait_serh_beyan
       [Frame 6 [row0 []; heading; r1; r2]]
     = Ok (Frame 6 [merged]).
Proof.
  cbv zeta. repeat split; vm_compute; reflexivity.
Qed.

(** ** The type label of a description *)

Lemma run_star_greedy_cls A (p : N -> bool) (k : Re.st -> option A) (s : Re.st) :
  Re.run (Re.Star true (Re.Cls p)) s k
  = Re.greedy_cls p k (Re.pos s) (Re.rest s) (Re.caps s).
Proof.
  destruct s as [ps rs cs]. simpl Re.pos. simpl Re.rest. simpl Re.caps.
  cbn [Re.run Re.rest].
  assert (H : forall rs n ps, length rs <= n ->
    (fix loop (n0 : nat) (s0 : Re.st) {struct n0} : option A :=
       match n0 with
       | 0 => k s0
       | S n' =>
           Re.orelse
             (match Re.rest s0 with
              | [] => None
              | c :: t =>
                  if p c
                  then (fun s1 => if Re.pos s0 <? Re.pos s1 then loop n' s1 else None)
                         (Re.St (S (Re.pos s0)) t (Re.caps s0))
                  else None
              end)
             (k s0)
       end) n (Re.St ps rs cs)
    = Re.greedy_cls p k ps rs cs).
  { clear rs ps. induction rs as [|c t IH]; intros n ps Hn.
    - destruct n; reflexivity.
    - destruct n as [|n]; [simpl in Hn; lia|].
      cbn [Re.greedy_cls Re.rest Re.pos Re.caps].
      destruct (p c); [|reflexivity].
      assert (Hlt : (ps <? S ps) = true) by (apply Nat.ltb_lt; lia).
      rewrite Hlt. rewrite IH by (simpl in Hn; lia). reflexivity. }
  apply H. lia.
Qed.

Lemma not_colon_paren_false (c : N) :
  DataExtractor.not_colon_paren c = false -> c = 58%N \/ c = 40%N.
Proof.
  unfold DataExtractor.not_colon_paren. intros H.
  apply negb_false_iff, orb_true_iff in H.
  destruct H as [H|H]; apply N.eqb_eq in H; auto.
Qed.

Lemma not_colon_paren_true (c : N) :
  DataExtractor.not_colon_paren c = true -> (58 =? c)%N = false.
Proof.
  unfold DataExtractor.not_colon_paren. intros H.
  apply negb_true_iff, orb_false_iff in H. destruct H as [H _].
  now rewrite N.eqb_sym.
Qed.

Lemma haciz_kc_cons (ps : nat) (c : N) (t : text) (cs : list (nat * (nat * nat))) :
  DataExtractor.haciz_kc (Re.St ps (c :: t) cs)
  = if (58 =? c)%N then Some (Re.Mtch 0 (S ps) cs) else None.
Proof. reflexivity. Qed.

Lemma haciz_inner_none (rs : text) :
  forall ps cs,
    DataExtractor.no_colon_after_run rs ->
    Re.greedy_cls Str.is_space DataExtractor.haciz_kc ps rs cs = None.
Proof.
  induction rs as [|c t IH]; intros ps cs H; [reflexivity|].
  cbn [Re.greedy_cls]. rewrite haciz_kc_cons.
  unfold DataExtractor.no_colon_after_run in H. simpl in H.
  destruct (DataExtractor.not_colon_paren c) eqn:Ec.
  - rewrite (not_colon_paren_true _ Ec).
    assert (Ht : DataExtractor.no_colon_after_run t).
    { unfold DataExtractor.no_colon_after_run.
      destruct (DataExtractor.leading_run t). exact H. }
    rewrite (IH _ _ Ht). now destruct (Str.is_space c).
  - simpl in H. destruct (not_colon_paren_false _ Ec) as [-> | ->].
    + contradiction.
    + reflexivity.
Qed.

Lemma haciz_kg_eq (s : Re.st) :
  DataExtractor.haciz_kg s
  = Re.greedy_cls Str.is_space DataExtractor.haciz_kc
      (Re.pos s) (Re.rest s) ((1, (0, Re.pos s)) :: Re.caps s).
Proof.
  unfold DataExtractor.haciz_kg.
  change (Re.run (Re.Cat (Re.Star true (Re.Cls Str.is_space)) (Re.chr 58))
            (Re.St (Re.pos s) (Re.rest s) ((1, (0, Re.pos s)) :: Re.caps s))
            DataExtractor.haciz_k0)
    with (Re.run (Re.Star true (Re.Cls Str.is_space))
            (Re.St (Re.pos s) (Re.rest s) ((1, (0, Re.pos s)) :: Re.caps s))
            DataExtractor.haciz_kc).
  now rewrite run_star_greedy_cls.
Qed.

Lemma haciz_outer_none (rs : text) :
  forall ps cs,
    DataExtractor.no_colon_after_run rs ->
    Re.greedy_cls DataExtractor.not_colon_paren DataExtractor.haciz_kg ps rs cs
    = None.
Proof.
  induction rs as [|c t IH]; intros ps cs H.
  - cbn [Re.greedy_cls]. rewrite haciz_kg_eq. now apply haciz_inner_none.
  - cbn [Re.greedy_cls].
    assert (Hk : DataExtractor.haciz_kg (Re.St ps (c :: t) cs) = None)
      by (rewrite haciz_kg_eq; now apply haciz_inner_none).
    rewrite Hk.
    destruct (DataExtractor.not_colon_paren c) eqn:Ec; [|reflexivity].
    rewrite IH; [reflexivity|].
    unfold DataExtractor.no_colon_after_run in *. simpl in H. rewrite Ec in H.
    destruct (DataExtractor.leading_run t). exact H.
Qed.

Lemma haciz_outer_some (run : text) :
  forall tl ps cs,
    forallb DataExtractor.not_colon_paren run = true ->
    Re.greedy_cls DataExtractor.not_colon_paren DataExtractor.haciz_kg ps
      (run ++ 58%N :: tl) cs
    = Some (Re.Mtch 0 (S (ps + length run)) ((1, (0, ps + length run)) :: cs)).
Proof.
  induction run as [|c run IH]; intros tl ps cs H.
  - simpl app. cbn [Re.greedy_cls].
    change (DataExtractor.not_colon_paren 58) with false. cbv iota.
    rewrite haciz_kg_eq. simpl. now rewrite Nat.add_0_r.
  - simpl in H. apply andb_true_iff in H. destruct H as [Hc Hr].
    simpl app. cbn [Re.greedy_cls]. rewrite Hc.
    rewrite IH by exact Hr. simpl.
    now replace (ps + S (length run)) with (S (ps + length run)) by lia.
Qed.

Lemma leading_run_spec (s : text) :
  s = fst (DataExtractor.leading_run s) ++ snd (DataExtractor.leading_run s)
  /\ forallb DataExtractor.not_colon_paren (fst (DataExtractor.leading_run s)) = true.
Proof.
  induction s as [|c s IH]; simpl; [auto|].
  destruct (DataExtractor.not_colon_paren c) eqn:Ec; simpl; [|auto].
  destruct (DataExtractor.leading_run s) as [r t]. simpl in *.
  destruct IH as [IH1 IH2]. rewrite Ec, IH2. split; [now f_equal|reflexivity].
Qed.

Lemma haciz_search_later (suffix : text) :
  forall p, Re.search_from DataExtractor.r_haciz_type (S p) suffix = None.
Proof.
  induction suffix as [|c t IH]; intros p; simpl; [reflexivity|apply IH].
Qed.

(** The first match of [r_haciz_type]: group 1 is the leading run, when
    it is not empty and a colon follows it. *)
Lemma haciz_search (s : text) :
  Re.search DataExtractor.r_haciz_type s 0
  = match DataExtractor.leading_run s with
    | (c :: run, 58%N :: _) =>
        Some (Re.Mtch 0 (S (length (c :: run))) [(1, (0, length (c :: run)))])
    | _ => None
    end.
Proof.
  unfold Re.search. simpl Nat.leb. cbv iota. simpl skipn.
  destruct s as [|c t]; [reflexivity|].
  cbn [Re.search_from]. rewrite haciz_search_later.
  assert (Hm : Re.match_at DataExtractor.r_haciz_type 0 (c :: t)
               = if DataExtractor.not_colon_paren c
                 then Re.run (Re.Star true (Re.Cls DataExtractor.not_colon_paren))
                        (Re.St 1 t []) DataExtractor.haciz_kg
                 else None).
  { reflexivity. }
  rewrite Hm. clear Hm. cbn [DataExtractor.leading_run].
  destruct (DataExtractor.not_colon_paren c) eqn:Ec; [|reflexivity].
  rewrite run_star_greedy_cls. simpl Re.pos. simpl Re.rest. simpl Re.caps.
  pose proof (leading_run_spec t) as [Happ Hall].
  destruct (DataExtractor.leading_run t) as [r rest] eqn:El. simpl in Happ, Hall.
  destruct rest as [|x tl].
  - rewrite haciz_outer_none; [reflexivity|].
    unfold DataExtractor.no_colon_after_run. now rewrite El.
  - destruct (N.eq_dec x 58) as [->|Hx].
    + rewrite Happ. rewrite haciz_outer_some by exact Hall. reflexivity.
    + rewrite haciz_outer_none.
      * destruct x as [|x]; [reflexivity|].
        do 6 (destruct x as [x|x|]; try reflexivity).
        all: try (contradiction Hx; reflexivity).
      * unfold DataExtractor.no_colon_after_run. rewrite El. simpl.
        destruct x as [|x]; [exact I|].
        do 6 (destruct x as [x|x|]; try exact I).
        all: try (contradiction Hx; reflexivity).
Qed.

Lemma haciz_type_of_missing (x : cell) :
  isna x = true -> DataExtractor.haciz_type_of x = CNone.
Proof. destruct x; [reflexivity|reflexivity|discriminate]. Qed.

Lemma haciz_type_of_text (s : text) :
  DataExtractor.haciz_type_of (CStr s)
  = match DataExtractor.leading_run s with
    | (c :: run, 58%N :: _) =>
        of_option (TextProcessor.capitalize
                     (of_option (TextProcessor.clean (CStr (c :: run)))))
    | _ => CNone
    end.
Proof.
  unfold DataExtractor.haciz_type_of, DataExtractor.str_extract.
  rewrite haciz_search.
  pose proof (leading_run_spec s) as [Happ _].
  destruct (DataExtractor.leading_run s) as [r rest]. simpl in Happ.
  destruct r as [|c run]; [reflexivity|].
  destruct rest as [|x tl]; [reflexivity|].
  destruct (N.eq_dec x 58) as [->|Hx].
  - unfold Re.group. cbn [Re.m_caps Re.lookup_cap Nat.eqb].
    unfold slice. rewrite Nat.sub_0_r. cbn [skipn].
    rewrite Happ at 1. rewrite firstn_app, Nat.sub_diag, firstn_all. simpl firstn.
    rewrite app_nil_r. reflexivity.
  - destruct x as [|x]; [reflexivity|].
    do 6 (destruct x as [x|x|]; try reflexivity).
    all: try (contradiction Hx; reflexivity).
Qed.

Lemma leading_run_no_colon (s : text) :
  ~ In 58%N s ->
  match snd (DataExtractor.leading_run s) with
  | 58%N :: _ => False
  | _ => True
  end.
Proof.
  induction s as [|c s IH]; intros H; simpl; [exact I|].
  destruct (DataExtractor.not_colon_paren c) eqn:Ec.
  - destruct (DataExtractor.leading_run s) as [r t]. simpl in *.
    apply IH. tauto.
  - simpl. destruct (not_colon_paren_false _ Ec) as [-> | ->].
    + apply H. now left.
    + exact I.
Qed.

(** With an empty mask [extract_aciklama] raises: the frame built for
    the extracted columns has one column where two are needed. *)
Lemma extract_aciklama_empty_mask_raises :
  DataExtractor.extract_aciklama [CStr (txt "ISTIMLAK SERHI")] = Raise ValueError.
Proof. vm_compute. reflexivity. Qed.

(** C5, as stated, fails: the description [A(B): X] has the characters
    [A(B)] before its first colon, and its type is null. *)
Lemma haciz_type_stops_at_parenthesis :
  ~ (forall s : text,
       In 58%N s ->
       DataExtractor.haciz_type_of (CStr s)
       = of_option (TextProcessor.capitalize
                      (of_option (TextProcessor.clean
                                    (CStr (DataExtractor.before_first_colon s)))))).
Proof.
  intros H. specialize (H (txt "A(B): X")).
  vm_compute in H. discriminate H. right. right. right. right. now left.
Qed.

(** C5 (amended).  The type label of a description is its longest
    leading run of characters that are neither a colon nor an opening
    parenthesis, cleaned and put in title case, when that run is not
    empty and a colon follows it; otherwise, and so for every
    description without a colon and every missing description, it is
    null.  In a table where some row has a type label, every row is
    kept, and a row without a label has its remainder, date and file
    number null as well.  The description of the specification
    decomposes as it says. *)
Theorem extract_aciklama_fields :
  DataExtractor.extract_aciklama
    [CStr (txt "HACİZ: ... 01/01/2020 TARİH 123/45")]
  = Ok [ {| DataExtractor.haciz_type := CStr (txt "Haciz");
            DataExtractor.aciklama_ext := CStr (txt "... 01/01/2020 TARİH 123/45");
            DataExtractor.aciklama_date := CStr (txt "01/01/2020");
            DataExtractor.aciklama_fileno := CStr (txt "123/45") |} ]
  /\ (forall s,
        DataExtractor.haciz_type_of (CStr s)
        = match DataExtractor.leading_run s with
          | (c :: run, 58%N :: _) =>
              of_option (TextProcessor.capitalize
                           (of_option (TextProcessor.clean (CStr (c :: run)))))
          | _ => CNone
          end)
  /\ (forall s, ~ In 58%N s -> DataExtractor.haciz_type_of (CStr s) = CNone)
  /\ (forall x, isna x = true -> DataExtractor.haciz_type_of x = CNone)
  /\ (forall x,
        DataExtractor.haciz_type_of x = CNone ->
        DataExtractor.fields_of x
        = {| DataExtractor.haciz_type := CNone;
             DataExtractor.aciklama_ext := CNaN;
             DataExtractor.aciklama_date := CNaN;
             DataExtractor.aciklama_fileno := CNaN |})
  /\ (forall aciklama x0,
        In x0 aciklama ->
        DataExtractor.haciz_type_of x0 <> CNone ->
        DataExtractor.extract_aciklama aciklama
        = Ok (map DataExtractor.fields_of aciklama)).
Proof.
  split; [vm_compute; reflexivity|].
  split; [exact haciz_type_of_text|].
  split; [|split; [exact haciz_type_of_missing|split]].
  - intros s Hs. rewrite haciz_type_of_text.
    pose proof (leading_run_no_colon s Hs) as H.
    destruct (DataExtractor.leading_run s) as [r rest]. simpl in H.
    destruct r as [|c run]; [reflexivity|].
    destruct rest as [|x tl]; [reflexivity|].
    destruct x as [|x]; [reflexivity|].
    do 6 (destruct x as [x|x|]; try reflexivity). contradiction.
  - intros x Hx. unfold DataExtractor.fields_of. now rewrite Hx.
  - intros aciklama x0 Hin Hx0. unfold DataExtractor.extract_aciklama.
    rewrite map_map.
    assert (He : existsb (fun b : bool => b)
                   (map (fun x => DataExtractor.notna (DataExtractor.haciz_type_of x))
                        aciklama) = true).
    { apply existsb_exists. exists true. split; [|reflexivity].
      apply in_map_iff. exists x0. split; [|exact Hin].
      unfold DataExtractor.haciz_type_of, of_option in *.
      destruct (TextProcessor.capitalize _); [reflexivity|contradiction]. }
    now rewrite He.
Qed.

Lemma extract_aciklama_fields_witness :
  let t := [ CStr (txt "HACİZ: ... 01/01/2020 TARİH 123/45");
             CStr (txt "ISTIMLAK SERHI"); CNone ] in
  In (CStr (txt "HACİZ: ... 01/01/2020 TARİH 123/45")) t
  /\ DataExtractor.haciz_type_of (CStr (txt "HACİZ: ... 01/01/2020 TARİH 123/45"))
     <> CNone
  /\ DataExtractor.extract_aciklama t = Ok (map DataExtractor.fields_of t)
  /\ ~ In 58%N (txt "ISTIMLAK SERHI")
  /\ DataExtractor.haciz_type_of (CStr (txt "ISTIMLAK SERHI")) = CNone
  /\ DataExtractor.fields_of (CStr (txt "ISTIMLAK SERHI"))
     = {| DataExtractor.haciz_type := CNone;
          DataExtractor.aciklama_ext := CNaN;
          DataExtractor.aciklama_date := CNaN;
          DataExtractor.aciklama_fileno := CNaN |}
  /\ DataExtractor.haciz_type_of CNone = CNone.
Proof.
  cbv zeta.
  destruct extract_aciklama_fields as (_ & _ & Hnc & Hna & Hf & Hall).
  assert (Hin : In (CStr (txt "HACİZ: ... 01/01/2020 TARİH 123/45"))
                  [ CStr (txt "HACİZ: ... 01/01/2020 TARİH 123/45");
                    CStr (txt "ISTIMLAK SERHI"); CNone ]) by (now left).
  assert (Hty : DataExtractor.haciz_type_of
                  (CStr (txt "HACİZ: ... 01/01/2020 TARİH 123/45")) <> CNone)
    by (vm_compute; discriminate).
  assert (Hno : ~ In 58%N (txt "ISTIMLAK SERHI")).
  { vm_compute. intros H.
    repeat (destruct H as [H|H]; [discriminate H|]). exact H. }
  split; [exact Hin|]. split; [exact Hty|].
  split; [exact (Hall _ _ Hin Hty)|]. split; [exact Hno|].
  split; [exact (Hnc _ Hno)|]. split; [exact (Hf _ (Hnc _ Hno))|].
  exact (Hna CNone eq_refl).
Defined.

(** ** The batch loop *)

Section PipelineFacts.

Variable extract_date_yevmiye : list cell -> result (list (cell * cell)).
Variable extract_icra_dairesi : list cell -> result (list cell).

Local Abbreviation process_single_pdf :=
  (Pipeline.process_single_pdf extract_date_yevmiye extract_icra_dairesi).
Local Abbreviation usable :=
  (Pipeline.usable extract_date_yevmiye extract_icra_dairesi).
Local Abbreviation batch_frames :=
  (Pipeline.batch_frames extract_date_yevmiye extract_icra_dairesi).
Local Abbreviation batch_failures :=
  (Pipeline.batch_failures extract_date_yevmiye extract_icra_dairesi).
Local Abbreviation process_multiple_pdfs :=
  (Pipeline.process_multiple_pdfs extract_date_yevmiye extract_icra_dairesi).
Local Abbreviation process_pdf_files :=
  (Pipeline.process_pdf_files extract_date_yevmiye extract_icra_dairesi).
Local Abbreviation run_job :=
  (Pipeline.run_job extract_date_yevmiye extract_icra_dairesi).

Lemma general_info_needs_integer (col_1 col_2 : DataFrame)
  (others : list DataFrame) (c : cell) (e : exn) :
  iloc col_1 1 1 = Ok c ->
  DataExtractor.py_int (py_str c) = Raise e ->
  DataExtractor.extract_general_info (col_1 :: col_2 :: others) = None.
Proof.
  intros Hc Hi. unfold DataExtractor.extract_general_info.
  rewrite Hc. cbn [bind]. rewrite Hi. reflexivity.
Qed.

Lemma general_info_needs_two_tables (dfs : list DataFrame) :
  length dfs < 2 -> DataExtractor.extract_general_info dfs = None.
Proof.
  destruct dfs as [|a [|b l]]; simpl; intros H; try reflexivity. lia.
Qed.

Lemma process_single_pdf_without_info (d : Pipeline.Document) :
  DataExtractor.extract_general_info (Pipeline.doc_tables d) = None ->
  process_single_pdf d = None.
Proof.
  intros H. unfold Pipeline.process_single_pdf, Pipeline.process_single_pdf_body.
  destruct (Pipeline.doc_tables d); [reflexivity|]. now rewrite H.
Qed.

Lemma process_single_pdf_failure (d : Pipeline.Document) :
  Pipeline.per_document_failure d -> process_single_pdf d = None.
Proof.
  intros [H|[H|[H|[H|[H|H]]]]].
  - apply process_single_pdf_without_info.
    now apply general_info_needs_two_tables.
  - now apply process_single_pdf_without_info.
  - destruct H as (c1 & c2 & o & c & e & Ht & Hc & Hi).
    apply process_single_pdf_without_info. rewrite Ht.
    eapply general_info_needs_integer; eauto.
  - unfold Pipeline.process_single_pdf, Pipeline.process_single_pdf_body.
    destruct (Pipeline.doc_tables d) as [|t ts] eqn:Et; [reflexivity|].
    destruct (DataExtractor.extract_general_info (t :: ts)); [|reflexivity].
    unfold DataExtractor.extract_mulkiyete_ait_serh_beyan. rewrite H.
    reflexivity.
  - destruct H as (df & Hdf & He).
    unfold Pipeline.process_single_pdf, Pipeline.process_single_pdf_body.
    destruct (Pipeline.doc_tables d) as [|t ts] eqn:Et; [reflexivity|].
    destruct (DataExtractor.extract_general_info (t :: ts)); [|reflexivity].
    rewrite Hdf. cbn [bind]. now rewrite He.
  - destruct H as (e & He).
    unfold Pipeline.process_single_pdf, Pipeline.process_single_pdf_body.
    destruct (Pipeline.doc_tables d) as [|t ts] eqn:Et; [reflexivity|].
    destruct (DataExtractor.extract_general_info (t :: ts)); [|reflexivity].
    rewrite He. reflexivity.
Qed.

Lemma usable_none (d : Pipeline.Document) :
  process_single_pdf d = None -> usable d = None.
Proof. unfold Pipeline.usable. now intros ->. Qed.

Lemma loop_closed_form (callback : bool) (total : nat)
  (pdfs : list Pipeline.Document) :
  forall s index,
    let s' := Pipeline.loop extract_date_yevmiye extract_icra_dairesi
                callback total s index pdfs in
    Pipeline.frames s' = Pipeline.frames s ++ batch_frames pdfs
    /\ Pipeline.failures s' = Pipeline.failures s + batch_failures pdfs
    /\ exists evs, Pipeline.emitted s' = Pipeline.emitted s ++ evs
                   /\ Pipeline.progress_only evs.
Proof.
  induction pdfs as [|d pdfs IH]; intros s index; cbv zeta.
  - simpl. rewrite app_nil_r, Nat.add_0_r. split; [reflexivity|].
    split; [reflexivity|]. exists []. rewrite app_nil_r.
    split; [reflexivity|constructor].
  - cbn [Pipeline.loop].
    specialize (IH (Pipeline.loop_step extract_date_yevmiye extract_icra_dairesi
                      callback total s index d) (S index)).
    cbv zeta in IH. destruct IH as (Hf & Hn & evs & He & Hp).
    rewrite Hf, Hn, He. clear Hf Hn He.
    unfold Pipeline.batch_frames, Pipeline.batch_failures.
    cbn [flat_map filter].
    unfold Pipeline.loop_step, Pipeline.usable.
    destruct (process_single_pdf d) as [[|r recs]|];
      cbn [Pipeline.frames Pipeline.failures Pipeline.emitted length app].
    + split; [reflexivity|]. split; [lia|].
      eexists. rewrite <- app_assoc. split; [reflexivity|].
      apply Forall_app. split; [|exact Hp].
      destruct callback; repeat constructor.
    + split; [now rewrite <- app_assoc|]. split; [reflexivity|].
      eexists. rewrite <- app_assoc. split; [reflexivity|].
      apply Forall_app. split; [|exact Hp].
      destruct callback; repeat constructor.
    + split; [reflexivity|]. split; [lia|].
      eexists. rewrite <- app_assoc. split; [reflexivity|].
      apply Forall_app. split; [|exact Hp].
      destruct callback; repeat constructor.
Qed.

(** The frame and the failure count of a batch. *)
Lemma process_multiple_pdfs_result (callback : bool)
  (pdfs : list Pipeline.Document) :
  fst (fst (process_multiple_pdfs callback pdfs)) = concat (batch_frames pdfs)
  /\ snd (fst (process_multiple_pdfs callback pdfs)) = batch_failures pdfs.
Proof.
  unfold Pipeline.process_multiple_pdfs.
  pose proof (loop_closed_form callback (length pdfs) pdfs
                {| Pipeline.frames := []; Pipeline.failures := 0;
                   Pipeline.emitted := Pipeline.emit callback
                                         (Pipeline.EvStart (length pdfs)) |} 1) as H.
  cbv zeta in H. destruct H as (Hf & Hn & _). simpl in Hf, Hn.
  destruct (Pipeline.frames _) as [|f fs] eqn:E; simpl.
  - rewrite <- Hf. auto.
  - rewrite <- Hf. auto.
Qed.

Lemma batch_frames_app (a b : list Pipeline.Document) :
  batch_frames (a ++ b) = batch_frames a ++ batch_frames b.
Proof. unfold Pipeline.batch_frames. apply flat_map_app. Qed.

Lemma batch_failures_app (a b : list Pipeline.Document) :
  batch_failures (a ++ b) = batch_failures a + batch_failures b.
Proof.
  unfold Pipeline.batch_failures. now rewrite filter_app, length_app.
Qed.

Lemma process_multiple_pdfs_skips (callback : bool)
  (before after : list Pipeline.Document) (d : Pipeline.Document) :
  process_single_pdf d = None ->
  fst (fst (process_multiple_pdfs callback (before ++ d :: after)))
  = fst (fst (process_multiple_pdfs callback before))
    ++ fst (fst (process_multiple_pdfs callback after))
  /\ snd (fst (process_multiple_pdfs callback (before ++ d :: after)))
     = snd (fst (process_multiple_pdfs callback before)) + 1
       + snd (fst (process_multiple_pdfs callback after)).
Proof.
  intros Hd. apply usable_none in Hd.
  destruct (process_multiple_pdfs_result callback (before ++ d :: after)) as [-> ->].
  destruct (process_multiple_pdfs_result callback before) as [-> ->].
  destruct (process_multiple_pdfs_result callback after) as [-> ->].
  change (d :: after) with ([d] ++ after).
  rewrite !batch_frames_app, !batch_failures_app, !concat_app.
  unfold Pipeline.batch_frames at 2. unfold Pipeline.batch_failures at 2.
  cbn [flat_map filter]. rewrite Hd. simpl. split; [reflexivity|lia].
Qed.

(** C6.  A document that fails in one of the listed ways yields no
    frame and counts as one failure; the batch never raises: its frame
    is the concatenation of the frames of the documents that did not
    fail and its counter the number of those that did; so the records
    of the documents before and after a failing one are all in the
    result. *)
Theorem document_failure_is_isolated :
  (forall d,
     Pipeline.per_document_failure d ->
     process_single_pdf d = None
     /\ batch_frames [d] = []
     /\ batch_failures [d] = 1)
  /\ (forall callback pdfs,
        fst (fst (process_multiple_pdfs callback pdfs)) = concat (batch_frames pdfs)
        /\ snd (fst (process_multiple_pdfs callback pdfs)) = batch_failures pdfs)
  /\ (forall callback before d after,
        Pipeline.per_document_failure d ->
        fst (fst (process_multiple_pdfs callback (before ++ d :: after)))
        = fst (fst (process_multiple_pdfs callback before))
          ++ fst (fst (process_multiple_pdfs callback after))
        /\ snd (fst (process_multiple_pdfs callback (before ++ d :: after)))
           = snd (fst (process_multiple_pdfs callback before)) + 1
             + snd (fst (process_multiple_pdfs callback after))).
Proof.
  split; [|split].
  - intros d Hd. apply process_single_pdf_failure in Hd.
    split; [exact Hd|]. apply usable_none in Hd.
    unfold Pipeline.batch_frames, Pipeline.batch_failures.
    cbn [flat_map filter]. rewrite Hd. split; reflexivity.
  - apply process_multiple_pdfs_result.
  - intros callback before d after Hd.
    apply process_multiple_pdfs_skips. now apply process_single_pdf_failure.
Qed.

Lemma assemble_general (name : text) (info : DataExtractor.GeneralInfo)
  (rs : list (list cell)) (a : list DataExtractor.Aciklama)
  (dy : list (cell * cell)) (i : list cell) :
  Forall (fun r => Pipeline.general r = info /\ Pipeline.source_file r = name)
         (Pipeline.assemble name info rs a dy i).
Proof.
  unfold Pipeline.assemble. apply Forall_forall. intros r Hr.
  apply in_map_iff in Hr. destruct Hr as ([[[r0 a1] d1] i1] & <- & _).
  split; reflexivity.
Qed.

Lemma process_single_pdf_general (d : Pipeline.Document)
  (recs : list Pipeline.Record_) :
  process_single_pdf d = Some recs ->
  exists info,
    DataExtractor.extract_general_info (Pipeline.doc_tables d) = Some info
    /\ Forall (fun r => Pipeline.general r = info
                        /\ Pipeline.source_file r = Pipeline.doc_name d) recs.
Proof.
  unfold Pipeline.process_single_pdf, Pipeline.process_single_pdf_body.
  destruct (Pipeline.doc_tables d) as [|t ts]; [discriminate|].
  destruct (DataExtractor.extract_general_info (t :: ts)) as [info|];
    [|discriminate].
  destruct (DataExtractor.extract_mulkiyete_ait_serh_beyan (t :: ts)) as [df|];
    [|discriminate].
  cbn [bind]. destruct (frame_empty df); [discriminate|].
  destruct (DataExtractor.extract_aciklama _) as [a|]; [|discriminate].
  cbn [bind]. destruct (extract_date_yevmiye _) as [dy|]; [|discriminate].
  cbn [bind]. destruct (extract_icra_dairesi _) as [i|]; [|discriminate].
  cbn [bind]. intros H. inversion H; subst recs.
  exists info. split; [reflexivity|apply assemble_general].
Qed.

Lemma usable_some (d : Pipeline.Document) (recs : list Pipeline.Record_) :
  usable d = Some recs -> process_single_pdf d = Some recs /\ recs <> [].
Proof.
  unfold Pipeline.usable.
  destruct (process_single_pdf d) as [[|r l]|]; try discriminate.
  intros H. inversion H. split; [reflexivity|discriminate].
Qed.

Lemma in_batch_frames (pdfs : list Pipeline.Document)
  (recs : list Pipeline.Record_) :
  In recs (batch_frames pdfs) ->
  exists d, In d pdfs /\ process_single_pdf d = Some recs /\ recs <> [].
Proof.
  unfold Pipeline.batch_frames. intros H. apply in_flat_map in H.
  destruct H as (d & Hd & Hr). exists d. split; [exact Hd|].
  destruct (usable d) as [r|] eqn:E; [|contradiction].
  destruct Hr as [<-|[]]. now apply usable_some.
Qed.

Lemma extract_general_info_complete (dfs : list DataFrame)
  (info : DataExtractor.GeneralInfo) :
  DataExtractor.extract_general_info dfs = Some info ->
  exists col_1 col_2 others c11 c21 c31 c41 d01 d21 d51,
    dfs = col_1 :: col_2 :: others
    /\ iloc col_1 1 1 = Ok c11 /\ iloc col_1 2 1 = Ok c21
    /\ iloc col_1 3 1 = Ok c31 /\ iloc col_1 4 1 = Ok c41
    /\ iloc col_2 0 1 = Ok d01 /\ iloc col_2 2 1 = Ok d21
    /\ iloc col_2 5 1 = Ok d51
    /\ DataExtractor.py_int (py_str c11) = Ok (DataExtractor.tasinmaz_kimlik_no info)
    /\ (DataExtractor.il info, DataExtractor.ilce info)
       = TextProcessor.extract_il_ilce (py_str c21)
    /\ (DataExtractor.blok info, DataExtractor.kat info,
        DataExtractor.giris info, DataExtractor.bbno info)
       = TextProcessor.extract_blok_kat_giris_bbno (py_str d51)
    /\ DataExtractor.kurum_adi info = TextProcessor.clean (CStr (py_str c31))
    /\ DataExtractor.mahalle info = TextProcessor.capitalize (CStr (py_str c41))
    /\ (DataExtractor.ada info, DataExtractor.parsel info)
       = TextProcessor.extract_ada_parsel (py_str d01)
    /\ DataExtractor.bagimsiz_bolum_nitelik info
       = TextProcessor.capitalize
           (of_option (TextProcessor.clean (CStr (py_str d21)))).
Proof.
  unfold DataExtractor.extract_general_info.
  destruct dfs as [|col_1 [|col_2 others]]; try discriminate.
  destruct (iloc col_1 1 1) as [c11|] eqn:E11; [|discriminate]. cbn [bind].
  destruct (DataExtractor.py_int (py_str c11)) as [z|] eqn:Ez; [|discriminate].
  cbn [bind].
  destruct (iloc col_1 2 1) as [c21|] eqn:E21; [|discriminate]. cbn [bind].
  destruct (TextProcessor.extract_il_ilce (py_str c21)) as [il ilce] eqn:Eil.
  destruct (iloc col_2 5 1) as [d51|] eqn:E51; [|discriminate]. cbn [bind].
  destruct (TextProcessor.extract_blok_kat_giris_bbno (py_str d51))
    as [[[blok kat] giris] bbno] eqn:Eb.
  destruct (iloc col_1 3 1) as [c31|] eqn:E31; [|discriminate]. cbn [bind].
  destruct (iloc col_1 4 1) as [c41|] eqn:E41; [|discriminate]. cbn [bind].
  destruct (iloc col_2 0 1) as [d01|] eqn:E01; [|discriminate]. cbn [bind].
  destruct (TextProcessor.extract_ada_parsel (py_str d01)) as [ada parsel] eqn:Ea.
  destruct (iloc col_2 2 1) as [d21|] eqn:E21'; [|discriminate]. cbn [bind].
  intros H. inversion H; subst info. clear H.
  exists col_1, col_2, others, c11, c21, c31, c41, d01, d21, d51.
  cbn. repeat split; auto.
Qed.

(** C7.  A general info is produced only when every positional read
    succeeded and the identity number parsed, and then it holds all
    twelve fields; the records of a processed document all carry the
    general info and the name of that document; so does every record of
    a batch, for the document it comes from; a failing document
    contributes none. *)
Theorem record_carries_own_general_info :
  (forall dfs info,
     DataExtractor.extract_general_info dfs = Some info ->
     exists col_1 col_2 others c11 c21 c31 c41 d01 d21 d51,
       dfs = col_1 :: col_2 :: others
       /\ iloc col_1 1 1 = Ok c11 /\ iloc col_1 2 1 = Ok c21
       /\ iloc col_1 3 1 = Ok c31 /\ iloc col_1 4 1 = Ok c41
       /\ iloc col_2 0 1 = Ok d01 /\ iloc col_2 2 1 = Ok d21
       /\ iloc col_2 5 1 = Ok d51
       /\ DataExtractor.py_int (py_str c11)
          = Ok (DataExtractor.tasinmaz_kimlik_no info)
       /\ (DataExtractor.il info, DataExtractor.ilce info)
          = TextProcessor.extract_il_ilce (py_str c21)
       /\ (DataExtractor.blok info, DataExtractor.kat info,
           DataExtractor.giris info, DataExtractor.bbno info)
          = TextProcessor.extract_blok_kat_giris_bbno (py_str d51)
       /\ DataExtractor.kurum_adi info = TextProcessor.clean (CStr (py_str c31))
       /\ DataExtractor.mahalle info = TextProcessor.capitalize (CStr (py_str c41))
       /\ (DataExtractor.ada info, DataExtractor.parsel info)
          = TextProcessor.extract_ada_parsel (py_str d01)
       /\ DataExtractor.bagimsiz_bolum_nitelik info
          = TextProcessor.capitalize
              (of_option (TextProcessor.clean (CStr (py_str d21)))))
  /\ (forall d recs,
        process_single_pdf d = Some recs ->
        exists info,
          DataExtractor.extract_general_info (Pipeline.doc_tables d) = Some info
          /\ Forall (fun r => Pipeline.general r = info
                              /\ Pipeline.source_file r = Pipeline.doc_name d)
                    recs)
  /\ (forall callback pdfs r,
        In r (fst (fst (process_multiple_pdfs callback pdfs))) ->
        exists d recs info,
          In d pdfs
          /\ process_single_pdf d = Some recs
          /\ In r recs
          /\ DataExtractor.extract_general_info (Pipeline.doc_tables d) = Some info
          /\ Pipeline.general r = info
          /\ Pipeline.source_file r = Pipeline.doc_name d)
  /\ (forall d,
        Pipeline.per_document_failure d ->
        process_single_pdf d = None /\ batch_frames [d] = []).
Proof.
  split; [exact extract_general_info_complete|].
  split; [exact process_single_pdf_general|].
  split.
  - intros callback pdfs r Hr.
    destruct (process_multiple_pdfs_result callback pdfs) as [Hf _].
    rewrite Hf in Hr. apply in_concat in Hr. destruct Hr as (recs & Hrecs & Hin).
    apply in_batch_frames in Hrecs. destruct Hrecs as (d & Hd & Hp & _).
    destruct (process_single_pdf_general _ Hp) as (info & Hi & Hall).
    rewrite Forall_forall in Hall. destruct (Hall r Hin) as [Hg Hs].
    exists d, recs, info. repeat split; auto.
  - intros d Hd. apply process_single_pdf_failure in Hd.
    split; [exact Hd|]. apply usable_none in Hd.
    unfold Pipeline.batch_frames. cbn [flat_map]. now rewrite Hd.
Qed.

End PipelineFacts.

(** ** The events of a job *)

Lemma event_stream_app (body tail : list Pipeline.event) (e : Pipeline.event) :
  Forall (fun x => Pipeline.terminal x = false) body ->
  Pipeline.terminal e = true ->
  Pipeline.event_stream (body ++ e :: tail) = body ++ [e].
Proof.
  induction body as [|b body IH]; intros Hb He; simpl.
  - now rewrite He.
  - inversion Hb as [|? ? Hb1 Hb2]; subst. rewrite Hb1. now rewrite IH.
Qed.

Lemma progress_only_not_terminal (evs : list Pipeline.event) :
  Pipeline.progress_only evs ->
  Forall (fun x => Pipeline.terminal x = false) evs.
Proof.
  unfold Pipeline.progress_only. apply Forall_impl.
  intros e. destruct e; simpl; intros H; try contradiction; reflexivity.
Qed.

Lemma queue_fold_emit (evs : list Pipeline.event) :
  forall job,
    Pipeline.queue (fold_left Pipeline.emit_job_event evs job)
    = Pipeline.queue job ++ evs.
Proof.
  induction evs as [|e evs IH]; intros job; simpl.
  - now rewrite app_nil_r.
  - rewrite IH. unfold Pipeline.emit_job_event.
    destruct e; simpl; now rewrite <- app_assoc.
Qed.

Lemma queue_emit (job : Pipeline.Job) (e : Pipeline.event) :
  Pipeline.queue (Pipeline.emit_job_event job e) = Pipeline.queue job ++ [e].
Proof. unfold Pipeline.emit_job_event. destruct e; reflexivity. Qed.

Lemma terminal_false_shape (body : list Pipeline.event) :
  Forall (fun e => Pipeline.terminal e = false) body ->
  Forall (fun e => match e with
                   | Pipeline.EvFinished | Pipeline.EvError _ => False
                   | _ => True
                   end) body.
Proof.
  apply Forall_impl. intros e. destruct e; simpl; auto; discriminate.
Qed.

Lemma queue_shape_finished (body q : list Pipeline.event) (all_failed : Prop) :
  Forall (fun e => Pipeline.terminal e = false) body ->
  ~ all_failed ->
  q = body ++ [Pipeline.EvFinished] ->
  Pipeline.queue_shape q all_failed (Pipeline.event_stream q).
Proof.
  intros Hb Hn ->. exists body, [Pipeline.EvFinished].
  split; [reflexivity|]. split; [now apply terminal_false_shape|].
  split; [now left|]. split; [now apply event_stream_app|]. tauto.
Qed.

Lemma queue_shape_errors2 (body q : list Pipeline.event) (all_failed : Prop)
  (a b : text) :
  Forall (fun e => Pipeline.terminal e = false) body ->
  ~ all_failed ->
  q = body ++ [Pipeline.EvError a; Pipeline.EvError b] ->
  Pipeline.queue_shape q all_failed (Pipeline.event_stream q).
Proof.
  intros Hb Hn ->. exists body, [Pipeline.EvError a; Pipeline.EvError b].
  split; [reflexivity|]. split; [now apply terminal_false_shape|].
  split; [right; left; eauto|]. split; [now apply event_stream_app|]. tauto.
Qed.

Lemma queue_shape_errors3 (body q : list Pipeline.event) (all_failed : Prop)
  (a b c : text) :
  Forall (fun e => Pipeline.terminal e = false) body ->
  q = body ++ [Pipeline.EvError a; Pipeline.EvError b; Pipeline.EvError c] ->
  Pipeline.queue_shape q all_failed (Pipeline.event_stream q).
Proof.
  intros Hb ->.
  exists body, [Pipeline.EvError a; Pipeline.EvError b; Pipeline.EvError c].
  split; [reflexivity|]. split; [now apply terminal_false_shape|].
  split; [right; right; eauto|]. split; [now apply event_stream_app|]. eauto.
Qed.

Section JobFacts.

Variable extract_date_yevmiye : list cell -> result (list (cell * cell)).
Variable extract_icra_dairesi : list cell -> result (list cell).

Local Abbreviation batch_frames :=
  (Pipeline.batch_frames extract_date_yevmiye extract_icra_dairesi).
Local Abbreviation process_multiple_pdfs :=
  (Pipeline.process_multiple_pdfs extract_date_yevmiye extract_icra_dairesi).
Local Abbreviation process_pdf_files :=
  (Pipeline.process_pdf_files extract_date_yevmiye extract_icra_dairesi).
Local Abbreviation run_job :=
  (Pipeline.run_job extract_date_yevmiye extract_icra_dairesi).

Lemma batch_frames_concat_nil (pdfs : list Pipeline.Document) :
  concat (batch_frames pdfs) = [] -> batch_frames pdfs = [].
Proof.
  intros H. destruct (batch_frames pdfs) as [|f fs] eqn:E; [reflexivity|].
  assert (Hin : In f (batch_frames pdfs)) by (rewrite E; now left).
  apply in_batch_frames in Hin. destruct Hin as (d & _ & _ & Hne).
  simpl in H. apply app_eq_nil in H. destruct H as [H _]. contradiction.
Qed.

(** The events [process_multiple_pdfs] passes to its callback. *)
Lemma process_multiple_pdfs_events (pdfs : list Pipeline.Document) :
  exists evs,
    Pipeline.progress_only evs
    /\ fst (fst (process_multiple_pdfs true pdfs)) = concat (batch_frames pdfs)
    /\ snd (process_multiple_pdfs true pdfs)
       = Pipeline.EvStart (length pdfs) :: evs
         ++ [match batch_frames pdfs with
             | [] => Pipeline.EvError (txt "No dataframes produced from any PDF")
             | _ :: _ =>
                 Pipeline.EvComplete (length (batch_frames pdfs))
                   (Pipeline.batch_failures extract_date_yevmiye
                      extract_icra_dairesi pdfs)
             end].
Proof.
  unfold Pipeline.process_multiple_pdfs. cbn [Pipeline.emit].
  pose proof (loop_closed_form extract_date_yevmiye extract_icra_dairesi
                true (length pdfs) pdfs
                {| Pipeline.frames := []; Pipeline.failures := 0;
                   Pipeline.emitted := [Pipeline.EvStart (length pdfs)] |} 1) as H.
  cbv zeta in H. destruct H as (Hf & Hn & evs & He & Hp).
  cbn [Pipeline.frames Pipeline.failures Pipeline.emitted app Nat.add] in Hf, Hn, He.
  exists evs. split; [exact Hp|].
  rewrite Hf, He, Hn.
  destruct (batch_frames pdfs) as [|f fs]; simpl; rewrite <- ?app_assoc; auto.
Qed.

(** C9 (amended).  The queue of a job is a run of events none of which
    is terminal, followed by one finished event, or by two error
    events, or by three; when no document yields records it is three
    error events.  So nothing is written after a finished event and
    only error events after a first error event; [event_stream] yields
    the queue up to the first terminal event and no further. *)
Theorem job_queue_ends_with_terminal_events
  (pdfs : list Pipeline.Document) (fmt : Pipeline.output_format)
  (write_ok : bool) :
  exists body tail,
    Pipeline.queue (run_job pdfs fmt write_ok) = body ++ tail
    /\ Forall (fun e => Pipeline.terminal e = false) body
    /\ (tail = [Pipeline.EvFinished]
        \/ (exists a b, tail = [Pipeline.EvError a; Pipeline.EvError b])
        \/ (exists a b c,
              tail = [Pipeline.EvError a; Pipeline.EvError b; Pipeline.EvError c]))
    /\ Pipeline.event_stream (Pipeline.queue (run_job pdfs fmt write_ok))
       = body ++ firstn 1 tail
    /\ (batch_frames pdfs = [] ->
        exists a b c,
          tail = [Pipeline.EvError a; Pipeline.EvError b; Pipeline.EvError c]).
Proof.
  enough (H : Pipeline.queue_shape
                (Pipeline.queue (run_job pdfs fmt write_ok))
                (batch_frames pdfs = [])
                (Pipeline.event_stream (Pipeline.queue (run_job pdfs fmt write_ok)))).
  { destruct H as (body & tail & Hq & Hb & Ht & Hs & Ha).
    exists body, tail. repeat split; auto.
    eapply Forall_impl; [|exact Hb]. intros e. destruct e; simpl; tauto. }
  destruct (process_multiple_pdfs_events pdfs) as (evs & Hp & Hdf & Hev).
  apply progress_only_not_terminal in Hp.
  unfold Pipeline.run_job, Pipeline.process_job, Pipeline.process_pdf_files.
  destruct (process_multiple_pdfs true pdfs) as [[df fails] ev].
  simpl in Hdf, Hev. subst df ev.
  destruct (batch_frames pdfs) as [|f fs] eqn:Ebf.
  - simpl concat. cbv iota. cbn [Pipeline.emit].
    rewrite queue_emit, queue_fold_emit, queue_emit.
    eapply queue_shape_errors3 with
      (body := Pipeline.EvQueued :: Pipeline.EvStart (length pdfs) :: evs).
    + repeat (constructor; [reflexivity|]); exact Hp.
    + simpl. rewrite <- !app_assoc. reflexivity.
  - assert (Hne : concat (f :: fs) <> []).
    { intros H. rewrite <- Ebf in H. apply batch_frames_concat_nil in H.
      rewrite Ebf in H. discriminate. }
    destruct (concat (f :: fs)) as [|r rs] eqn:Ec; [contradiction|].
    set (done := Pipeline.EvComplete (length (f :: fs))
                   (Pipeline.batch_failures extract_date_yevmiye
                      extract_icra_dairesi pdfs)).
    assert (Hbody : Forall (fun e => Pipeline.terminal e = false)
                      (Pipeline.EvQueued :: Pipeline.EvStart (length pdfs)
                         :: evs ++ [done])).
    { repeat (constructor; [reflexivity|]).
      apply Forall_app. split; [exact Hp|repeat constructor]. }
    assert (Hbody2 : Forall (fun e => Pipeline.terminal e = false)
                       (Pipeline.EvQueued :: Pipeline.EvStart (length pdfs)
                          :: evs ++ [done; Pipeline.EvOutputReady])).
    { repeat (constructor; [reflexivity|]).
      apply Forall_app. split; [exact Hp|repeat constructor]. }
    destruct fmt; cbn [Pipeline.emit]; try destruct write_ok;
      rewrite ?queue_emit; cbn [Pipeline.queue];
      rewrite ?queue_fold_emit, ?queue_emit.
    all: first
      [ apply queue_shape_finished with (1 := Hbody2);
        [discriminate | simpl; rewrite <- !app_assoc; reflexivity]
      | eapply queue_shape_errors2 with (1 := Hbody);
        [discriminate | simpl; rewrite <- !app_assoc; reflexivity] ].
Qed.

End JobFacts.

(** ** The statements on the sample documents *)

Lemma document_failure_is_isolated_witness :
  let psp := Pipeline.process_multiple_pdfs Pipeline.date_yevmiye_absent
               Pipeline.icra_dairesi_absent true in
  Pipeline.per_document_failure Sample.bad_identity
  /\ fst (fst (psp [Sample.good; Sample.bad_identity; Sample.good]))
     = fst (fst (psp [Sample.good])) ++ fst (fst (psp [Sample.good]))
  /\ snd (fst (psp [Sample.good; Sample.bad_identity; Sample.good]))
     = snd (fst (psp [Sample.good])) + 1 + snd (fst (psp [Sample.good])).
Proof.
  cbv zeta.
  assert (Hbad : Pipeline.per_document_failure Sample.bad_identity).
  { right. right. left.
    exists (Sample.header_1 "12A45"), Sample.header_2, [Sample.restrictions],
           (Sample.s "12A45"), ValueError.
    repeat split; vm_compute; reflexivity. }
  split; [exact Hbad|].
  exact (proj2 (proj2 (document_failure_is_isolated
                         Pipeline.date_yevmiye_absent Pipeline.icra_dairesi_absent))
           true [Sample.good] Sample.bad_identity [Sample.good] Hbad).
Defined.

Lemma record_carries_own_general_info_witness :
  exists recs info,
    Pipeline.process_single_pdf Pipeline.date_yevmiye_absent
      Pipeline.icra_dairesi_absent Sample.good = Some recs
    /\ length recs = 2
    /\ DataExtractor.extract_general_info (Pipeline.doc_tables Sample.good)
       = Some info
    /\ Forall (fun r => Pipeline.general r = info
                        /\ Pipeline.source_file r = txt "tapu1.pdf") recs.
Proof.
  destruct (Pipeline.process_single_pdf Pipeline.date_yevmiye_absent
              Pipeline.icra_dairesi_absent Sample.good) as [recs|] eqn:E;
    [|vm_compute in E; discriminate E].
  destruct (proj1 (proj2 (record_carries_own_general_info
                            Pipeline.date_yevmiye_absent
                            Pipeline.icra_dairesi_absent)) Sample.good recs E)
    as (info & Hi & Hall).
  exists recs, info.
  split; [reflexivity|]. split; [|split; [exact Hi|exact Hall]].
  vm_compute in E. inversion E. reflexivity.
Defined.

(** C9, as stated, fails: a batch whose only document fails has three
    error events written to its queue, not one. *)
Lemma failing_batch_writes_three_errors :
  ~ (forall extract_date_yevmiye extract_icra_dairesi pdfs fmt write_ok,
       (forall d, In d pdfs ->
                  Pipeline.process_single_pdf extract_date_yevmiye
                    extract_icra_dairesi d = None) ->
       length (filter Pipeline.terminal
                 (Pipeline.queue
                    (Pipeline.run_job extract_date_yevmiye extract_icra_dairesi
                       pdfs fmt write_ok))) = 1).
Proof.
  intros H.
  specialize (H Pipeline.date_yevmiye_absent Pipeline.icra_dairesi_absent
                [Sample.no_tables] Pipeline.Excel true).
  assert (Hfail : forall d, In d [Sample.no_tables] ->
            Pipeline.process_single_pdf Pipeline.date_yevmiye_absent
              Pipeline.icra_dairesi_absent d = None).
  { intros d [<-|[]]. reflexivity. }
  specialize (H Hfail). vm_compute in H. discriminate H.
Qed.

Lemma job_queue_ends_with_terminal_events_witness :
  Pipeline.batch_frames Pipeline.date_yevmiye_absent Pipeline.icra_dairesi_absent
    [Sample.no_tables; Sample.bad_identity] = []
  /\ exists body a b c,
       Pipeline.queue
         (Pipeline.run_job Pipeline.date_yevmiye_absent Pipeline.icra_dairesi_absent
            [Sample.no_tables; Sample.bad_identity] Pipeline.Csv true)
       = body ++ [Pipeline.EvError a; Pipeline.EvError b; Pipeline.EvError c]
       /\ Pipeline.event_stream
            (Pipeline.queue
               (Pipeline.run_job Pipeline.date_yevmiye_absent
                  Pipeline.icra_dairesi_absent
                  [Sample.no_tables; Sample.bad_identity] Pipeline.Csv true))
          = body ++ [Pipeline.EvError a].
Proof.
  assert (Hall : Pipeline.batch_frames Pipeline.date_yevmiye_absent
                   Pipeline.icra_dairesi_absent
                   [Sample.no_tables; Sample.bad_identity] = [])
    by (vm_compute; reflexivity).
  split; [exact Hall|].
  destruct (job_queue_ends_with_terminal_events Pipeline.date_yevmiye_absent
              Pipeline.icra_dairesi_absent
              [Sample.no_tables; Sample.bad_identity] Pipeline.Csv true)
    as (body & tail & Hq & _ & _ & Hs & H3).
  destruct (H3 Hall) as (a & b & c & ->).
  exists body, a, b, c. split; [exact Hq|exact Hs].
Defined.

(** * Further properties *)

(** ** Stitching keeps the shape of the table *)

Lemma merged_row_length (prev row : list cell) :
  length (map (fun pr => TableExtractor.merge_cell (fst pr) (snd pr))
              (combine prev row))
  = Nat.min (length prev) (length row).
Proof. now rewrite length_map, length_combine. Qed.

Lemma removelast_last_split A (l : list A) (d : A) :
  l <> [] -> l = removelast l ++ [last l d].
Proof. intros H. now apply app_removelast_last. Qed.

Lemma fix_step_shape (n : nat) (fixed_rows : list (list cell))
  (row : list cell) (res : list (list cell)) :
  Forall (fun r => length r = n) fixed_rows ->
  length row = n ->
  TableExtractor.fix_step fixed_rows row = Ok res ->
  Forall (fun r => length r = n) res
  /\ length res
     = length fixed_rows + (if More.starts_rowb row then 1 else 0).
Proof.
  intros Hf Hr H. unfold TableExtractor.fix_step in H.
  destruct row as [|c0 cs]; [discriminate|].
  unfold More.starts_rowb.
  destruct (TextProcessor.clean c0) as [t|].
  - inversion H; subst res. split.
    + apply Forall_app. split; [exact Hf|]. now repeat constructor.
    + rewrite length_app. reflexivity.
  - destruct fixed_rows as [|f fs] eqn:Ef; [discriminate|].
    rewrite <- Ef in *. assert (Hne : fixed_rows <> []) by (rewrite Ef; discriminate).
    inversion H; subst res. clear H.
    pose proof (removelast_last_split [] Hne) as Hsplit.
    assert (Hl : length (last fixed_rows []) = n).
    { rewrite Hsplit in Hf. apply Forall_app in Hf. destruct Hf as [_ Hf].
      now inversion Hf. }
    split.
    + apply Forall_app. split.
      * rewrite Hsplit in Hf. apply Forall_app in Hf. tauto.
      * constructor; [|constructor]. rewrite merged_row_length, Hl, Hr.
        apply Nat.min_id.
    + assert (Hlen : length fixed_rows = length (removelast fixed_rows) + 1).
      { rewrite Hsplit at 1. now rewrite length_app. }
      rewrite length_app. simpl. lia.
Qed.

Lemma fix_loop_shape (n : nat) (todo : list (list cell)) :
  forall fixed_rows res,
    Forall (fun r => length r = n) fixed_rows ->
    Forall (fun r => length r = n) todo ->
    TableExtractor.fix_loop fixed_rows todo = Ok res ->
    Forall (fun r => length r = n) res
    /\ length res = length fixed_rows + length (filter More.starts_rowb todo).
Proof.
  induction todo as [|row todo IH]; intros fixed_rows res Hf Ht H; simpl in H.
  - inversion H; subst. simpl. split; [assumption|lia].
  - apply Forall_cons_iff in Ht. destruct Ht as [Hr Ht'].
    destruct (TableExtractor.fix_step fixed_rows row) as [f'|] eqn:Es;
      [|discriminate].
    simpl in H.
    destruct (@fix_step_shape n _ _ _ Hf Hr Es) as [Hf' Hlen].
    destruct (IH _ _ Hf' Ht' H) as [Hres Hl].
    split; [exact Hres|]. rewrite Hl, Hlen. simpl.
    destruct (More.starts_rowb row); simpl; lia.
Qed.

(** X1.  On a well-formed table, a result of [fix_continuation] is a
    well-formed table with the same number of columns, and it has one
    row for each input row whose first cell does not normalise to
    empty: continuation rows are merged, never added or lost. *)
Theorem fix_continuation_keeps_shape (df out : DataFrame) :
  wf_frame df ->
  TableExtractor.fix_continuation df = Ok out ->
  ncols out = ncols df
  /\ wf_frame out
  /\ length (rows out) = length (filter More.starts_rowb (rows df))
  /\ length (rows out) <= length (rows df).
Proof.
  unfold TableExtractor.fix_continuation, wf_frame. intros Hwf H.
  destruct (TableExtractor.fix_loop [] (rows df)) as [res|] eqn:E;
    [|discriminate].
  simpl in H. inversion H; subst out. simpl.
  destruct (@fix_loop_shape (ncols df) (rows df) [] res) as [Hres Hlen]; auto.
  simpl in Hlen. repeat split; auto.
  rewrite Hlen. apply filter_length_le.
Qed.

Lemma fix_continuation_keeps_shape_witness :
  let df := Frame 2 [ [CStr (txt "1"); CStr (txt "a")];
                      [CStr (txt " "); CStr (txt "b")];
                      [CStr (txt "2"); CNaN] ] in
  exists out,
    TableExtractor.fix_continuation df = Ok out
    /\ ncols out = 2 /\ length (rows out) = 2.
Proof.
  cbv zeta.
  destruct (TableExtractor.fix_continuation
              (Frame 2 [ [CStr (txt "1"); CStr (txt "a")];
                         [CStr (txt " "); CStr (txt "b")];
                         [CStr (txt "2"); CNaN] ])) as [out|] eqn:E;
    [|vm_compute in E; discriminate E].
  exists out. split; [reflexivity|].
  assert (Hwf : wf_frame (Frame 2 [ [CStr (txt "1"); CStr (txt "a")];
                                    [CStr (txt " "); CStr (txt "b")];
                                    [CStr (txt "2"); CNaN] ]))
    by (repeat constructor).
  destruct (fix_continuation_keeps_shape Hwf E) as (Hc & _ & Hl & _).
  split; [exact Hc|]. rewrite Hl. vm_compute. reflexivity.
Defined.

(** X2.  A table none of whose rows is a continuation row (every row
    has a first cell that does not normalise to empty) is returned as
    it is. *)
Theorem fix_continuation_identity (df : DataFrame) :
  Forall TableExtractor.starts_row (rows df) ->
  TableExtractor.fix_continuation df = Ok df.
Proof.
  intros H. unfold TableExtractor.fix_continuation.
  rewrite (fix_loop_fixed_point [] H). simpl. now destruct df.
Qed.

Lemma fix_continuation_identity_witness :
  TableExtractor.fix_continuation
    (Frame 2 [[CStr (txt "1"); CStr (txt "a")]; [CNaN; CNone]])
  = Ok (Frame 2 [[CStr (txt "1"); CStr (txt "a")]; [CNaN; CNone]]).
Proof.
  apply fix_continuation_identity. simpl.
  repeat constructor; vm_compute; discriminate.
Defined.

(** ** [clean] is a normal form *)

Lemma split_ws_word (w : text) :
  forall cur rest,
    forallb Str.non_space w = true ->
    Str.split_ws cur (w ++ rest) = Str.split_ws (cur ++ w) rest.
Proof.
  induction w as [|c w IH]; intros cur rest H; simpl.
  - now rewrite app_nil_r.
  - simpl in H. apply andb_true_iff in H. destruct H as [Hc Hw].
    unfold Str.non_space in Hc. apply negb_true_iff in Hc. rewrite Hc.
    rewrite IH by exact Hw. now rewrite <- app_assoc.
Qed.

Lemma split_join_words (ws : list text) :
  Forall Str.is_word ws ->
  Str.split (Str.join (txt " ") ws) = ws.
Proof.
  unfold Str.split. induction ws as [|w ws IH]; intros H; [reflexivity|].
  inversion H as [|? ? [Hne Hw] Hws]; subst.
  destruct ws as [|w' ws].
  - simpl. rewrite <- (app_nil_r w) at 1. rewrite split_ws_word by exact Hw.
    simpl. destruct w; [contradiction|reflexivity].
  - change (Str.join (txt " ") (w :: w' :: ws))
      with (w ++ 32%N :: Str.join (txt " ") (w' :: ws)).
    rewrite split_ws_word by exact Hw. simpl app.
    cbn [Str.split_ws]. change (Str.is_space 32) with true. cbv iota.
    rewrite IH by exact Hws. destruct w; [contradiction|reflexivity].
Qed.

Lemma word_without_newline (w : text) :
  forallb Str.non_space w = true -> Str.remove_char 10 w = w.
Proof.
  induction w as [|c w IH]; intros H; [reflexivity|].
  simpl in H. apply andb_true_iff in H. destruct H as [Hc Hw].
  simpl. destruct (c =? 10)%N eqn:E.
  - apply N.eqb_eq in E. subst c. discriminate Hc.
  - simpl. now rewrite IH.
Qed.

Lemma join_without_newline (ws : list text) :
  Forall Str.is_word ws ->
  Str.remove_char 10 (Str.join (txt " ") ws) = Str.join (txt " ") ws.
Proof.
  induction ws as [|w ws IH]; intros H; [reflexivity|].
  inversion H as [|? ? [Hne Hw] Hws]; subst.
  destruct ws as [|w' ws].
  - simpl. now apply word_without_newline.
  - change (Str.join (txt " ") (w :: w' :: ws))
      with (w ++ 32%N :: Str.join (txt " ") (w' :: ws)).
    assert (Happ : forall a b : text,
              Str.remove_char 10 (a ++ b)
              = Str.remove_char 10 a ++ Str.remove_char 10 b)
      by (intros a b; apply filter_app).
    rewrite Happ, word_without_newline by exact Hw.
    change (32%N :: Str.join (txt " ") (w' :: ws))
      with ([32%N] ++ Str.join (txt " ") (w' :: ws)).
    rewrite Happ, IH by exact Hws. reflexivity.
Qed.

Lemma clean_of_join (ws : list text) :
  Forall Str.is_word ws -> ws <> [] ->
  TextProcessor.clean (CStr (Str.join (txt " ") ws))
  = Some (Str.join (txt " ") ws).
Proof.
  intros Hw Hne. unfold TextProcessor.clean. simpl py_str.
  rewrite join_without_newline, split_join_words by exact Hw.
  destruct ws as [|w ws']; [contradiction|].
  simpl length. cbn [Nat.ltb Nat.leb].
  now rewrite strip_join_words by (auto; discriminate).
Qed.

(** X3.  A result of [clean] is left as it is by [clean]; it holds no
    newline, and neither starts nor ends with whitespace. *)
Theorem clean_idempotent (s t : text) :
  TextProcessor.clean (CStr s) = Some t ->
  TextProcessor.clean (CStr t) = Some t
  /\ ~ In 10%N t
  /\ Str.strip t = t.
Proof.
  intros H. destruct (clean_some _ H) as (Ht & Hne & Hw & _).
  set (ws := Str.split (Str.remove_char 10 s)) in *.
  assert (Hs : Str.strip t = t) by (rewrite Ht; now apply strip_join_words).
  assert (Hn : Str.remove_char 10 t = t)
    by (rewrite Ht; now apply join_without_newline).
  split; [|split; [|exact Hs]].
  - rewrite Ht. now apply clean_of_join.
  - intros Hin. rewrite <- Hn in Hin. unfold Str.remove_char in Hin.
    apply filter_In in Hin. destruct Hin as [_ Hin]. discriminate Hin.
Qed.

Lemma clean_idempotent_witness :
  TextProcessor.clean (CStr (txt "  kat   1 " ++ [10%N] ++ txt " a")) = Some (txt "kat 1 a")
  /\ TextProcessor.clean (CStr (txt "kat 1 a")) = Some (txt "kat 1 a").
Proof.
  assert (H : TextProcessor.clean (CStr (txt "  kat   1 " ++ [10%N] ++ txt " a"))
              = Some (txt "kat 1 a")) by (vm_compute; reflexivity).
  split; [exact H|exact (proj1 (clean_idempotent _ H))].
Defined.

(** ** The splitters of text_processor.py read fields by position *)

Lemma split_on_prefix (sep : N) (a : text) :
  forall cur rest,
    ~ In sep a ->
    Str.split_on_aux sep cur (a ++ rest) = Str.split_on_aux sep (cur ++ a) rest.
Proof.
  induction a as [|c a IH]; intros cur rest H; simpl.
  - now rewrite app_nil_r.
  - destruct (c =? sep)%N eqn:E.
    + apply N.eqb_eq in E. subst c. exfalso. apply H. now left.
    + rewrite IH by (intros Hin; apply H; now right).
      now rewrite <- app_assoc.
Qed.

Lemma split_on_whole (sep : N) (a : text) :
  ~ In sep a -> Str.split_on sep a = [a].
Proof.
  intros H. unfold Str.split_on. rewrite <- (app_nil_r a) at 1.
  now rewrite split_on_prefix.
Qed.

Lemma split_on_cons (sep : N) (a rest : text) :
  ~ In sep a ->
  Str.split_on sep (a ++ sep :: rest) = a :: Str.split_on sep rest.
Proof.
  intros H. unfold Str.split_on. rewrite split_on_prefix by exact H.
  simpl. now rewrite N.eqb_refl.
Qed.

Lemma split_on_nonempty (sep : N) (s : text) : Str.split_on sep s <> [].
Proof.
  unfold Str.split_on. generalize (@nil N) as cur.
  induction s as [|c s IH]; intros cur; simpl; [discriminate|].
  destruct (c =? sep)%N; [discriminate|apply IH].
Qed.

(** X4.  [extract_ada_parsel] and [extract_il_ilce] return no value at
    all for a text without a slash; otherwise they return the first
    two fields, cleaned (and put in title case for the province and
    the district), whatever follows the second field. *)
Theorem pair_splitters_read_two_fields :
  (forall value,
     ~ In 47%N value ->
     TextProcessor.extract_ada_parsel value = (None, None)
     /\ TextProcessor.extract_il_ilce value = (None, None))
  /\ (forall a b,
        ~ In 47%N a -> ~ In 47%N b ->
        TextProcessor.extract_ada_parsel (a ++ 47%N :: b)
        = (TextProcessor.clean (CStr a), TextProcessor.clean (CStr b))
        /\ TextProcessor.extract_il_ilce (a ++ 47%N :: b)
           = (TextProcessor.capitalize (of_option (TextProcessor.clean (CStr a))),
              TextProcessor.capitalize (of_option (TextProcessor.clean (CStr b)))))
  /\ (forall a b more,
        ~ In 47%N a -> ~ In 47%N b ->
        TextProcessor.extract_ada_parsel (a ++ 47%N :: b ++ 47%N :: more)
        = TextProcessor.extract_ada_parsel (a ++ 47%N :: b)
        /\ TextProcessor.extract_il_ilce (a ++ 47%N :: b ++ 47%N :: more)
           = TextProcessor.extract_il_ilce (a ++ 47%N :: b)).
Proof.
  split; [|split].
  - intros value H.
    unfold TextProcessor.extract_ada_parsel, TextProcessor.extract_il_ilce.
    rewrite split_on_whole by exact H. split; reflexivity.
  - intros a b Ha Hb.
    unfold TextProcessor.extract_ada_parsel, TextProcessor.extract_il_ilce.
    rewrite split_on_cons by exact Ha. rewrite split_on_whole by exact Hb.
    split; reflexivity.
  - intros a b more Ha Hb.
    unfold TextProcessor.extract_ada_parsel, TextProcessor.extract_il_ilce.
    rewrite (@split_on_cons 47 a (b ++ 47%N :: more) Ha),
      (@split_on_cons 47 a b Ha), (@split_on_cons 47 b more Hb).
    rewrite (@split_on_whole 47 b Hb).
    pose proof (split_on_nonempty 47 more) as Hne.
    destruct (Str.split_on 47 more); [contradiction|]. split; reflexivity.
Qed.

Lemma pair_splitters_read_two_fields_witness :
  TextProcessor.extract_ada_parsel (txt "KIZILAY") = (None, None)
  /\ TextProcessor.extract_ada_parsel (txt " 1024 " ++ 47%N :: txt "7")
     = (Some (txt "1024"), Some (txt "7"))
  /\ TextProcessor.extract_ada_parsel (txt " 1024 " ++ 47%N :: txt "7" ++ 47%N :: txt "x")
     = (Some (txt "1024"), Some (txt "7")).
Proof.
  destruct pair_splitters_read_two_fields as (H1 & H2 & H3).
  assert (Ha : ~ In 47%N (txt " 1024 ")).
  { vm_compute. intros H. repeat (destruct H as [H|H]; [discriminate H|]). exact H. }
  assert (Hb : ~ In 47%N (txt "7")).
  { vm_compute. intros H. repeat (destruct H as [H|H]; [discriminate H|]). exact H. }
  assert (Hk : ~ In 47%N (txt "KIZILAY")).
  { vm_compute. intros H. repeat (destruct H as [H|H]; [discriminate H|]). exact H. }
  split; [exact (proj1 (H1 _ Hk))|].
  assert (E : TextProcessor.extract_ada_parsel (txt " 1024 " ++ 47%N :: txt "7")
              = (Some (txt "1024"), Some (txt "7"))).
  { rewrite (proj1 (H2 _ _ Ha Hb)). vm_compute. reflexivity. }
  split; [exact E|].
  rewrite (proj1 (H3 _ _ (txt "x") Ha Hb)). exact E.
Defined.

(** X5.  [extract_blok_kat_giris_bbno] returns no value at all for a
    text with fewer than four fields; with four it returns the cleaned
    first, third and fourth field, and the cleaned second field as it
    is when it is made of digits; a fifth field changes nothing. *)
Theorem quad_splitter_reads_four_fields :
  (forall a b c,
     ~ In 47%N a -> ~ In 47%N b -> ~ In 47%N c ->
     TextProcessor.extract_blok_kat_giris_bbno a = (None, None, None, None)
     /\ TextProcessor.extract_blok_kat_giris_bbno (a ++ 47%N :: b)
        = (None, None, None, None)
     /\ TextProcessor.extract_blok_kat_giris_bbno (a ++ 47%N :: b ++ 47%N :: c)
        = (None, None, None, None))
  /\ (forall a b c d,
        ~ In 47%N a -> ~ In 47%N b -> ~ In 47%N c -> ~ In 47%N d ->
        let r := TextProcessor.extract_blok_kat_giris_bbno
                   (a ++ 47%N :: b ++ 47%N :: c ++ 47%N :: d) in
        fst (fst (fst r)) = TextProcessor.clean (CStr a)
        /\ snd (fst r) = TextProcessor.clean (CStr c)
        /\ snd r = TextProcessor.clean (CStr d)
        /\ (TextProcessor.clean (CStr b) = None -> snd (fst (fst r)) = None)
        /\ (forall k, TextProcessor.clean (CStr b) = Some k ->
                      Str.isdigit k = true -> snd (fst (fst r)) = Some k)
        /\ (forall k, TextProcessor.clean (CStr b) = Some k ->
                      Str.isdigit k = false ->
                      snd (fst (fst r)) = Some (TextProcessor.fix_kat k))
        /\ forall more,
             TextProcessor.extract_blok_kat_giris_bbno
               (a ++ 47%N :: b ++ 47%N :: c ++ 47%N :: d ++ 47%N :: more) = r).
Proof.
  split.
  - intros a b c Ha Hb Hc. unfold TextProcessor.extract_blok_kat_giris_bbno.
    rewrite (@split_on_cons 47 a (b ++ 47%N :: c) Ha), (@split_on_cons 47 a b Ha),
      (@split_on_cons 47 b c Hb), (@split_on_whole 47 a Ha),
      (@split_on_whole 47 b Hb), (@split_on_whole 47 c Hc).
    repeat split; reflexivity.
  - intros a b c d Ha Hb Hc Hd. cbv zeta.
    unfold TextProcessor.extract_blok_kat_giris_bbno.
    rewrite (@split_on_cons 47 a _ Ha), (@split_on_cons 47 b _ Hb),
      (@split_on_cons 47 c d Hc), (@split_on_whole 47 d Hd).
    cbn [map]. unfold TextProcessor.clean_text.
    repeat split.
    + cbn [fst snd]. intros ->. reflexivity.
    + cbn [fst snd]. intros k -> ->. reflexivity.
    + cbn [fst snd]. intros k -> ->. reflexivity.
    + intros more.
      rewrite (@split_on_cons 47 a _ Ha), (@split_on_cons 47 b _ Hb),
        (@split_on_cons 47 c _ Hc), (@split_on_cons 47 d more Hd).
      pose proof (split_on_nonempty 47 more) as Hne.
      destruct (Str.split_on 47 more); [contradiction|]. reflexivity.
Qed.

Lemma quad_splitter_reads_four_fields_witness :
  TextProcessor.extract_blok_kat_giris_bbno (txt "A" ++ 47%N :: txt " 12 ")
  = (None, None, None, None)
  /\ snd (fst (fst (TextProcessor.extract_blok_kat_giris_bbno
                      (txt "A" ++ 47%N :: txt " 12 " ++ 47%N :: txt "1"
                         ++ 47%N :: txt "7"))))
     = Some (txt "12").
Proof.
  destruct quad_splitter_reads_four_fields as (H1 & H2).
  assert (Ha : ~ In 47%N (txt "A")).
  { vm_compute. intros H. repeat (destruct H as [H|H]; [discriminate H|]). exact H. }
  assert (Hb : ~ In 47%N (txt " 12 ")).
  { vm_compute. intros H. repeat (destruct H as [H|H]; [discriminate H|]). exact H. }
  assert (Hc : ~ In 47%N (txt "1")).
  { vm_compute. intros H. repeat (destruct H as [H|H]; [discriminate H|]). exact H. }
  assert (Hd : ~ In 47%N (txt "7")).
  { vm_compute. intros H. repeat (destruct H as [H|H]; [discriminate H|]). exact H. }
  split; [exact (proj1 (proj2 (H1 _ _ _ Ha Hb Hc)))|].
  destruct (H2 _ _ _ _ Ha Hb Hc Hd) as (_ & _ & _ & _ & Hk & _).
  apply Hk; vm_compute; reflexivity.
Defined.

(** ** Positional reads of the general info stay within bounds *)

Lemma iloc_short (df : DataFrame) (r c : nat) :
  length (rows df) <= r -> iloc df r c = Raise IndexError.
Proof.
  intros H. unfold iloc.
  destruct (nth_error (rows df) r) eqn:E; [|reflexivity].
  apply nth_error_None in H. rewrite H in E. discriminate.
Qed.

Lemma iloc_narrow (df : DataFrame) (r c : nat) :
  wf_frame df -> ncols df <= c -> iloc df r c = Raise IndexError.
Proof.
  intros Hwf H. unfold iloc.
  destruct (nth_error (rows df) r) as [row|] eqn:E; [|reflexivity].
  assert (Hlen : length row = ncols df).
  { unfold wf_frame in Hwf. rewrite Forall_forall in Hwf. apply Hwf.
    eapply nth_error_In; eauto. }
  destruct (nth_error row c) eqn:Ec; [|reflexivity].
  assert (Hn : nth_error row c = None) by (apply nth_error_None; lia).
  rewrite Hn in Ec. discriminate.
Qed.

Ltac general_info_steps :=
  repeat match goal with
    | |- context [bind ?x _] =>
        let E := fresh "E" in destruct x eqn:E; cbn [bind]
    | |- context [let '(_, _) := ?x in _] => destruct x
    | |- context [match ?x with (_, _) => _ end] => destruct x
    end.

(** X6.  [extract_general_info] returns the empty result, and raises
    nothing, when the first table has fewer than five rows, the second
    fewer than six, or either has fewer than two columns. *)
Theorem extract_general_info_short_tables
  (col_1 col_2 : DataFrame) (others : list DataFrame) :
  length (rows col_1) < 5
  \/ length (rows col_2) < 6
  \/ (wf_frame col_1 /\ ncols col_1 < 2)
  \/ (wf_frame col_2 /\ ncols col_2 < 2) ->
  DataExtractor.extract_general_info (col_1 :: col_2 :: others) = None.
Proof.
  intros H.
  assert (Hbad : iloc col_1 4 1 = Raise IndexError
                 \/ iloc col_2 5 1 = Raise IndexError).
  { destruct H as [H|[H|[[Hw H]|[Hw H]]]].
    - left. apply iloc_short. lia.
    - right. apply iloc_short. lia.
    - left. apply iloc_narrow; [exact Hw|lia].
    - right. apply iloc_narrow; [exact Hw|lia]. }
  unfold DataExtractor.extract_general_info.
  general_info_steps; try reflexivity.
  exfalso. destruct Hbad as [Hb|Hb]; discriminate Hb.
Qed.

Lemma extract_general_info_short_tables_witness :
  DataExtractor.extract_general_info
    [Frame 2 [[CStr (txt "a"); CStr (txt "b")]; [CStr (txt "No"); CStr (txt "12")]];
     Sample.header_2]
  = None.
Proof.
  apply extract_general_info_short_tables. left. simpl. lia.
Defined.

(** ** What [extract_mulkiyete_ait_serh_beyan] reads and returns *)

Lemma filter_six_skip (a b : list DataFrame) (t : DataFrame) :
  ncols t <> 6 ->
  filter (fun df => ncols df =? 6) (a ++ t :: b)
  = filter (fun df => ncols df =? 6) (a ++ b).
Proof.
  intros H. rewrite !filter_app. simpl.
  destruct (ncols t =? 6) eqn:E; [|reflexivity].
  apply Nat.eqb_eq in E. contradiction.
Qed.

(** X7.  Tables that do not have six columns play no part in
    [extract_mulkiyete_ait_serh_beyan]; a table it returns is the frame
    without columns or has six columns, and is well formed when the
    input tables are; without any table of six columns it returns the
    frame without columns. *)
Theorem extract_mulkiyete_reads_six_column_tables :
  (forall a t b,
     ncols t <> 6 ->
     DataExtractor.extract_mulkiyete_ait_serh_beyan (a ++ t :: b)
     = DataExtractor.extract_mulkiyete_ait_serh_beyan (a ++ b))
  /\ (forall dfs,
        Forall (fun df => ncols df <> 6) dfs ->
        DataExtractor.extract_mulkiyete_ait_serh_beyan dfs = Ok empty_frame)
  /\ (forall dfs df,
        DataExtractor.extract_mulkiyete_ait_serh_beyan dfs = Ok df ->
        df = empty_frame \/ ncols df = 6)
  /\ (forall dfs df,
        Forall wf_frame dfs ->
        DataExtractor.extract_mulkiyete_ait_serh_beyan dfs = Ok df ->
        wf_frame df).
Proof.
  split; [|split; [|split]].
  - intros a t b H. unfold DataExtractor.extract_mulkiyete_ait_serh_beyan.
    now rewrite filter_six_skip.
  - intros dfs H. unfold DataExtractor.extract_mulkiyete_ait_serh_beyan.
    assert (Hf : filter (fun df => ncols df =? 6) dfs = []).
    { induction H as [|d l Hd Hl IH]; [reflexivity|]. simpl.
      destruct (ncols d =? 6) eqn:E; [|exact IH].
      apply Nat.eqb_eq in E. contradiction. }
    now rewrite Hf.
  - intros dfs df. unfold DataExtractor.extract_mulkiyete_ait_serh_beyan.
    destruct (filter (fun d => ncols d =? 6) dfs) as [|d ds].
    + intros H. inversion H. now left.
    + intros H. right.
      destruct (iloc _ 0 0) as [c00|]; [|discriminate]. cbn [bind] in H.
      destruct (if isna c00 || DataExtractor.is_empty_string c00
                then DataExtractor.drop_first _ else Ok _) as [df1|] eqn:E1;
        [|discriminate].
      cbn [bind] in H.
      assert (H1 : ncols df1 = 6).
      { destruct (isna c00 || DataExtractor.is_empty_string c00).
        - unfold DataExtractor.drop_first in E1.
          destruct (rows _); [discriminate|]. now inversion E1.
        - now inversion E1. }
      unfold TableExtractor.fix_continuation in H.
      destruct (TableExtractor.fix_loop [] (rows df1)) as [res|];
        [|discriminate].
      cbn [bind] in H. unfold DataExtractor.drop_first in H. simpl in H.
      destruct res; [discriminate|]. inversion H. simpl. exact H1.
  - intros dfs df Hwf. unfold DataExtractor.extract_mulkiyete_ait_serh_beyan.
    destruct (filter (fun d => ncols d =? 6) dfs) as [|d ds] eqn:Ef.
    + intros H. inversion H. constructor.
    + intros H.
      assert (Hrows : Forall (fun r : list cell => length r = 6)
                        (concat (map rows (d :: ds)))).
      { rewrite <- Ef. apply Forall_concat. apply Forall_map.
        apply Forall_forall. intros x Hx. apply filter_In in Hx.
        destruct Hx as [Hx H6]. apply Nat.eqb_eq in H6.
        rewrite Forall_forall in Hwf. specialize (Hwf x Hx).
        unfold wf_frame in Hwf. now rewrite H6 in Hwf. }
      remember (concat (map rows (d :: ds))) as all_rows eqn:Hall. clear Hall.
      destruct (iloc _ 0 0) as [c00|]; [|discriminate]. cbn [bind] in H.
      destruct (if isna c00 || DataExtractor.is_empty_string c00
                then DataExtractor.drop_first _ else Ok _) as [df1|] eqn:E1;
        [|discriminate].
      cbn [bind] in H.
      assert (H1 : ncols df1 = 6 /\ Forall (fun r : list cell => length r = 6) (rows df1)).
      { destruct (isna c00 || DataExtractor.is_empty_string c00).
        - unfold DataExtractor.drop_first in E1. cbn [rows ncols] in E1.
          destruct all_rows as [|r0 rs]; [discriminate|].
          inversion E1. simpl. split; [reflexivity|]. now inversion Hrows.
        - inversion E1. simpl. split; [reflexivity|exact Hrows]. }
      destruct H1 as [H6 Hr1].
      unfold TableExtractor.fix_continuation in H.
      destruct (TableExtractor.fix_loop [] (rows df1)) as [res|] eqn:El;
        [|discriminate].
      cbn [bind] in H. unfold DataExtractor.drop_first in H. simpl in H.
      destruct res as [|r0 res']; [discriminate|]. inversion H.
      unfold wf_frame. simpl. rewrite H6.
      destruct (@fix_loop_shape 6 (rows df1) [] (r0 :: res')) as [Hres _]; auto.
      now inversion Hres.
Qed.

Lemma extract_mulkiyete_reads_six_column_tables_witness :
  DataExtractor.extract_mulkiyete_ait_serh_beyan
    ([Sample.header_1 "1"] ++ Sample.header_2 :: [Sample.restrictions])
  = DataExtractor.extract_mulkiyete_ait_serh_beyan
      ([Sample.header_1 "1"] ++ [Sample.restrictions])
  /\ DataExtractor.extract_mulkiyete_ait_serh_beyan [Sample.header_2]
     = Ok empty_frame.
Proof.
  destruct extract_mulkiyete_reads_six_column_tables as (H1 & H2 & _).
  split.
  - apply H1. simpl. discriminate.
  - apply H2. repeat constructor. simpl. discriminate.
Defined.

(** ** Streams without strings or arrays, and the loop over streams *)

Lemma search_from_needs_first (c : N) (r : Re.regex) (suffix : list N) :
  forall p,
    ~ In c suffix ->
    Re.search_from (Re.Cat (Re.chr c) r) p suffix = None.
Proof.
  induction suffix as [|x t IH]; intros p H; [reflexivity|].
  cbn [Re.search_from].
  assert (Hm : Re.match_at (Re.Cat (Re.chr c) r) p (x :: t) = None).
  { unfold Re.match_at, Re.chr. cbn [Re.run Re.rest].
    destruct (c =? x)%N eqn:E; [|reflexivity].
    apply N.eqb_eq in E. subst x. exfalso. apply H. now left. }
  rewrite Hm. apply IH. intros Hin. apply H. now right.
Qed.

Lemma sub_needs_first (c : N) (r : Re.regex) (repl : Re.mtch -> list N)
  (s : list N) :
  ~ In c s -> Re.sub (Re.Cat (Re.chr c) r) repl s = s.
Proof.
  intros H. unfold Re.sub, Re.finditer. cbn [Re.finditer_from].
  unfold Re.search. cbn [Nat.leb skipn].
  now rewrite search_from_needs_first.
Qed.

Lemma blank_without_brackets (chunk : list N) :
  ~ In 40%N chunk -> ~ In 91%N chunk -> Watermark.blank chunk = chunk.
Proof.
  intros H1 H2. unfold Watermark.blank.
  change Watermark.re_tj with (Re.Cat (Re.chr 40)
    (Re.seq [ Re.Star true (Re.Alt (Re.Cat (Re.chr 92) (Re.Cls Watermark.not_nl))
                                   (Re.Cls Watermark.not_rparen));
              Re.chr 41; Re.Star true (Re.Cls Watermark.is_ws);
              Re.lit (txt "Tj") ])).
  rewrite sub_needs_first by exact H1.
  change Watermark.re_TJ with (Re.Cat (Re.chr 91)
    (Re.seq [ Re.Star false (Re.Cls Watermark.any); Re.chr 93;
              Re.Star true (Re.Cls Watermark.is_ws); Re.lit (txt "TJ") ])).
  now rewrite sub_needs_first by exact H2.
Qed.

Lemma in_slice A (l : list A) (a b : nat) (x : A) :
  In x (slice l a b) -> In x l.
Proof.
  unfold slice. intros H.
  rewrite <- (firstn_skipn a l). apply in_or_app. right.
  rewrite <- (firstn_skipn (b - a) (skipn a l)). apply in_or_app. now left.
Qed.

(** X8.  A buffer that holds no opening parenthesis and no opening
    bracket is returned as it is, whatever font sizes it sets. *)
Theorem scrub_stream_without_strings
  (w : Watermark.WatermarkRemover) (buf : list N) :
  ~ In 40%N buf -> ~ In 91%N buf -> Watermark.scrub_stream w buf = buf.
Proof.
  intros H1 H2. rewrite scrub_stream_segments.
  rewrite (segments_tile buf) at 3. f_equal.
  unfold Watermark.segments.
  induction (Re.finditer Watermark.re_tf buf) as [|m ms IH]; [reflexivity|].
  cbn [map flat_map]. rewrite IH. f_equal.
  unfold Watermark.scrub_segment, Watermark.keep_segment.
  destruct (Watermark.size_matches w _); [|reflexivity].
  rewrite blank_without_brackets; [reflexivity| |];
    intros Hin; apply in_slice in Hin; contradiction.
Qed.

Lemma scrub_stream_without_strings_witness :
  Watermark.scrub_stream Watermark.watermark_remover
    (txt "q /F1 108.9 Tf 1 0 0 1 5 5 Tm Q")
  = txt "q /F1 108.9 Tf 1 0 0 1 5 5 Tm Q".
Proof.
  apply scrub_stream_without_strings; vm_compute; intros H;
    repeat (destruct H as [H|H]; [discriminate H|]); exact H.
Defined.

Lemma scrub_stream_empty (w : Watermark.WatermarkRemover) :
  Watermark.scrub_stream w [] = [].
Proof. reflexivity. Qed.


Lemma text_eqb_eq (a b : text) : text_eqb a b = true <-> a = b.
Proof.
  unfold text_eqb. destruct (list_eq_dec N.eq_dec a b); split; auto; discriminate.
Qed.






(** ** The events and the counters of a batch *)

Section BatchFacts.

Variable extract_date_yevmiye : list cell -> result (list (cell * cell)).
Variable extract_icra_dairesi : list cell -> result (list cell).

Local Abbreviation process_single_pdf :=
  (Pipeline.process_single_pdf extract_date_yevmiye extract_icra_dairesi).
Local Abbreviation usable :=
  (Pipeline.usable extract_date_yevmiye extract_icra_dairesi).
Local Abbreviation batch_frames :=
  (Pipeline.batch_frames extract_date_yevmiye extract_icra_dairesi).
Local Abbreviation batch_failures :=
  (Pipeline.batch_failures extract_date_yevmiye extract_icra_dairesi).
Local Abbreviation process_multiple_pdfs :=
  (Pipeline.process_multiple_pdfs extract_date_yevmiye extract_icra_dairesi).
Local Abbreviation process_pdf_files :=
  (Pipeline.process_pdf_files extract_date_yevmiye extract_icra_dairesi).
Local Abbreviation run_job :=
  (Pipeline.run_job extract_date_yevmiye extract_icra_dairesi).
Local Abbreviation progress_events :=
  (App.progress_events extract_date_yevmiye extract_icra_dairesi).
Local Abbreviation closing_events :=
  (App.closing_events extract_date_yevmiye extract_icra_dairesi).
Local Abbreviation succeeds :=
  (App.succeeds extract_date_yevmiye extract_icra_dairesi).

Lemma loop_emitted (callback : bool) (total : nat)
  (pdfs : list Pipeline.Document) :
  forall s index,
    Pipeline.emitted
      (Pipeline.loop extract_date_yevmiye extract_icra_dairesi
         callback total s index pdfs)
    = Pipeline.emitted s
      ++ (if callback then progress_events total index pdfs else []).
Proof.
  induction pdfs as [|d pdfs IH]; intros s index.
  - simpl. destruct callback; now rewrite app_nil_r.
  - cbn [Pipeline.loop App.progress_events]. rewrite IH.
    unfold Pipeline.loop_step, Pipeline.usable.
    destruct (process_single_pdf d) as [[|r recs]|];
      cbn [Pipeline.emitted]; destruct callback; cbn [Pipeline.emit];
      rewrite <- ?app_assoc; reflexivity.
Qed.

Lemma batch_counts (pdfs : list Pipeline.Document) :
  length (batch_frames pdfs) + batch_failures pdfs = length pdfs.
Proof.
  unfold Pipeline.batch_frames, Pipeline.batch_failures.
  induction pdfs as [|d pdfs IH]; [reflexivity|].
  cbn [flat_map filter]. destruct (usable d); simpl; rewrite ?length_app; simpl; lia.
Qed.

Lemma progress_events_length (total : nat) (pdfs : list Pipeline.Document) :
  forall index, length (progress_events total index pdfs) = length pdfs.
Proof.
  induction pdfs as [|d pdfs IH]; intros index; simpl; [reflexivity|].
  now rewrite IH.
Qed.

Lemma process_multiple_pdfs_emitted (callback : bool)
  (pdfs : list Pipeline.Document) :
  snd (process_multiple_pdfs callback pdfs)
  = if callback then
      Pipeline.EvStart (length pdfs)
      :: progress_events (length pdfs) 1 pdfs
      ++ [match batch_frames pdfs with
          | [] => Pipeline.EvError (txt "No dataframes produced from any PDF")
          | fs => Pipeline.EvComplete (length fs) (batch_failures pdfs)
          end]
    else [].
Proof.
  unfold Pipeline.process_multiple_pdfs.
  pose proof (loop_closed_form extract_date_yevmiye extract_icra_dairesi
                callback (length pdfs) pdfs
                {| Pipeline.frames := []; Pipeline.failures := 0;
                   Pipeline.emitted := Pipeline.emit callback
                                         (Pipeline.EvStart (length pdfs)) |} 1) as H.
  cbv zeta in H. destruct H as (Hf & Hn & _).
  cbn [Pipeline.frames Pipeline.failures app Nat.add] in Hf, Hn.
  rewrite Hf, Hn, loop_emitted. cbn [Pipeline.emitted].
  destruct (batch_frames pdfs) as [|f fs]; destruct callback; reflexivity.
Qed.

Lemma progress_events_nth (total : nat) (d : Pipeline.Document)
  (after before : list Pipeline.Document) :
  forall index,
    nth_error (progress_events total index (before ++ d :: after)) (length before)
    = Some (Pipeline.EvProgress (index + length before) total
              (match usable d with
               | Some _ => Pipeline.Processed
               | None => Pipeline.Failed
               end)
              (Pipeline.doc_name d)).
Proof.
  induction before as [|b before IH]; intros index.
  - simpl. now rewrite Nat.add_0_r.
  - simpl. rewrite IH. now rewrite Nat.add_succ_r.
Qed.

(** X10.  A batch reports every document once: with a callback the
    events are the start event, one progress event for each document
    in order, numbered from 1 and telling whether the document gave
    records, then one error event when no document did or one complete
    event whose two counts add up to the number of documents. *)
Theorem process_multiple_pdfs_reports_each_document
  (pdfs : list Pipeline.Document) :
  snd (process_multiple_pdfs true pdfs)
  = Pipeline.EvStart (length pdfs)
    :: progress_events (length pdfs) 1 pdfs
    ++ [match batch_frames pdfs with
        | [] => Pipeline.EvError (txt "No dataframes produced from any PDF")
        | fs => Pipeline.EvComplete (length fs) (batch_failures pdfs)
        end]
  /\ length (progress_events (length pdfs) 1 pdfs) = length pdfs
  /\ length (batch_frames pdfs) + batch_failures pdfs = length pdfs
  /\ snd (fst (process_multiple_pdfs true pdfs)) = batch_failures pdfs
  /\ (forall before d after,
        pdfs = before ++ d :: after ->
        nth_error (progress_events (length pdfs) 1 pdfs) (length before)
        = Some (Pipeline.EvProgress (S (length before)) (length pdfs)
                  (match usable d with
                   | Some _ => Pipeline.Processed
                   | None => Pipeline.Failed
                   end)
                  (Pipeline.doc_name d))).
Proof.
  split; [apply (process_multiple_pdfs_emitted true)|].
  split; [apply progress_events_length|].
  split; [apply batch_counts|].
  split; [apply process_multiple_pdfs_result|].
  intros before d after ->. apply (progress_events_nth _ d after before 1).
Qed.

Lemma process_multiple_pdfs_triple (callback : bool)
  (pdfs : list Pipeline.Document) :
  process_multiple_pdfs callback pdfs
  = (concat (batch_frames pdfs), batch_failures pdfs,
     snd (process_multiple_pdfs callback pdfs)).
Proof.
  destruct (process_multiple_pdfs_result extract_date_yevmiye
              extract_icra_dairesi callback pdfs) as [H1 H2].
  destruct (process_multiple_pdfs callback pdfs) as [[df n] ev].
  simpl in *. now subst.
Qed.

Lemma concat_batch_frames_nil (pdfs : list Pipeline.Document) :
  concat (batch_frames pdfs) = [] <-> batch_frames pdfs = [].
Proof.
  split; [|intros ->; reflexivity].
  intros H. destruct (batch_frames pdfs) as [|f fs] eqn:E; [reflexivity|].
  assert (Hin : In f (batch_frames pdfs)) by (rewrite E; now left).
  apply in_batch_frames in Hin. destruct Hin as (d & _ & _ & Hne).
  simpl in H. apply app_eq_nil in H. destruct H as [H _]. contradiction.
Qed.

(** X11.  The answer of [process_pdf_files] does not depend on the
    callback: without one it reports the same success and message and
    passes no event. *)
Theorem process_pdf_files_without_callback
  (pdfs : list Pipeline.Document) (fmt : Pipeline.output_format)
  (write_ok : bool) :
  fst (process_pdf_files pdfs fmt write_ok false)
  = fst (process_pdf_files pdfs fmt write_ok true)
  /\ snd (process_pdf_files pdfs fmt write_ok false) = []
  /\ fst (fst (process_pdf_files pdfs fmt write_ok true))
     = succeeds pdfs fmt write_ok.
Proof.
  unfold Pipeline.process_pdf_files, App.succeeds.
  rewrite (process_multiple_pdfs_triple false), (process_multiple_pdfs_triple true).
  rewrite (process_multiple_pdfs_emitted false).
  destruct (concat (batch_frames pdfs)) as [|r rs] eqn:E.
  - apply concat_batch_frames_nil in E. rewrite E. repeat split; reflexivity.
  - assert (Hne : batch_frames pdfs <> []).
    { intros H. apply concat_batch_frames_nil in H. rewrite H in E. discriminate. }
    destruct (batch_frames pdfs) as [|f fs]; [contradiction|].
    destruct fmt; try destruct write_ok; repeat split; reflexivity.
Qed.

Lemma fold_progress (total : nat) (pdfs : list Pipeline.Document) :
  forall index job,
    let j := fold_left Pipeline.emit_job_event
               (progress_events total index pdfs) job in
    Pipeline.job_error j = Pipeline.job_error job
    /\ (pdfs = [] -> j = job)
    /\ (pdfs <> [] ->
        Pipeline.job_state j = Pipeline.Processing
        /\ Pipeline.job_processed j = index + length pdfs - 1).
Proof.
  induction pdfs as [|d pdfs IH]; intros index job; cbv zeta.
  - simpl. split; [reflexivity|]. split; [reflexivity|].
    intros Hne. now contradiction Hne.
  - cbn [App.progress_events fold_left].
    specialize (IH (S index)
      (Pipeline.emit_job_event job
         (Pipeline.EvProgress index total
            (match usable d with
             | Some _ => Pipeline.Processed
             | None => Pipeline.Failed
             end) (Pipeline.doc_name d)))).
    cbv zeta in IH. destruct IH as (He & Hnil & Hcons).
    split; [rewrite He; reflexivity|]. split; [discriminate|]. intros _.
    destruct pdfs as [|d' pdfs'].
    + rewrite (Hnil eq_refl). simpl. split; [reflexivity|lia].
    + destruct (Hcons ltac:(discriminate)) as [Hs Hp].
      split; [exact Hs|]. rewrite Hp. simpl. lia.
Qed.

Lemma process_pdf_files_events (pdfs : list Pipeline.Document)
  (fmt : Pipeline.output_format) (write_ok : bool) :
  exists message,
    process_pdf_files pdfs fmt write_ok true
    = (succeeds pdfs fmt write_ok, message,
       Pipeline.EvStart (length pdfs)
       :: progress_events (length pdfs) 1 pdfs
       ++ removelast (closing_events pdfs fmt write_ok))
    /\ last (closing_events pdfs fmt write_ok) Pipeline.EvQueued
       = if succeeds pdfs fmt write_ok then Pipeline.EvFinished
         else Pipeline.EvError message.
Proof.
  unfold Pipeline.process_pdf_files, App.succeeds, App.closing_events.
  rewrite (process_multiple_pdfs_triple true).
  rewrite (process_multiple_pdfs_emitted true).
  destruct (concat (batch_frames pdfs)) as [|r rs] eqn:E.
  - apply concat_batch_frames_nil in E. rewrite E.
    eexists. split; [|reflexivity]. cbn [Pipeline.emit removelast].
    simpl. rewrite <- app_assoc. reflexivity.
  - assert (Hne : batch_frames pdfs <> []).
    { intros H. apply concat_batch_frames_nil in H. rewrite H in E. discriminate. }
    destruct (batch_frames pdfs) as [|f fs]; [contradiction|].
    destruct fmt; try destruct write_ok; eexists; (split; [|reflexivity]);
      cbn [Pipeline.emit removelast]; simpl; rewrite <- app_assoc; reflexivity.
Qed.

Lemma closing_events_last (pdfs : list Pipeline.Document)
  (fmt : Pipeline.output_format) (write_ok : bool) :
  closing_events pdfs fmt write_ok
  = removelast (closing_events pdfs fmt write_ok)
    ++ [last (closing_events pdfs fmt write_ok) Pipeline.EvQueued].
Proof.
  apply app_removelast_last. unfold App.closing_events.
  destruct (batch_frames pdfs); [discriminate|].
  destruct fmt; try destruct write_ok; discriminate.
Qed.

Lemma run_job_state (pdfs : list Pipeline.Document)
  (fmt : Pipeline.output_format) (write_ok : bool) :
  let j := run_job pdfs fmt write_ok in
  Pipeline.queue j
  = Pipeline.EvQueued :: Pipeline.EvStart (length pdfs)
    :: progress_events (length pdfs) 1 pdfs ++ closing_events pdfs fmt write_ok
  /\ (succeeds pdfs fmt write_ok = true ->
      Pipeline.job_state j = Pipeline.Completed /\ Pipeline.job_error j = None)
  /\ (succeeds pdfs fmt write_ok = false ->
      Pipeline.job_state j = Pipeline.Errored
      /\ exists m, Pipeline.job_error j = Some m)
  /\ (pdfs <> [] -> Pipeline.job_processed j = length pdfs).
Proof.
  cbv zeta.
  destruct (process_pdf_files_events pdfs fmt write_ok) as (message & Hppf & Hlast).
  unfold Pipeline.run_job, Pipeline.process_job. rewrite Hppf.
  cbn [fold_left]. rewrite fold_left_app.
  set (j1 := Pipeline.emit_job_event
               (Pipeline.emit_job_event Pipeline.create_job Pipeline.EvQueued)
               (Pipeline.EvStart (length pdfs))).
  pose proof (fold_progress (length pdfs) pdfs 1 j1) as H. cbv zeta in H.
  destruct H as (He & _ & Hcons).
  assert (Hq2 : Pipeline.queue
                  (fold_left Pipeline.emit_job_event
                     (progress_events (length pdfs) 1 pdfs) j1)
                = Pipeline.EvQueued :: Pipeline.EvStart (length pdfs)
                  :: progress_events (length pdfs) 1 pdfs)
    by (rewrite queue_fold_emit; reflexivity).
  assert (Hp2 : pdfs <> [] ->
                Pipeline.job_processed
                  (fold_left Pipeline.emit_job_event
                     (progress_events (length pdfs) 1 pdfs) j1) = length pdfs).
  { intros Hne. destruct (Hcons Hne) as [_ Hp]. rewrite Hp. lia. }
  change (Pipeline.job_error j1) with (@None text) in He.
  clear Hcons Hppf.
  set (j2 := fold_left Pipeline.emit_job_event
               (progress_events (length pdfs) 1 pdfs) j1) in *.
  clearbody j2. clear j1.
  unfold App.closing_events, App.succeeds in *.
  destruct (batch_frames pdfs) as [|f fs].
  - cbn [removelast fold_left]. cbn [last] in Hlast.
    injection Hlast as <-.
    rewrite !queue_emit, Hq2. cbn.
    split; [rewrite <- !app_assoc; reflexivity|].
    split; [discriminate|]. split; [intros _; split; [reflexivity|eauto]|].
    exact Hp2.
  - destruct fmt; try destruct write_ok; cbn [removelast fold_left];
      cbn [last] in Hlast; try (injection Hlast as <-);
      rewrite !queue_emit; cbn [Pipeline.queue]; rewrite ?queue_emit, Hq2; cbn;
      (split; [rewrite <- !app_assoc; reflexivity|]);
      (split; [first [discriminate|intros _; split; [reflexivity|exact He]]|]);
      (split; [first [discriminate|intros _; split; [reflexivity|eauto]]|]);
      exact Hp2.
Qed.

(** X12.  The queue of a job is the queued event, the start event, one
    progress event for each document and the closing events; the job
    ends completed and without error message exactly when records were
    produced, the format is supported and the file is written, and
    ends in error with an error message otherwise; after a batch that
    is not empty the processed count is the number of documents. *)
Theorem run_job_outcome (pdfs : list Pipeline.Document)
  (fmt : Pipeline.output_format) (write_ok : bool) :
  let j := run_job pdfs fmt write_ok in
  Pipeline.queue j
  = Pipeline.EvQueued :: Pipeline.EvStart (length pdfs)
    :: progress_events (length pdfs) 1 pdfs ++ closing_events pdfs fmt write_ok
  /\ (succeeds pdfs fmt write_ok = true ->
      Pipeline.job_state j = Pipeline.Completed /\ Pipeline.job_error j = None)
  /\ (succeeds pdfs fmt write_ok = false ->
      Pipeline.job_state j = Pipeline.Errored
      /\ exists m, Pipeline.job_error j = Some m)
  /\ (pdfs <> [] -> Pipeline.job_processed j = length pdfs).
Proof. exact (run_job_state pdfs fmt write_ok). Qed.

Lemma last_cons_default A (l : list A) :
  forall a d, last (a :: l) d = last l a.
Proof.
  induction l as [|b l IH]; intros a d; [reflexivity|].
  change (last (a :: b :: l) d) with (last (b :: l) d).
  rewrite !IH. reflexivity.
Qed.

Lemma statuses_along_last (evs : list Pipeline.event) :
  forall job,
    last (App.statuses_along job evs) (Pipeline.job_state job)
    = Pipeline.job_state (fold_left Pipeline.emit_job_event evs job).
Proof.
  induction evs as [|e evs IH]; intros job; [reflexivity|].
  cbn [App.statuses_along fold_left]. rewrite <- IH.
  apply last_cons_default.
Qed.

Lemma statuses_progress_forward (total : nat) (pdfs : list Pipeline.Document)
  (rest : list Pipeline.event) :
  forall index job,
    Pipeline.job_state job = Pipeline.Queued
    \/ Pipeline.job_state job = Pipeline.Processing ->
    exists job',
      (Pipeline.job_state job' = Pipeline.Queued
       \/ Pipeline.job_state job' = Pipeline.Processing)
      /\ App.all_forward (Pipeline.job_state job)
           (App.statuses_along job (progress_events total index pdfs ++ rest))
         = App.all_forward (Pipeline.job_state job')
             (App.statuses_along job' rest).
Proof.
  induction pdfs as [|d pdfs IH]; intros index job Hs.
  - exists job. split; [exact Hs|reflexivity].
  - cbn [App.progress_events app App.statuses_along App.all_forward].
    match goal with
    | |- context [App.statuses_along ?j1 (_ ++ rest)] =>
        destruct (IH (S index) j1) as (job' & Hs' & Heq); [right; reflexivity|]
    end.
    exists job'. split; [exact Hs'|]. rewrite <- Heq.
    cbn [Pipeline.emit_job_event Pipeline.job_state].
    destruct Hs as [-> | ->]; reflexivity.
Qed.

Lemma closing_events_forward (pdfs : list Pipeline.Document)
  (fmt : Pipeline.output_format) (write_ok : bool) (job : Pipeline.Job) :
  Pipeline.job_state job = Pipeline.Queued
  \/ Pipeline.job_state job = Pipeline.Processing ->
  App.all_forward (Pipeline.job_state job)
    (App.statuses_along job (closing_events pdfs fmt write_ok)) = true.
Proof.
  intros Hs. unfold App.closing_events.
  destruct (batch_frames pdfs); [|destruct fmt; try destruct write_ok];
    cbn; destruct Hs as [-> | ->]; reflexivity.
Qed.

(** X13.  While a job runs its status only moves forward: replaying
    the queue of the job from its creation, the status goes from
    queued to processing to finalizing and ends completed or in error,
    never going back and never leaving a final status; the last status
    of the replay is the status the job ends with. *)
Theorem job_status_moves_forward (pdfs : list Pipeline.Document)
  (fmt : Pipeline.output_format) (write_ok : bool) :
  let q := Pipeline.queue (run_job pdfs fmt write_ok) in
  App.all_forward Pipeline.Queued (App.statuses_along Pipeline.create_job q)
  = true
  /\ last (App.statuses_along Pipeline.create_job q) Pipeline.Queued
     = Pipeline.job_state (run_job pdfs fmt write_ok).
Proof.
  cbv zeta.
  destruct (run_job_state pdfs fmt write_ok) as (Hq & Hok & Hko & _).
  rewrite Hq. split.
  - cbn [App.statuses_along App.all_forward Pipeline.emit_job_event
           Pipeline.job_state Pipeline.create_job].
    cbn [App.forward App.status_eqb orb andb].
    match goal with
    | |- App.all_forward _ (App.statuses_along ?j1 _) = true =>
        destruct (@statuses_progress_forward (length pdfs) pdfs
                    (closing_events pdfs fmt write_ok) 1 j1)
          as (job' & Hs' & Heq); [left; reflexivity|]
    end.
    cbn [Pipeline.job_state] in Heq. rewrite Heq.
    now apply closing_events_forward.
  - change Pipeline.Queued with (Pipeline.job_state Pipeline.create_job) at 1.
    rewrite statuses_along_last.
    destruct (process_pdf_files_events pdfs fmt write_ok) as (message & _ & Hlast).
    assert (Hsplit :
      Pipeline.EvQueued :: Pipeline.EvStart (length pdfs)
        :: progress_events (length pdfs) 1 pdfs ++ closing_events pdfs fmt write_ok
      = (Pipeline.EvQueued :: Pipeline.EvStart (length pdfs)
           :: progress_events (length pdfs) 1 pdfs
           ++ removelast (closing_events pdfs fmt write_ok))
        ++ [if succeeds pdfs fmt write_ok then Pipeline.EvFinished
            else Pipeline.EvError message]).
    { rewrite <- Hlast. rewrite (closing_events_last pdfs fmt write_ok) at 1.
      simpl. now rewrite <- app_assoc. }
    rewrite Hsplit, fold_left_app. cbn [fold_left].
    destruct (succeeds pdfs fmt write_ok).
    + destruct (Hok eq_refl) as [-> _]. reflexivity.
    + destruct (Hko eq_refl) as [-> _]. reflexivity.
Qed.

Lemma combine_fst A B (a : list A) :
  forall b : list B, length a = length b -> map fst (combine a b) = a.
Proof.
  induction a as [|x a IH]; intros b H; [reflexivity|].
  destruct b as [|y b]; [discriminate|]. simpl. f_equal. apply IH.
  simpl in H. lia.
Qed.

Lemma combine_snd A B (a : list A) :
  forall b : list B, length a = length b -> map snd (combine a b) = b.
Proof.
  induction a as [|x a IH]; intros b H.
  - destruct b; [reflexivity|discriminate].
  - destruct b as [|y b]; [discriminate|]. simpl. f_equal. apply IH.
    simpl in H. lia.
Qed.

Lemma assemble_rows (name : text) (info : DataExtractor.GeneralInfo)
  (rs : list (list cell)) (a : list DataExtractor.Aciklama)
  (dy : list (cell * cell)) (i : list cell) :
  length a = length rs -> length dy = length rs -> length i = length rs ->
  map Pipeline.masb (Pipeline.assemble name info rs a dy i) = rs
  /\ map Pipeline.aciklama (Pipeline.assemble name info rs a dy i) = a.
Proof.
  intros Ha Hd Hi. unfold Pipeline.assemble. rewrite !map_map.
  assert (H1 : length (combine rs a) = length rs)
    by (rewrite length_combine; lia).
  assert (H2 : length (combine (combine rs a) dy) = length rs)
    by (rewrite length_combine; lia).
  split.
  - rewrite <- (combine_fst rs a) at 2 by lia.
    rewrite <- (combine_fst (combine rs a) dy) at 2 by lia.
    rewrite <- (combine_fst (combine (combine rs a) dy) i) at 2 by lia.
    rewrite !map_map. apply map_ext. intros [[[r a1] d1] i1]. reflexivity.
  - rewrite <- (combine_snd rs a) at 2 by lia.
    rewrite <- (combine_fst (combine rs a) dy) at 2 by lia.
    rewrite <- (combine_fst (combine (combine rs a) dy) i) at 2 by lia.
    rewrite !map_map. apply map_ext. intros [[[r a1] d1] i1]. reflexivity.
Qed.

(** X14.  When the two column extractors return one value for each
    row, a processed document yields exactly one record for each row
    of its restriction table, in order: the six raw columns of the
    record are the cells of the row, cleaned and put in upper case,
    and its description fields are those of the description cell; so a
    processed document never yields an empty frame. *)
Theorem process_single_pdf_one_record_per_row :
  (forall col out, extract_date_yevmiye col = Ok out -> length out = length col) ->
  (forall col out, extract_icra_dairesi col = Ok out -> length out = length col) ->
  forall d recs,
    process_single_pdf d = Some recs ->
    exists df,
      DataExtractor.extract_mulkiyete_ait_serh_beyan (Pipeline.doc_tables d) = Ok df
      /\ map Pipeline.masb recs = map (map Pipeline.clean_upper) (rows df)
      /\ map Pipeline.aciklama recs
         = map DataExtractor.fields_of
             (Pipeline.column 1 (map (map Pipeline.clean_upper) (rows df)))
      /\ length recs = length (rows df)
      /\ recs <> [].
Proof.
  intros Hdy Hid d recs.
  unfold Pipeline.process_single_pdf, Pipeline.process_single_pdf_body.
  destruct (Pipeline.doc_tables d) as [|t ts]; [discriminate|].
  destruct (DataExtractor.extract_general_info (t :: ts)) as [info|];
    [|discriminate].
  destruct (DataExtractor.extract_mulkiyete_ait_serh_beyan (t :: ts)) as [df|];
    [|discriminate].
  cbn [bind]. destruct (frame_empty df) eqn:Ee; [discriminate|].
  set (rs := map (map Pipeline.clean_upper) (rows df)).
  destruct (DataExtractor.extract_aciklama (Pipeline.column 1 rs)) as [a|] eqn:Ea;
    [|discriminate].
  cbn [bind].
  destruct (extract_date_yevmiye (Pipeline.column 4 rs)) as [dy|] eqn:Ed;
    [|discriminate].
  cbn [bind].
  destruct (extract_icra_dairesi (map DataExtractor.aciklama_ext a)) as [i|] eqn:Ei;
    [|discriminate].
  cbn [bind]. intros H. inversion H; subst recs. clear H.
  assert (Ha : a = map DataExtractor.fields_of (Pipeline.column 1 rs)).
  { unfold DataExtractor.extract_aciklama in Ea.
    destruct (existsb _ _); [|discriminate]. now inversion Ea. }
  assert (Hla : length a = length rs)
    by (rewrite Ha; unfold Pipeline.column; now rewrite !length_map).
  assert (Hld : length dy = length rs)
    by (rewrite (Hdy _ _ Ed); unfold Pipeline.column; now rewrite length_map).
  assert (Hli : length i = length rs)
    by (rewrite (Hid _ _ Ei), length_map; exact Hla).
  destruct (assemble_rows (Pipeline.doc_name d) info rs a dy i Hla Hld Hli)
    as [Hm Hac].
  exists df. split; [reflexivity|]. split; [exact Hm|].
  split; [rewrite Hac; exact Ha|].
  assert (Hlen : length (Pipeline.assemble (Pipeline.doc_name d) info rs a dy i)
                 = length (rows df)).
  { rewrite <- (length_map Pipeline.masb), Hm. unfold rs. now rewrite length_map. }
  split; [exact Hlen|].
  intros Hnil. rewrite Hnil in Hlen. simpl in Hlen.
  unfold frame_empty in Ee. apply orb_false_iff in Ee. destruct Ee as [_ Ee].
  apply Nat.eqb_neq in Ee. lia.
Qed.

End BatchFacts.

Lemma event_stream_prefix (q : list Pipeline.event) :
  exists rest, q = Pipeline.event_stream q ++ rest.
Proof.
  induction q as [|e q [rest IH]]; [now exists []|].
  cbn [Pipeline.event_stream]. destruct (Pipeline.terminal e).
  - now exists q.
  - exists rest. simpl. now rewrite <- IH.
Qed.

Lemma event_stream_body (q : list Pipeline.event) :
  forallb (fun e => negb (Pipeline.terminal e))
    (removelast (Pipeline.event_stream q)) = true.
Proof.
  induction q as [|e q IH]; [reflexivity|].
  cbn [Pipeline.event_stream]. destruct (Pipeline.terminal e) eqn:Et;
    [reflexivity|].
  destruct (Pipeline.event_stream q) as [|e' l] eqn:El; [reflexivity|].
  change (removelast (e :: e' :: l)) with (e :: removelast (e' :: l)).
  cbn [forallb]. now rewrite Et, IH.
Qed.

(** X15.  The progress stream of a job forwards the events of its
    queue in order, from the first one, and stops with the first
    finished or error event: what it yields is a prefix of the queue,
    none of its events but the last is a finished or error event, and
    the last one is when the queue holds one; a queue without such an
    event is forwarded whole, and reading a stream again gives the
    same stream. *)
Theorem event_stream_stops_at_first_terminal (q : list Pipeline.event) :
  (exists rest, q = Pipeline.event_stream q ++ rest)
  /\ forallb (fun e => negb (Pipeline.terminal e))
       (removelast (Pipeline.event_stream q)) = true
  /\ (if existsb Pipeline.terminal q
      then Pipeline.terminal (last (Pipeline.event_stream q) Pipeline.EvQueued)
           = true
      else Pipeline.event_stream q = q)
  /\ Pipeline.event_stream (Pipeline.event_stream q) = Pipeline.event_stream q.
Proof.
  split; [apply event_stream_prefix|]. split; [apply event_stream_body|].
  split.
  - induction q as [|e q IH]; [reflexivity|].
    cbn [Pipeline.event_stream existsb].
    destruct (Pipeline.terminal e) eqn:Et; cbn [orb].
    + exact Et.
    + destruct (existsb Pipeline.terminal q) eqn:Ex.
      * rewrite last_cons_default.
        destruct (Pipeline.event_stream q) as [|e' l] eqn:El;
          [destruct q; [discriminate Ex|]; cbn in El;
           destruct (Pipeline.terminal e0); discriminate El|].
        rewrite last_cons_default in IH |- *. exact IH.
      * now rewrite IH.
  - induction q as [|e q IH]; [reflexivity|].
    cbn [Pipeline.event_stream]. destruct (Pipeline.terminal e) eqn:Et.
    + cbn [Pipeline.event_stream]. now rewrite Et.
    + cbn [Pipeline.event_stream]. now rewrite Et, IH.
Qed.

Lemma after_last_split (sep : N) (s : text) :
  existsb (N.eqb sep) s = true ->
  exists stem,
    s = stem ++ sep :: App.after_last sep s
    /\ existsb (N.eqb sep) (App.after_last sep s) = false.
Proof.
  induction s as [|c s IH]; [discriminate|].
  cbn [existsb App.after_last]. intros H.
  destruct (existsb (N.eqb sep) s) eqn:Es.
  - destruct (IH eq_refl) as (stem & Hs & Hno).
    exists (c :: stem). split; [simpl; now rewrite <- Hs|exact Hno].
  - rewrite orb_false_r in H. apply N.eqb_eq in H. subst c.
    rewrite N.eqb_refl. exists []. split; [reflexivity|exact Es].
Qed.

Lemma after_last_app (sep : N) (ext : text) :
  existsb (N.eqb sep) ext = false ->
  forall stem, App.after_last sep (stem ++ sep :: ext) = ext.
Proof.
  intros Hno. induction stem as [|c stem IH].
  - cbn [app App.after_last]. now rewrite Hno, N.eqb_refl.
  - cbn [app App.after_last]. rewrite existsb_app. cbn [existsb].
    rewrite N.eqb_refl, orb_true_r. exact IH.
Qed.

Lemma ascii_lower_letter (c lower : N) :
  (97 <= lower <= 122)%N ->
  App.ascii_lower c = lower <-> c = lower \/ c = (lower - 32)%N.
Proof.
  intros Hl. unfold App.ascii_lower.
  destruct ((65 <=? c)%N && (c <=? 90)%N) eqn:E.
  - apply andb_true_iff in E. destruct E as [E1 E2].
    apply N.leb_le in E1. apply N.leb_le in E2. lia.
  - apply andb_false_iff in E.
    destruct E as [E|E]; apply N.leb_gt in E; lia.
Qed.

(** X16.  An uploaded name is accepted exactly when it ends with a dot
    followed by the three letters p, d, f, each in either case; so a
    name without a dot, a name with another last extension and a name
    whose dot comes last are all refused. *)
Theorem allowed_file_iff (filename : text) :
  App.allowed_file filename = true
  <-> exists stem p d f,
        filename = stem ++ 46%N :: [p; d; f]
        /\ (p = 112 \/ p = 80)%N /\ (d = 100 \/ d = 68)%N
        /\ (f = 102 \/ f = 70)%N.
Proof.
  unfold App.allowed_file. rewrite andb_true_iff, text_eqb_eq. split.
  - intros [Hdot Hext].
    destruct (after_last_split 46 filename Hdot) as (stem & Hs & _).
    destruct (App.after_last 46 filename) as [|p [|d [|f [|x ext]]]];
      try discriminate Hext.
    cbn in Hext. injection Hext as Hp Hd Hf.
    exists stem, p, d, f. split; [exact Hs|].
    apply (@ascii_lower_letter p 112%N) in Hp; [|lia].
    apply (@ascii_lower_letter d 100%N) in Hd; [|lia].
    apply (@ascii_lower_letter f 102%N) in Hf; [|lia].
    auto.
  - intros (stem & p & d & f & -> & Hp & Hd & Hf).
    assert (Hno : existsb (N.eqb 46) [p; d; f] = false).
    { cbn [existsb]. rewrite !orb_false_r, !orb_false_iff.
      repeat split; apply N.eqb_neq; lia. }
    split.
    + rewrite existsb_app. cbn [existsb]. rewrite N.eqb_refl.
      now rewrite orb_true_r.
    + rewrite (after_last_app 46 [p; d; f] Hno stem). cbn [map].
      apply (@ascii_lower_letter p 112%N) in Hp; [|lia].
      apply (@ascii_lower_letter d 100%N) in Hd; [|lia].
      apply (@ascii_lower_letter f 102%N) in Hf; [|lia].
      rewrite Hp, Hd, Hf. reflexivity.
Qed.

Lemma allowed_file_iff_witness :
  App.allowed_file (txt "tapu.v2.PdF") = true.
Proof.
  apply (proj2 (allowed_file_iff (txt "tapu.v2.PdF"))).
  exists (txt "tapu.v2"), 80%N, 100%N, 70%N.
  split; [reflexivity|]. split; [now right|]. split; [now left|now right].
Defined.

Lemma starts_with_iff (needle : text) :
  forall s, Str.starts_with needle s = true <-> exists rest, s = needle ++ rest.
Proof.
  induction needle as [|a needle IH]; intros s.
  - destruct s; (split; [intros _; eexists; reflexivity|reflexivity]).
  - destruct s as [|b s]; cbn [Str.starts_with].
    + split; [discriminate|]. intros [rest H]. discriminate H.
    + rewrite andb_true_iff, N.eqb_eq, IH. split.
      * intros [-> [rest ->]]. now exists rest.
      * intros [rest H]. injection H as -> ->. split; [reflexivity|now exists rest].
Qed.

Lemma contains_iff (needle : text) :
  forall s, Str.contains needle s = true
            <-> exists pre rest, s = pre ++ needle ++ rest.
Proof.
  induction s as [|c s IH].
  - cbn [Str.contains]. rewrite orb_false_r, starts_with_iff. split.
    + intros [rest H]. now exists [], rest.
    + intros (pre & rest & H). destruct pre; [now exists rest|discriminate H].
  - cbn [Str.contains]. rewrite orb_true_iff, starts_with_iff, IH. split.
    + intros [[rest H]|(pre & rest & H)].
      * now exists [], rest.
      * exists (c :: pre), rest. simpl. now rewrite H.
    + intros (pre & rest & H). destruct pre as [|x pre].
      * left. now exists rest.
      * right. injection H as _ H. now exists pre, rest.
Qed.

Lemma before_first_split (needle : text) :
  forall s, Str.contains needle s = true ->
            exists rest, s = More.before_first needle s ++ needle ++ rest.
Proof.
  induction s as [|c s IH]; cbn [Str.contains More.before_first]; intros H.
  - rewrite orb_false_r in H. rewrite H.
    apply starts_with_iff in H. exact H.
  - destruct (Str.starts_with needle (c :: s)) eqn:E.
    + apply starts_with_iff in E. exact E.
    + cbn [orb] in H. destruct (IH H) as [rest Hr].
      exists rest. simpl. now rewrite <- Hr.
Qed.

Lemma before_first_is_first (needle : text) :
  forall s k,
    k < length (More.before_first needle s) ->
    Str.starts_with needle (skipn k s) = false.
Proof.
  induction s as [|c s IH]; intros k; cbn [More.before_first].
  - destruct (Str.starts_with needle []); simpl; lia.
  - destruct (Str.starts_with needle (c :: s)) eqn:E; [simpl; lia|].
    destruct k as [|k]; [intros _; exact E|].
    cbn [length skipn]. intros H. apply IH. lia.
Qed.

(** X17.  The enforcement office read from a description is the text
    before the first occurrence of the marker NİN, with the whitespace
    at its two ends removed; a missing value and a text without the
    marker give no office. *)
Theorem get_icra_dairesi_reads_before_marker (value : cell) :
  match More.get_icra_dairesi value with
  | Some office =>
      exists s before rest,
        value = CStr s
        /\ s = before ++ txt "NİN" ++ rest
        /\ (forall k, k < length before ->
                      Str.starts_with (txt "NİN") (skipn k s) = false)
        /\ office = Str.strip before
  | None =>
      isna value = true
      \/ forall before rest, py_str value <> before ++ txt "NİN" ++ rest
  end.
Proof.
  unfold More.get_icra_dairesi.
  destruct (isna value) eqn:En; cbn [negb andb]; [now left|].
  destruct (Str.contains (txt "NİN") (py_str value)) eqn:Ec.
  - destruct value as [| |s]; try discriminate En. cbn [py_str] in *.
    destruct (before_first_split _ _ Ec) as [rest Hr].
    exists s, (More.before_first (txt "NİN") s), rest.
    split; [reflexivity|]. split; [exact Hr|].
    split; [apply before_first_is_first|reflexivity].
  - right. intros before rest H.
    assert (Hc : Str.contains (txt "NİN") (py_str value) = true)
      by (apply contains_iff; now exists before, rest).
    rewrite Hc in Ec. discriminate Ec.
Qed.

Lemma process_multiple_pdfs_reports_each_document_witness :
  nth_error
    (App.progress_events Pipeline.date_yevmiye_absent
       Pipeline.icra_dairesi_absent 3 1
       [Sample.good; Sample.bad_identity; Sample.good]) 1
  = Some (Pipeline.EvProgress 2 3 Pipeline.Failed
            (Pipeline.doc_name Sample.bad_identity)).
Proof.
  pose proof (proj2 (proj2 (proj2 (proj2
    (process_multiple_pdfs_reports_each_document
       Pipeline.date_yevmiye_absent Pipeline.icra_dairesi_absent
       [Sample.good; Sample.bad_identity; Sample.good]))))
    [Sample.good] Sample.bad_identity [Sample.good] eq_refl) as H.
  exact H.
Defined.

Lemma run_job_outcome_witness :
  let j := Pipeline.run_job Pipeline.date_yevmiye_absent
             Pipeline.icra_dairesi_absent
             [Sample.good; Sample.bad_identity] Pipeline.Csv true in
  Pipeline.job_state j = Pipeline.Completed
  /\ Pipeline.job_error j = None
  /\ Pipeline.job_processed j = 2.
Proof.
  cbv zeta.
  destruct (run_job_outcome Pipeline.date_yevmiye_absent
              Pipeline.icra_dairesi_absent
              [Sample.good; Sample.bad_identity] Pipeline.Csv true)
    as (_ & Hok & _ & Hn).
  destruct Hok as [Hs He]; [vm_compute; reflexivity|].
  split; [exact Hs|]. split; [exact He|].
  apply Hn. discriminate.
Defined.

Lemma process_single_pdf_one_record_per_row_witness :
  exists recs df,
    Pipeline.process_single_pdf Pipeline.date_yevmiye_absent
      Pipeline.icra_dairesi_absent Sample.good = Some recs
    /\ DataExtractor.extract_mulkiyete_ait_serh_beyan
         (Pipeline.doc_tables Sample.good) = Ok df
    /\ map Pipeline.masb recs = map (map Pipeline.clean_upper) (rows df)
    /\ length recs = length (rows df).
Proof.
  destruct (Pipeline.process_single_pdf Pipeline.date_yevmiye_absent
              Pipeline.icra_dairesi_absent Sample.good) as [recs|] eqn:E;
    [|vm_compute in E; discriminate E].
  assert (Hdy : forall col out,
            Pipeline.date_yevmiye_absent col = Ok out ->
            length out = length col).
  { intros col out H. unfold Pipeline.date_yevmiye_absent in H.
    inversion H. now rewrite length_map. }
  assert (Hid : forall col out,
            Pipeline.icra_dairesi_absent col = Ok out ->
            length out = length col).
  { intros col out H. unfold Pipeline.icra_dairesi_absent in H.
    inversion H. now rewrite length_map. }
  destruct (@process_single_pdf_one_record_per_row
              Pipeline.date_yevmiye_absent Pipeline.icra_dairesi_absent
              Hdy Hid Sample.good recs E)
    as (df & Hdf & Hm & _ & Hl & _).
  exists recs, df. auto.
Defined.
